(** * Omni-Lab voice tutor: audio codec, realtime session, lecture state machine

    A shallow embedding of the voice pipeline of the repository:

    - [AudioCodec]: the Float32 -> Int16 PCM conversion and
      [decodeAudioData] of utils/audio.ts (src/unnamed/part_009, lines
      32-61), repeated in services/geminiRealtime.ts and services/live.ts;
    - [Session]: the closure state of [startGeminiVoice] in
      services/geminiRealtime.ts (the second document of
      src/services/pptGenerator.ts, lines 236-626): playback scheduling,
      [clearAudio], [handleMessage], the capture callback with its local VAD,
      mute and stop;
    - [Connect]: resource acquisition of [startGeminiVoice] and of
      [LiveClient.connect] / [disconnect] in services/live.ts
      (src/unnamed/part_001);
    - [AutoTutor]: the lecture state machine of
      contexts/AutoTutorContext.tsx (src/unnamed/part_011, lines 638-1186)
      over the part of contexts/TutorContext.tsx it drives (the same file,
      lines 337-637).

    The definitions come first, module by module; the properties follow. *)

From Stdlib Require Import ZArith QArith Qabs Lia Lqa Bool Ascii String.
From Stdlib.Strings Require Byte.
From Stdlib.Floats Require SpecFloat.
From stdpp Require Import base list.

Local Open Scope Z_scope.

(** ** JavaScript numbers, as far as the audio code uses them *)

(** Samples are IEEE floats.  Every finite float is a rational; the products
    and quotients by 32768 that the codec computes are exact (a power of two),
    so finite values are carried as exact rationals. *)
Inductive float : Type :=
| FNum (q : Q)
| FNaN
| FInf (negative : bool).

(** Where the arithmetic is not exact (the sum, the quotient and the square
    root of the voice-activity test) a number is the IEEE 754 binary64 value
    that JavaScript computes with, as [SpecFloat] defines it: 53 bits of
    precision, round to nearest, ties to even. *)
Definition prec : Z := 53.
Definition emax : Z := 1024.

(** The double nearest to a rational.  It is the rational itself when that
    is a double, as every element of a [Float32Array] is. *)
Definition binary64 (q : Q) : SpecFloat.spec_float :=
  match Qnum q with
  | 0 => SpecFloat.S754_zero false
  | Z.pos n =>
      let '(m, e, l) :=
        SpecFloat.SFdiv_core_binary prec emax (Z.pos n) 0 (Z.pos (Qden q)) 0 in
      SpecFloat.binary_round_aux prec emax false m e l
  | Z.neg n =>
      let '(m, e, l) :=
        SpecFloat.SFdiv_core_binary prec emax (Z.pos n) 0 (Z.pos (Qden q)) 0 in
      SpecFloat.binary_round_aux prec emax true m e l
  end.

(** A sample read as a JavaScript number. *)
Definition toNumber (x : float) : SpecFloat.spec_float :=
  match x with
  | FNum q => binary64 q
  | FNaN => SpecFloat.S754_nan
  | FInf negative => SpecFloat.S754_infinity negative
  end.

Module AudioCodec.

(** *** Encoding: [int16[i] = data[i] * 32768] *)

(** [data[i] * 32768] *)
Definition scale32768 (x : float) : float :=
  match x with
  | FNum q => FNum (q * 32768)%Q
  | FNaN => FNaN
  | FInf s => FInf s
  end.

(** Truncation toward zero of a rational (the first step of ToInt16). *)
Definition Qtrunc (q : Q) : Z := Z.quot (Qnum q) (Z.pos (Qden q)).

(** Reduction modulo 2^16 into the signed range (the second step). *)
Definition wrap16 (n : Z) : Z :=
  let m := n mod 65536 in
  if 32768 <=? m then m - 65536 else m.

(** Storing a number into an [Int16Array] element applies ToInt16:
    NaN and the infinities become 0, a finite number is truncated toward
    zero and taken modulo 2^16. *)
Definition ToInt16 (x : float) : Z :=
  match x with
  | FNum q => wrap16 (Qtrunc q)
  | FNaN => 0
  | FInf _ => 0
  end.

(** The loop [for (i = 0; i < l; i++) int16[i] = data[i] * 32768]. *)
Definition toInt16Array (data : list float) : list Z :=
  map (fun x => ToInt16 (scale32768 x)) data.

Definition byte_of_Z (z : Z) : Byte.byte :=
  match Byte.of_N (Z.to_N (z mod 256)) with
  | Some b => b
  | None => Byte.x00
  end.

Definition Z_of_byte (b : Byte.byte) : Z := Z.of_N (Byte.to_N b).

(** The two bytes of one Int16 element as seen through
    [new Uint8Array(int16.buffer)] (little-endian, two's complement). *)
Definition int16_bytes (v : Z) : list Byte.byte :=
  let u := v mod 65536 in
  [byte_of_Z (u mod 256); byte_of_Z (u / 256)].

Definition bytesOfInt16Array (int16 : list Z) : list Byte.byte :=
  flat_map int16_bytes int16.

(** [createPcmBlob] (utils/audio.ts) and the "Encode and Send" step of
    [processor.onaudioprocess]: the raw PCM bytes.  The base64 text that
    [btoa] makes of them on the way out is the transport's framing and is
    left out. *)
Definition createPcmBlob (data : list float) : list Byte.byte :=
  bytesOfInt16Array (toInt16Array data).

(** *** Decoding: [decodeAudioData] *)

Inductive DOMException : Type :=
| RangeError              (* thrown by [new Int16Array(buffer)] *)
| NotSupportedError       (* thrown by [ctx.createBuffer] *)
| InvalidCharacterError.  (* thrown by [atob] *)

(** [atob], the forgiving-base64 decoding of the HTML standard: ASCII white
    space is removed; when the length is then a multiple of 4, one or two
    [=] at the end are removed; a length of 1 modulo 4, or a character
    outside the alphabet, is the failure that [atob] throws as an
    InvalidCharacterError; else every character gives six bits, and what is
    left of the last group (four bits of twelve, two of eighteen) is
    discarded. *)
Definition isAsciiWhitespace (c : ascii) : bool :=
  let n := N_of_ascii c in
  ((n =? 9) || (n =? 10) || (n =? 12) || (n =? 13) || (n =? 32))%N.

Definition base64Value (c : ascii) : option N :=
  let n := N_of_ascii c in
  (if (65 <=? n) && (n <=? 90) then Some (n - 65)          (* A-Z *)
   else if (97 <=? n) && (n <=? 122) then Some (n - 71)    (* a-z *)
   else if (48 <=? n) && (n <=? 57) then Some (n + 4)      (* 0-9 *)
   else if n =? 43 then Some 62                            (* + *)
   else if n =? 47 then Some 63                            (* / *)
   else None)%N.

Definition isPadding (c : ascii) : bool := (N_of_ascii c =? 61)%N.   (* = *)

Definition stripPadding (data : list ascii) : list ascii :=
  if (length data mod 4 =? 0)%nat then
    match rev data with
    | c1 :: c2 :: rest =>
        if isPadding c1 then (if isPadding c2 then rev rest else rev (c2 :: rest))
        else data
    | _ => data
    end
  else data.

Fixpoint sextets (data : list ascii) : option (list N) :=
  match data with
  | [] => Some []
  | c :: rest =>
      match base64Value c, sextets rest with
      | Some v, Some vs => Some (v :: vs)
      | _, _ => None
      end
  end.

Definition byte_of_N (n : N) : Byte.byte :=
  match Byte.of_N (n mod 256) with
  | Some b => b
  | None => Byte.x00
  end.

Fixpoint bytesOfSextets (vs : list N) : list Byte.byte :=
  match vs with
  | a :: b :: c :: d :: rest =>
      let n := (a * 262144 + b * 4096 + c * 64 + d)%N in
      byte_of_N (n / 65536) :: byte_of_N (n / 256) :: byte_of_N n
        :: bytesOfSextets rest
  | [a; b; c] =>
      let n := ((a * 4096 + b * 64 + c) / 4)%N in
      [byte_of_N (n / 256); byte_of_N n]
  | [a; b] => [byte_of_N ((a * 64 + b) / 16)]
  | _ => []
  end.

Definition atob (data : string) : DOMException + list Byte.byte :=
  let data :=
    stripPadding
      (List.filter (fun c => negb (isAsciiWhitespace c)) (list_ascii_of_string data)) in
  if (length data mod 4 =? 1)%nat then inl InvalidCharacterError
  else
    match sextets data with
    | Some vs => inr (bytesOfSextets vs)
    | None => inl InvalidCharacterError
    end.

(** [base64ToUint8Array]: the char codes of [atob(base64)], one byte each. *)
Definition base64ToUint8Array (base64 : string) : DOMException + list Byte.byte :=
  atob base64.

(** A text is truthy when it is not empty. *)
Definition nonEmpty (s : string) : bool :=
  match s with EmptyString => false | _ => true end.

Record AudioBuffer : Type := mkAudioBuffer {
  numberOfChannels : nat;
  bufferSampleRate : Z;
  channelData : list (list float)   (* getChannelData(c), c < numberOfChannels *)
}.

(** Signed value of a little-endian byte pair. *)
Definition int16_of_bytes (lo hi : Byte.byte) : Z :=
  wrap16 (Z_of_byte lo + 256 * Z_of_byte hi).

Fixpoint int16_view (data : list Byte.byte) : list Z :=
  match data with
  | lo :: hi :: rest => int16_of_bytes lo hi :: int16_view rest
  | _ => []
  end.

(** [new Int16Array(data.buffer)]: a RangeError unless the byte length is a
    multiple of 2. *)
Definition newInt16Array (data : list Byte.byte) : DOMException + list Z :=
  if (length data mod 2 =? 0)%nat then inr (int16_view data) else inl RangeError.

(** What [createBuffer] accepts.  An argument outside its nominal range
    raises NotSupportedError; where the range ends is the implementation's
    choice, which must take at least 32 channels and the sample rates from
    8000 to 96000 Hz.  These least limits are the ones of the model: within
    them it is every browser's [createBuffer].  Both callers pass the literal
    rate 24000 and one channel. *)
Definition maxChannels : nat := 32.
Definition minSampleRate : Z := 8000.
Definition maxSampleRate : Z := 96000.

Definition supported (numChannels : nat) (sampleRate : Z) : bool :=
  (numChannels <=? maxChannels)%nat
  && (minSampleRate <=? sampleRate) && (sampleRate <=? maxSampleRate).

(** [ctx.createBuffer(numChannels, frameCount, sampleRate)] where
    [frameCount = n / numChannels] is a JavaScript number.  The [length]
    argument is a WebIDL [unsigned long]: the number is truncated, so the
    buffer has [n / numChannels] (integer quotient) frames.  Zero channels,
    zero frames, and a channel count or a rate that is not supported raise
    NotSupportedError. *)
Definition createBuffer (numChannels n : nat) (sampleRate : Z)
  : DOMException + AudioBuffer :=
  if negb (supported numChannels sampleRate) then inl NotSupportedError
  else if (numChannels =? 0)%nat then inl NotSupportedError
  else
    let frames := (n / numChannels)%nat in
    if (frames =? 0)%nat then inl NotSupportedError
    else inr (mkAudioBuffer numChannels sampleRate
                (replicate numChannels (replicate frames (FNum 0)))).

(** Number of iterations of [for (i = 0; i < frameCount; i++)] with
    [frameCount = n / numChannels] taken as a real quotient: the number of
    naturals [i] with [i * numChannels < n]. *)
Definition frameLoopBound (n numChannels : nat) : nat :=
  ((n + numChannels - 1) / numChannels)%nat.

(** [dataInt16[k] / 32768.0]; an index past the end reads [undefined],
    whose quotient is NaN. *)
Definition sampleAt (dataInt16 : list Z) (k : nat) : float :=
  match dataInt16 !! k with
  | Some v => FNum (v # 32768)
  | None => FNaN
  end.

(** The inner loop for one channel.  A typed-array store past the end is
    ignored, which is what the list insert does. *)
Definition fillChannel (dataInt16 : list Z) (numChannels channel : nat)
    (iters : nat) (chan : list float) : list float :=
  foldl (fun cd i => <[i := sampleAt dataInt16 (i * numChannels + channel)]> cd)
        chan (seq 0 iters).

Definition decodeAudioData (data : list Byte.byte) (sampleRate : Z)
    (numChannels : nat) : DOMException + AudioBuffer :=
  match newInt16Array data with
  | inl e => inl e
  | inr dataInt16 =>
      match createBuffer numChannels (length dataInt16) sampleRate with
      | inl e => inl e
      | inr buffer =>
          let iters := frameLoopBound (length dataInt16) numChannels in
          inr (mkAudioBuffer (numberOfChannels buffer) (bufferSampleRate buffer)
                 (imap (fun channel cd =>
                          fillChannel dataInt16 numChannels channel iters cd)
                       (channelData buffer)))
      end
  end.

(** *** The codec as the specification words it *)

(** Nearest integer, halves away from zero. *)
Definition Qround_nearest (q : Q) : Z :=
  let twice := (2 * Qnum q)%Z in
  let d := Z.pos (Qden q) in
  if 0 <=? Qnum q then (twice + d) / (2 * d) else - ((- twice + d) / (2 * d)).

Definition clamp16 (n : Z) : Z := Z.max (-32768) (Z.min 32767 n).

(** "maps each sample to int16 via round(sample * 32768), clamps silently on
    overflow, concatenates as little-endian". *)
Definition encode_as_specified (samples : list Q) : list Byte.byte :=
  bytesOfInt16Array (map (fun q => clamp16 (Qround_nearest (q * 32768)%Q)) samples).

(** *** Vocabulary of the round-trip property *)

(** Two samples differ by at most one Int16 quantization step. *)
Definition within_step (x y : float) : Prop :=
  match x, y with
  | FNum a, FNum b => (Qabs (b - a) <= 1 # 32768)%Q
  | _, _ => False
  end.

(** A finite sample whose scaled value truncates into the Int16 range;
    every sample with [-1 <= q < 1] is one. *)
Definition fits_int16 (x : float) : Prop :=
  match x with
  | FNum q => (-32769 < q * 32768 /\ q * 32768 < 32768)%Q
  | _ => False
  end.

(** [decode(encode(s))] succeeds with one channel whose samples are
    pairwise within a quantization step of [s]. *)
Definition roundtrip_close (s : list float) : Prop :=
  exists out,
    decodeAudioData (createPcmBlob s) 24000 1
      = inr (mkAudioBuffer 1 24000 [out])
    /\ Forall2 within_step s out.


End AudioCodec.

(** ** The realtime voice session: [startGeminiVoice] *)

(** Playback times come from [AudioContext.currentTime] and
    [AudioBuffer.duration], which are doubles.  The scheduler only takes a
    maximum and a sum of them, so the session is written over any time line
    with these two operations; [TimeLineOrder] states what [Math.max] gives
    on numbers. *)
Class TimeLine (T : Type) : Type := {
  tzero : T;
  tmax : T -> T -> T;
  tplus : T -> T -> T;
  tle : T -> T -> Prop;
  tduration : nat -> Z -> T      (* frames / sampleRate *)
}.

Class TimeLineOrder (T : Type) `{TimeLine T} : Prop := {
  tmax_l : forall a b : T, tle a (tmax a b);
  tmax_r : forall a b : T, tle b (tmax a b)
}.

(** Exact rational seconds. *)
#[export] Instance QTimeLine : TimeLine Q := {
  tzero := 0%Q;
  tmax := fun a b => if Qle_bool a b then b else a;
  tplus := Qplus;
  tle := Qle;
  tduration := fun frames rate => (inject_Z (Z.of_nat frames) / inject_Z rate)%Q
}.

Module Session.
Import AudioCodec.

(** The callbacks of [VoiceCallbacks]. *)
Inductive Callback : Type :=
| onOpen | onClose | onError
| onText (text : string)
| onTurnComplete | onInterrupted
| onSpeakingStart | onSpeakingStop
| onUserActivity.

Section WithTimeLine.
(** [T] is the time line; [Txt] is the type of the text of a client turn
    (the application builds these texts from templates). *)
Context {T : Type} `{TimeLine T} {Txt : Type}.

(** The mutable variables closed over by the handle ("4. Internal state"),
    with the VAD's [lastActivityTime] of the [onopen] closure.  An
    [AudioBufferSourceNode] is identified by the order of its creation;
    [activeSources] lists the set in insertion order, as [forEach] visits
    it. *)
Record State : Type := mkState {
  muted : bool;
  stopped : bool;
  nextStartTime : T;
  isSpeaking : bool;
  activeSources : list nat;
  sourcesCreated : nat;
  lastActivityTime : Z
}.

Definition initial : State :=
  mkState false false tzero false [] 0 0.

Definition set_muted (b : bool) (st : State) : State :=
  mkState b (stopped st) (nextStartTime st) (isSpeaking st)
          (activeSources st) (sourcesCreated st) (lastActivityTime st).
Definition set_stopped (b : bool) (st : State) : State :=
  mkState (muted st) b (nextStartTime st) (isSpeaking st)
          (activeSources st) (sourcesCreated st) (lastActivityTime st).
Definition set_nextStartTime (t : T) (st : State) : State :=
  mkState (muted st) (stopped st) t (isSpeaking st)
          (activeSources st) (sourcesCreated st) (lastActivityTime st).
Definition set_isSpeaking (b : bool) (st : State) : State :=
  mkState (muted st) (stopped st) (nextStartTime st) b
          (activeSources st) (sourcesCreated st) (lastActivityTime st).
Definition set_activeSources (l : list nat) (st : State) : State :=
  mkState (muted st) (stopped st) (nextStartTime st) (isSpeaking st)
          l (sourcesCreated st) (lastActivityTime st).
Definition set_sourcesCreated (n : nat) (st : State) : State :=
  mkState (muted st) (stopped st) (nextStartTime st) (isSpeaking st)
          (activeSources st) n (lastActivityTime st).
Definition set_lastActivityTime (t : Z) (st : State) : State :=
  mkState (muted st) (stopped st) (nextStartTime st) (isSpeaking st)
          (activeSources st) (sourcesCreated st) t.

(** What the session does to the outside, in order.  A callback is recorded
    with the session state its receiver finds when it runs. *)
Inductive Effect : Type :=
| SourceStart (source : nat) (when : T) (buffer : AudioBuffer)
| SourceStop (source : nat)
| Call (cb : Callback) (seen : State)
| SendRealtimeInput (pcm : list Byte.byte)
| SendClientContent (text : Txt)
| ProcessorDisconnect
| MicSourceDisconnect
| StreamTracksStop
| AudioContextClose
| InputAudioContextClose
| SessionClose.

(** State and output threaded through the closures. *)
Definition M (A : Type) : Type := State -> A * State * list Effect.

Definition ret {A} (a : A) : M A := fun st => (a, st, []).
Definition bind {A B} (m : M A) (k : A -> M B) : M B :=
  fun st =>
    let '(a, st1, log1) := m st in
    let '(b, st2, log2) := k a st1 in
    (b, st2, log1 ++ log2).
Definition gets {A} (f : State -> A) : M A := fun st => (f st, st, []).
Definition modify (f : State -> State) : M unit := fun st => (tt, f st, []).
Definition emit (e : Effect) : M unit := fun st => (tt, st, [e]).
Definition call (cb : Callback) : M unit := fun st => (tt, st, [Call cb st]).

Declare Scope session_scope.
Delimit Scope session_scope with session.
Notation "x <- m ;; k" := (bind m (fun x => k))
  (at level 100, m at next level, k at level 200, right associativity,
   only parsing) : session_scope.
Notation "m ;; k" := (bind m (fun _ => k))
  (at level 100, k at level 200, right associativity, only parsing)
  : session_scope.
Local Open Scope session_scope.

Fixpoint forEach {A} (l : list A) (body : A -> M unit) : M unit :=
  match l with
  | [] => ret tt
  | a :: rest => body a ;; forEach rest body
  end.

Definition when (b : bool) (m : M unit) : M unit := if b then m else ret tt.

Definition exec {A} (m : M A) (st : State) : State * list Effect :=
  let '(_, st', log) := m st in (st', log).

(** [clearAudio] *)
Definition clearAudio : M unit :=
  sources <- gets activeSources ;;
  forEach sources (fun s => emit (SourceStop s)) ;;
  modify (set_activeSources []) ;;
  modify (set_nextStartTime tzero) ;;
  speaking <- gets isSpeaking ;;
  when speaking (modify (set_isSpeaking false) ;; call onSpeakingStop).

(** One part of a model turn.  [text] and [inlineData] are absent or
    present, [inlineData] being the base64 text [part.inlineData?.data];
    [currentTime] is the reading of [audioContext.currentTime] at the moment
    this part's audio is scheduled. *)
Record Part : Type := mkPart {
  text : option string;
  inlineData : option string;
  currentTime : T
}.

Record LiveServerMessage : Type := mkMessage {
  interrupted : bool;
  turnComplete : bool;
  modelTurnParts : option (list Part)
}.

Definition bufferFrames (buffer : AudioBuffer) : nat :=
  match channelData buffer with
  | chan :: _ => length chan
  | [] => 0
  end.

(** [audioBuffer.duration] *)
Definition duration (buffer : AudioBuffer) : T :=
  tduration (bufferFrames buffer) (bufferSampleRate buffer).

(** Scheduling of one decoded buffer: from [createBufferSource] to
    [nextStartTime += audioBuffer.duration]. *)
Definition schedule (audioBuffer : AudioBuffer) (now : T) : M unit :=
  source <- gets sourcesCreated ;;
  modify (set_sourcesCreated (S source)) ;;
  next <- gets nextStartTime ;;
  modify (set_nextStartTime (tmax next now)) ;;
  start <- gets nextStartTime ;;
  emit (SourceStart source start audioBuffer) ;;
  active <- gets activeSources ;;
  modify (set_activeSources (if decide (source ∈ active) then active
                             else active ++ [source])) ;;
  start' <- gets nextStartTime ;;
  modify (set_nextStartTime (tplus start' (duration audioBuffer))).

(** The ["ended"] listener of a source. *)
Definition sourceEnded (source : nat) : M unit :=
  active <- gets activeSources ;;
  modify (set_activeSources (filter (fun s => s <> source) active)) ;;
  active' <- gets activeSources ;;
  speaking <- gets isSpeaking ;;
  when (bool_decide (active' = []) && speaking)
       (modify (set_isSpeaking false) ;; call onSpeakingStop).

(** The body of [try] for one audio chunk, up to the buffer: what
    [base64ToUint8Array] or [decodeAudioData] throws is caught by the
    handler. *)
Definition decodeChunk (audioData : string) : DOMException + AudioBuffer :=
  match base64ToUint8Array audioData with
  | inl e => inl e
  | inr audioBytes => decodeAudioData audioBytes 24000 1
  end.

Definition handlePart (part : Part) : M unit :=
  match text part with
  | Some t => when (nonEmpty t) (call (onText t))
  | None => ret tt
  end ;;
  match inlineData part with
  | None => ret tt
  | Some audioData =>
      (* [if (audioData && audioContext)]: the context is a constant *)
      when (nonEmpty audioData)
        (speaking <- gets isSpeaking ;;
         when (negb speaking) (modify (set_isSpeaking true) ;; call onSpeakingStart) ;;
         match decodeChunk audioData with
         | inr audioBuffer => schedule audioBuffer (currentTime part)
         | inl _ => ret tt          (* catch: "Audio decode error" is logged *)
         end)
  end.

(** [handleMessage].  The only [await] of the loop is on [decodeAudioData],
    an async function that never suspends, so a message is handled as one
    step. *)
Definition handleMessage (message : LiveServerMessage) : M unit :=
  if interrupted message then
    clearAudio ;; call onInterrupted
  else if turnComplete message then
    call onTurnComplete
  else
    match modelTurnParts message with
    | None => ret tt
    | Some parts => forEach parts handlePart
    end.

(** *** The capture callback: local VAD, then encode and send *)

(** The operations of JavaScript numbers that the test uses; [Math.sqrt] is
    the correctly rounded square root of the engines. *)
Definition fmul : SpecFloat.spec_float -> SpecFloat.spec_float -> SpecFloat.spec_float :=
  SpecFloat.SFmul prec emax.
Definition fadd : SpecFloat.spec_float -> SpecFloat.spec_float -> SpecFloat.spec_float :=
  SpecFloat.SFadd prec emax.
Definition fdiv : SpecFloat.spec_float -> SpecFloat.spec_float -> SpecFloat.spec_float :=
  SpecFloat.SFdiv prec emax.
Definition fsqrt : SpecFloat.spec_float -> SpecFloat.spec_float :=
  SpecFloat.SFsqrt prec emax.

(** The indices [0, 4, 8, ...] below the length. *)
Definition strideIndices (len : nat) : list nat :=
  map (fun k => 4 * k)%nat (seq 0 ((len + 3) / 4)).

(** [for (i = 0; i < inputData.length; i += 4) sum += inputData[i] * inputData[i]] *)
Definition subsampledEnergy (inputData : list float) : SpecFloat.spec_float :=
  foldl (fun sum i =>
           match inputData !! i with
           | Some x => fadd sum (fmul (toNumber x) (toNumber x))
           | None => SpecFloat.S754_nan
           end)
        (SpecFloat.S754_zero false) (strideIndices (length inputData)).

(** [const VAD_THRESHOLD = 0.02]: the literal denotes the double nearest to
    2/100. *)
Definition VAD_THRESHOLD : Q := 2 # 100.

(** [Math.sqrt(sum / (inputData.length / 4))], every operation rounded as
    the doubles round it. *)
Definition rms (inputData : list float) : SpecFloat.spec_float :=
  fsqrt (fdiv (subsampledEnergy inputData)
              (fdiv (binary64 (inject_Z (Z.of_nat (length inputData))))
                    (binary64 4))).

(** [rms > VAD_THRESHOLD]; a NaN compares false. *)
Definition rmsExceedsThreshold (inputData : list float) : bool :=
  SpecFloat.SFltb (binary64 VAD_THRESHOLD) (rms inputData).

(** [processor.onaudioprocess]; [now] is the value [Date.now()] returns
    (milliseconds) should the callback ask for it. *)
Definition onaudioprocess (inputData : list float) (now : Z) : M unit :=
  isStopped <- gets stopped ;;
  isMuted <- gets muted ;;
  if isStopped || isMuted then ret tt
  else
    when (rmsExceedsThreshold inputData)
         (last <- gets lastActivityTime ;;
          when (500 <? now - last)
               (modify (set_lastActivityTime now) ;; call onUserActivity)) ;;
    emit (SendRealtimeInput (createPcmBlob inputData)).

(** [stop] *)
Definition stop : M unit :=
  isStopped <- gets stopped ;;
  if isStopped then ret tt
  else
    modify (set_stopped true) ;;
    clearAudio ;;
    emit ProcessorDisconnect ;;
    emit MicSourceDisconnect ;;
    emit StreamTracksStop ;;
    emit AudioContextClose ;;
    emit InputAudioContextClose ;;
    emit SessionClose.

(** [sendText] *)
Definition sendText (t : Txt) : M unit :=
  isStopped <- gets stopped ;;
  if isStopped then ret tt else emit (SendClientContent t).

Definition muteMic : M unit := modify (set_muted true).
Definition unmuteMic : M unit := modify (set_muted false).
Definition isMuted : M bool := gets muted.

(** *** Everything that can happen to a session, one at a time *)

Inductive Op : Type :=
| OpMessage (message : LiveServerMessage)      (* onmessage *)
| OpEnded (source : nat)                       (* a source finished playing *)
| OpAudioProcess (inputData : list float) (now : Z)
| OpSocketClose                                (* onclose *)
| OpSocketError                                (* onerror *)
| OpClearAudio
| OpStop
| OpSendText (t : Txt)
| OpMuteMic
| OpUnmuteMic.

Definition step (op : Op) : M unit :=
  match op with
  | OpMessage message => handleMessage message
  | OpEnded source => sourceEnded source
  | OpAudioProcess inputData now => onaudioprocess inputData now
  | OpSocketClose => call onClose
  | OpSocketError => call onError
  | OpClearAudio => clearAudio
  | OpStop => stop
  | OpSendText t => sendText t
  | OpMuteMic => muteMic
  | OpUnmuteMic => unmuteMic
  end.

Definition run (ops : list Op) : M unit := forEach ops step.

(** What the browser and the network do, as opposed to the handle's methods. *)
Definition fromEnvironment (op : Op) : bool :=
  match op with
  | OpMessage _ | OpEnded _ | OpAudioProcess _ _
  | OpSocketClose | OpSocketError => true
  | _ => false
  end.

(** *** Reading a log *)

Definition isUserActivity (e : Effect) : bool :=
  match e with Call onUserActivity _ => true | _ => false end.

Definition isCaptureOutput (e : Effect) : bool :=
  match e with
  | Call onUserActivity _ => true
  | SendRealtimeInput _ => true
  | _ => false
  end.

(** The number of [onUserActivity] calls in a log. *)
Fixpoint activityEvents (log : list Effect) : nat :=
  match log with
  | [] => 0
  | e :: rest => ((if isUserActivity e then 1 else 0) + activityEvents rest)%nat
  end.

(** A run of capture callbacks, one per frame with the time it is processed. *)
Definition capture (frames : list (list float * Z)) : M unit :=
  forEach frames (fun '(inputData, now) => onaudioprocess inputData now).


(** Start time and buffer of each source started, in order. *)
Fixpoint starts (log : list Effect) : list (T * AudioBuffer) :=
  match log with
  | [] => []
  | SourceStart _ when buffer :: rest => (when, buffer) :: starts rest
  | _ :: rest => starts rest
  end.

(** The frames that a part, an operation and a run enqueue for playback,
    each with the reading of the clock it is enqueued at: the audio chunks
    that decode, of the messages that carry parts. *)
Definition framesOfPart (part : Part) : list (T * AudioBuffer) :=
  match inlineData part with
  | Some audioData =>
      if nonEmpty audioData then
        match decodeChunk audioData with
        | inr audioBuffer => [(currentTime part, audioBuffer)]
        | inl _ => []
        end
      else []
  | None => []
  end.

Definition framesOfOp (op : Op) : list (T * AudioBuffer) :=
  match op with
  | OpMessage message =>
      if interrupted message || turnComplete message then []
      else
        match modelTurnParts message with
        | Some parts => flat_map framesOfPart parts
        | None => []
        end
  | _ => []
  end.

Definition enqueuedFrames (ops : list Op) : list (T * AudioBuffer) :=
  flat_map framesOfOp ops.

(** The scheduler as the specification words it: [enqueue(frame)] "sets this
    item's start time to max(nextStartTime, clock.now()), schedules playback
    at that time, advances nextStartTime by the frame's duration".  The
    result is the start of each frame, in order, and the [nextStartTime] the
    last one leaves. *)
Fixpoint enqueue_as_specified (nextStartTime : T) (frames : list (T * AudioBuffer))
  : list (T * AudioBuffer) * T :=
  match frames with
  | [] => ([], nextStartTime)
  | (now, frame) :: rest =>
      let start := tmax nextStartTime now in
      let '(started, last) :=
        enqueue_as_specified (tplus start (duration frame)) rest in
      ((start, frame) :: started, last)
  end.

(** A source never starts before its predecessor's start plus duration. *)
Fixpoint noOverlap (l : list (T * AudioBuffer)) : Prop :=
  match l with
  | (start1, buffer1) :: rest =>
      match rest with
      | (start2, _) :: _ => tle (tplus start1 (duration buffer1)) start2
      | [] => True
      end /\ noOverlap rest
  | [] => True
  end.

Definition isUnmute (op : Op) : bool :=
  match op with OpUnmuteMic => true | _ => false end.

(** Operations that leave the playback queue alone: everything except
    [clearAudio], [stop] and an [interrupted] message. *)
Definition keepsQueue (op : Op) : bool :=
  match op with
  | OpClearAudio | OpStop => false
  | OpMessage message => negb (interrupted message)
  | _ => true
  end.

(** *** Vocabulary of the session's properties *)

(** [m] keeps the state property [I] and only outputs effects in [P]. *)
Definition keeps {A} (I : State -> Prop) (P : Effect -> Prop) (m : M A) : Prop :=
  forall st, I st ->
    let '(_, st', log) := m st in I st' /\ Forall P log.

(** The state [clearAudio] leaves. *)
Definition cleared (st : State) : State :=
  mkState (muted st) (stopped st) tzero false [] (sourcesCreated st)
          (lastActivityTime st).

(** [m] starts the sources of [frames], and no other, as the specification
    schedules them from the running [nextStartTime]. *)
Definition enqueues {A} (frames : list (T * AudioBuffer)) (m : M A) : Prop :=
  forall st,
    let '(_, st', log) := m st in
    (starts log, nextStartTime st')
    = enqueue_as_specified (nextStartTime st) frames.

(** Neither an activity event nor a frame sent. *)
Definition notCapture (e : Effect) : Prop := isCaptureOutput e = false.


End WithTimeLine.

(** Sample frames: one well above the VAD threshold, one below it. *)
Definition loudFrame : list float := [FNum (1 # 2); FNum 0; FNum 0; FNum 0].
Definition quietFrame : list float := [FNum (1 # 100); FNum 0; FNum 0; FNum 0].


Arguments State T : clear implicits.
Arguments Effect T Txt : clear implicits.
Arguments Part T : clear implicits.
Arguments LiveServerMessage T : clear implicits.
Arguments Op T Txt : clear implicits.
Arguments M T Txt A : clear implicits.

End Session.

(** ** Acquiring and releasing the browser's resources *)

Module Connect.

Inductive ContextState : Type := Running | Closed.   (* AudioContext.state *)
Inductive TrackState : Type := Live | Ended.         (* MediaStreamTrack.readyState *)

(** The objects handed out by the browser and the SDK, each identified by
    its position in the list of its kind. *)
Record Browser : Type := mkBrowser {
  audioContexts : list ContextState;
  mediaStreams : list TrackState;
  liveSessions : list bool                (* open? *)
}.

Definition pristine : Browser := mkBrowser [] [] [].

(** How the outside answers a start. *)
Record Environment : Type := mkEnvironment {
  microphoneGranted : bool;     (* does getUserMedia resolve? *)
  handshakeSucceeds : bool      (* does ai.live.connect resolve? *)
}.

Inductive StartError : Type :=
| MicrophoneRejected      (* the rejection of getUserMedia *)
| HandshakeRejected.      (* the rejection of ai.live.connect *)

(** [new AudioContext(...)] *)
Definition newAudioContext (b : Browser) : nat * Browser :=
  (length (audioContexts b),
   mkBrowser (audioContexts b ++ [Running]) (mediaStreams b) (liveSessions b)).

(** [await navigator.mediaDevices.getUserMedia({ audio: true })] *)
Definition getUserMedia (env : Environment) (b : Browser)
  : (StartError + nat) * Browser :=
  if microphoneGranted env
  then (inr (length (mediaStreams b)),
        mkBrowser (audioContexts b) (mediaStreams b ++ [Live]) (liveSessions b))
  else (inl MicrophoneRejected, b).

(** [await ai.live.connect(...)] *)
Definition liveConnect (env : Environment) (b : Browser)
  : (StartError + nat) * Browser :=
  if handshakeSucceeds env
  then (inr (length (liveSessions b)),
        mkBrowser (audioContexts b) (mediaStreams b) (liveSessions b ++ [true]))
  else (inl HandshakeRejected, b).

(** [ctx.close()] guarded by [ctx.state !== "closed"] *)
Definition closeIfOpen (ctx : nat) (b : Browser) : Browser :=
  match audioContexts b !! ctx with
  | Some Running =>
      mkBrowser (<[ctx := Closed]> (audioContexts b)) (mediaStreams b) (liveSessions b)
  | _ => b
  end.

(** [stream.getTracks().forEach(t => t.stop())] *)
Definition stopTracks (stream : nat) (b : Browser) : Browser :=
  mkBrowser (audioContexts b) (<[stream := Ended]> (mediaStreams b)) (liveSessions b).

(** Nothing is left running, live or open. *)
Definition released (b : Browser) : bool :=
  forallb (fun c => match c with Closed => true | Running => false end)
          (audioContexts b)
  && forallb (fun t => match t with Ended => true | Live => false end)
             (mediaStreams b)
  && forallb negb (liveSessions b).

(** *** [startGeminiVoice] (services/geminiRealtime.ts), steps 2, 3 and
    "Wait for session" *)
Module GeminiVoice.

Record Handle : Type := mkHandle {
  audioContext : nat;
  inputAudioContext : nat;
  stream : nat;
  session : nat
}.

(** The function has no try/catch: a rejected [await] leaves it at once. *)
Definition startGeminiVoice (env : Environment) (b : Browser)
  : (StartError + Handle) * Browser :=
  let '(audioContext, b) := newAudioContext b in
  let '(inputAudioContext, b) := newAudioContext b in
  match getUserMedia env b with
  | (inl e, b) => (inl e, b)
  | (inr stream, b) =>
      match liveConnect env b with
      | (inl e, b) => (inl e, b)
      | (inr session, b) =>
          (inr (mkHandle audioContext inputAudioContext stream session), b)
      end
  end.

(** The [try]/[catch] of [startVoiceTutor] (contexts/TutorContext.tsx), the
    only caller: the error is logged, [stopVoiceTutor()] runs with
    [realtimeRef.current] still null, so that no handle's [stop] is called,
    and the function returns normally. *)
Definition startVoiceTutor (env : Environment) (b : Browser)
  : option Handle * Browser :=
  match startGeminiVoice env b with
  | (inr handle, b) => (Some handle, b)
  | (inl _, b) => (None, b)
  end.

End GeminiVoice.

(** *** [LiveClient.connect] and [LiveClient.disconnect] (services/live.ts) *)
Module LiveClient.

(** The nullable fields of the client. *)
Record Client : Type := mkClient {
  audioContext : option nat;
  inputAudioContext : option nat;
  stream : option nat;
  sessionPromise : bool           (* non-null? *)
}.

Definition created : Client := mkClient None None None false.

Definition disconnect (c : Client) (b : Browser) : Client * Browser :=
  (* this.sessionPromise = null *)
  let c := mkClient (audioContext c) (inputAudioContext c) (stream c) false in
  (* if (this.stream) { stop the tracks; this.stream = null } *)
  let '(c, b) :=
    match stream c with
    | Some s => (mkClient (audioContext c) (inputAudioContext c) None false,
                 stopTracks s b)
    | None => (c, b)
    end in
  (* close the playback context unless closed; this.audioContext = null *)
  let b := match audioContext c with Some a => closeIfOpen a b | None => b end in
  let c := mkClient None (inputAudioContext c) (stream c) false in
  (* the same for the capture context *)
  let b := match inputAudioContext c with Some a => closeIfOpen a b | None => b end in
  let c := mkClient None None (stream c) false in
  (c, b).

(** [connect]: the body of the [try], and on a rejection the [catch]:
    [this.disconnect(); throw e]. *)
Definition connect (env : Environment) (c : Client) (b : Browser)
  : option StartError * Client * Browser :=
  let '(playback, b) := newAudioContext b in
  let c := mkClient (Some playback) (inputAudioContext c) (stream c) (sessionPromise c) in
  let '(capture, b) := newAudioContext b in
  let c := mkClient (audioContext c) (Some capture) (stream c) (sessionPromise c) in
  match getUserMedia env b with
  | (inl e, b) =>
      let '(c, b) := disconnect c b in (Some e, c, b)
  | (inr s, b) =>
      let c := mkClient (audioContext c) (inputAudioContext c) (Some s) true in
      match liveConnect env b with
      | (inl e, b) =>
          let '(c, b) := disconnect c b in (Some e, c, b)
      | (inr _, b) => (None, c, b)
      end
  end.

End LiveClient.

End Connect.

(** ** The lecture state machine: [AutoTutorProvider] over [TutorProvider] *)

Module AutoTutor.

Inductive TutorState : Type :=
| idle
| auto_explaining
| paused_for_question
| answering
| research_mode
| visual_explaining
| waiting_to_resume
| finished.

#[export] Instance TutorState_eq_dec : EqDecision TutorState.
Proof. solve_decision. Defined.

Record SlideData : Type := mkSlide {
  id : Z;
  title : string;
  bullet_points : list string;
  script : string
}.

(** The result of [detectQuestionType]. *)
Inductive QuestionType : Type :=
| slide_related | general_concept | external | visual_request.

(** The texts [sendTextToTutor] is called with.  Each is a template literal
    of the source; a constructor carries what the template is filled with. *)
Inductive Prompt : Type :=
| SlideContent (index total : nat) (slide : SlideData)
    (* "SLIDE ${index + 1} of ${slides.length} ... Now explain this slide ..." *)
| ResearchFindings (teacherScript : string)
    (* "Let me share what I found about the student's question. ..." *)
| VisualPleaseWait
    (* 'Say exactly: "Please wait for a moment. ..." and wait ...' *)
| VisualReady (isVideo : bool) (recentText slideTitle : string)
    (* "The video|diagram is ready ... regarding "${visualPrompt}" ..." where
       visualPrompt is made from recentText, or is the slide's title *)
| VisualTrouble.
    (* "I had trouble generating that visual. Let me explain it verbally instead." *)

Record ResearchPanelData : Type := mkResearchPanelData {
  question : string;
  isLoading : bool
}.

Record VisualOverlayState : Type := mkVisualOverlay {
  url : option string;
  overlayIsVideo : bool;       (* type: 'video' | 'image' *)
  isGenerating : bool
}.

(** The bodies passed to [setTimeout], with what their closures captured. *)
Inductive TimerCallback : Type :=
| AdvanceSlide (nextIndex : nat)       (* handleTurnComplete, 1500 ms *)
| CloseVisual                          (* handleTurnComplete, 1000 ms *)
| SettleIntoAnswering                  (* handleUserSpeechDetected, 2000 ms *)
| ResumeLecture                        (* resume command detection, 1000 ms *)
| ClassifyQuestion (subtitles : string) (* question classification, 3000 ms *)
| ExplainSlide.                        (* startAutoExplain, 500 ms or 1000 ms *)

Record Timer : Type := mkTimer {
  handle : nat;
  delay : Z;
  callback : TimerCallback
}.

(** Async functions suspended at an [await], with what resumes them. *)
Inductive Pending : Type :=
| AwaitVoice (fromLecture : bool)
    (* startVoiceTutor at [await startGeminiVoice]; [fromLecture]:
       startAutoExplain is in turn at [await startVoiceTutor] *)
| AwaitQuestionType (recentText : string) (currentSlide : SlideData)
| AwaitResearch (recentText : string)
| AwaitVisual (isVideo : bool) (recentText : string) (currentSlide : SlideData).

(** How an awaited operation ends. *)
Inductive Outcome : Type :=
| VoiceStarted                                 (* startGeminiVoice resolved *)
| Rejected                                     (* the awaited promise rejected *)
| QuestionTypeIs (questionType : QuestionType)
| ResearchSummarized (teacherScript : string)
| VisualGenerated (url : option string).

(** *** Strings, as far as the handlers look into them (ASCII) *)

Definition lowerAscii (c : ascii) : ascii :=
  let n := nat_of_ascii c in
  if (65 <=? n)%nat && (n <=? 90)%nat then ascii_of_nat (n + 32) else c.

Fixpoint toLowerCase (s : string) : string :=
  match s with
  | EmptyString => EmptyString
  | String c rest => String (lowerAscii c) (toLowerCase rest)
  end.

Definition includes (haystack needle : string) : bool :=
  match String.index 0 needle haystack with
  | Some _ => true
  | None => false
  end.

(** [s.slice(-n)] *)
Definition sliceLast (n : nat) (s : string) : string :=
  String.substring (String.length s - n) n s.

Definition isWhiteSpace (c : ascii) : bool :=
  let n := nat_of_ascii c in
  (n =? 32)%nat || ((9 <=? n)%nat && (n <=? 13)%nat).

(** [!s.trim()] is false *)
Fixpoint hasVisibleText (s : string) : bool :=
  match s with
  | EmptyString => false
  | String c rest => negb (isWhiteSpace c) || hasVisibleText rest
  end.

Definition resumeKeywords : list string :=
  ["continue"; "next"; "ok"; "go on"; "resume"; "keep going"]%string.

(** [resumeKeywords.some(kw => lower.includes(kw)) && subtitlesText.length > 5] *)
Definition saysResume (subtitles : string) : bool :=
  existsb (includes (toLowerCase subtitles)) resumeKeywords
  && (5 <? String.length subtitles)%nat.

Definition wantsVideo (recentText : string) : bool :=
  let textLower := toLowerCase recentText in
  includes textLower "video" || includes textLower "animation"
  || includes textLower "movie".

(** A deck of two slides, for the examples. *)
Definition slideOne : SlideData :=
  mkSlide 1 "Cells" ["membrane"; "nucleus"]%string "A cell is the unit of life.".
Definition slideTwo : SlideData :=
  mkSlide 2 "Tissues" ["epithelium"]%string "Cells group into tissues.".
Definition twoSlides : list SlideData := [slideOne; slideTwo].

Section WithTimeLine.
Context {T : Type} `{TimeLine T}.

(** Everything the two providers hold, and the runtime around them: the
    pending timers, the suspended async functions, the values of the last
    render, and a log of what the session did. *)
Record Tutor : Type := mkTutor {
  tutorState : TutorState;   (* useState of AutoTutorProvider *)
  isAutoMode : bool;
  currentSlideIndex : nat;
  isUserSpeaking : bool;
  researchPanelData : option ResearchPanelData;
  showResearchPanel : bool;
  visualOverlay : option VisualOverlayState;
  showVisualOverlay : bool;
  slidesRef : list SlideData;   (* useRef of AutoTutorProvider *)
  stateRef : TutorState;
  currentSlideIndexRef : nat;
  isAutoModeRef : bool;
  pendingSlideExplainRef : bool;
  advanceTimerRef : option nat;
  researchTimerRef : option nat;
  isVisualGeneratingRef : bool;
  callbacksRegistered : bool;   (* onTurnComplete.current etc. are handlers, not null *)
  realtimeRef : option (Session.State T);   (* TutorProvider *)
  isVoiceConnected : bool;
  isRecording : bool;
  isConnecting : bool;
  subtitlesText : string;
  isTutorSpeaking : bool;
  isMicMuted : bool;
  timers : list Timer;   (* pending setTimeout calls, oldest first *)
  timersCreated : nat;
  inFlight : list Pending;   (* suspended async functions *)
  renderedSubtitlesText : string;   (* values of the last render, for effect dependencies *)
  renderedVoiceConnected : bool;
  outputs : list (Session.Effect T Prompt)   (* what the session did to the outside, oldest first *)
}.

Definition set_tutorState (v : TutorState) (t : Tutor) : Tutor :=
  mkTutor v (isAutoMode t) (currentSlideIndex t) (isUserSpeaking t)
    (researchPanelData t) (showResearchPanel t) (visualOverlay t)
    (showVisualOverlay t) (slidesRef t) (stateRef t) (currentSlideIndexRef t)
    (isAutoModeRef t) (pendingSlideExplainRef t) (advanceTimerRef t)
    (researchTimerRef t) (isVisualGeneratingRef t) (callbacksRegistered t)
    (realtimeRef t) (isVoiceConnected t) (isRecording t) (isConnecting t)
    (subtitlesText t) (isTutorSpeaking t) (isMicMuted t) (timers t)
    (timersCreated t) (inFlight t) (renderedSubtitlesText t)
    (renderedVoiceConnected t) (outputs t).
Definition set_isAutoMode (v : bool) (t : Tutor) : Tutor :=
  mkTutor (tutorState t) v (currentSlideIndex t) (isUserSpeaking t)
    (researchPanelData t) (showResearchPanel t) (visualOverlay t)
    (showVisualOverlay t) (slidesRef t) (stateRef t) (currentSlideIndexRef t)
    (isAutoModeRef t) (pendingSlideExplainRef t) (advanceTimerRef t)
    (researchTimerRef t) (isVisualGeneratingRef t) (callbacksRegistered t)
    (realtimeRef t) (isVoiceConnected t) (isRecording t) (isConnecting t)
    (subtitlesText t) (isTutorSpeaking t) (isMicMuted t) (timers t)
    (timersCreated t) (inFlight t) (renderedSubtitlesText t)
    (renderedVoiceConnected t) (outputs t).
Definition set_currentSlideIndex (v : nat) (t : Tutor) : Tutor :=
  mkTutor (tutorState t) (isAutoMode t) v (isUserSpeaking t)
    (researchPanelData t) (showResearchPanel t) (visualOverlay t)
    (showVisualOverlay t) (slidesRef t) (stateRef t) (currentSlideIndexRef t)
    (isAutoModeRef t) (pendingSlideExplainRef t) (advanceTimerRef t)
    (researchTimerRef t) (isVisualGeneratingRef t) (callbacksRegistered t)
    (realtimeRef t) (isVoiceConnected t) (isRecording t) (isConnecting t)
    (subtitlesText t) (isTutorSpeaking t) (isMicMuted t) (timers t)
    (timersCreated t) (inFlight t) (renderedSubtitlesText t)
    (renderedVoiceConnected t) (outputs t).
Definition set_isUserSpeaking (v : bool) (t : Tutor) : Tutor :=
  mkTutor (tutorState t) (isAutoMode t) (currentSlideIndex t) v
    (researchPanelData t) (showResearchPanel t) (visualOverlay t)
    (showVisualOverlay t) (slidesRef t) (stateRef t) (currentSlideIndexRef t)
    (isAutoModeRef t) (pendingSlideExplainRef t) (advanceTimerRef t)
    (researchTimerRef t) (isVisualGeneratingRef t) (callbacksRegistered t)
    (realtimeRef t) (isVoiceConnected t) (isRecording t) (isConnecting t)
    (subtitlesText t) (isTutorSpeaking t) (isMicMuted t) (timers t)
    (timersCreated t) (inFlight t) (renderedSubtitlesText t)
    (renderedVoiceConnected t) (outputs t).
Definition set_researchPanelData (v : option ResearchPanelData) (t : Tutor) : Tutor :=
  mkTutor (tutorState t) (isAutoMode t) (currentSlideIndex t)
    (isUserSpeaking t) v (showResearchPanel t) (visualOverlay t)
    (showVisualOverlay t) (slidesRef t) (stateRef t) (currentSlideIndexRef t)
    (isAutoModeRef t) (pendingSlideExplainRef t) (advanceTimerRef t)
    (researchTimerRef t) (isVisualGeneratingRef t) (callbacksRegistered t)
    (realtimeRef t) (isVoiceConnected t) (isRecording t) (isConnecting t)
    (subtitlesText t) (isTutorSpeaking t) (isMicMuted t) (timers t)
    (timersCreated t) (inFlight t) (renderedSubtitlesText t)
    (renderedVoiceConnected t) (outputs t).
Definition set_showResearchPanel (v : bool) (t : Tutor) : Tutor :=
  mkTutor (tutorState t) (isAutoMode t) (currentSlideIndex t)
    (isUserSpeaking t) (researchPanelData t) v (visualOverlay t)
    (showVisualOverlay t) (slidesRef t) (stateRef t) (currentSlideIndexRef t)
    (isAutoModeRef t) (pendingSlideExplainRef t) (advanceTimerRef t)
    (researchTimerRef t) (isVisualGeneratingRef t) (callbacksRegistered t)
    (realtimeRef t) (isVoiceConnected t) (isRecording t) (isConnecting t)
    (subtitlesText t) (isTutorSpeaking t) (isMicMuted t) (timers t)
    (timersCreated t) (inFlight t) (renderedSubtitlesText t)
    (renderedVoiceConnected t) (outputs t).
Definition set_visualOverlay (v : option VisualOverlayState) (t : Tutor) : Tutor :=
  mkTutor (tutorState t) (isAutoMode t) (currentSlideIndex t)
    (isUserSpeaking t) (researchPanelData t) (showResearchPanel t) v
    (showVisualOverlay t) (slidesRef t) (stateRef t) (currentSlideIndexRef t)
    (isAutoModeRef t) (pendingSlideExplainRef t) (advanceTimerRef t)
    (researchTimerRef t) (isVisualGeneratingRef t) (callbacksRegistered t)
    (realtimeRef t) (isVoiceConnected t) (isRecording t) (isConnecting t)
    (subtitlesText t) (isTutorSpeaking t) (isMicMuted t) (timers t)
    (timersCreated t) (inFlight t) (renderedSubtitlesText t)
    (renderedVoiceConnected t) (outputs t).
Definition set_showVisualOverlay (v : bool) (t : Tutor) : Tutor :=
  mkTutor (tutorState t) (isAutoMode t) (currentSlideIndex t)
    (isUserSpeaking t) (researchPanelData t) (showResearchPanel t)
    (visualOverlay t) v (slidesRef t) (stateRef t) (currentSlideIndexRef t)
    (isAutoModeRef t) (pendingSlideExplainRef t) (advanceTimerRef t)
    (researchTimerRef t) (isVisualGeneratingRef t) (callbacksRegistered t)
    (realtimeRef t) (isVoiceConnected t) (isRecording t) (isConnecting t)
    (subtitlesText t) (isTutorSpeaking t) (isMicMuted t) (timers t)
    (timersCreated t) (inFlight t) (renderedSubtitlesText t)
    (renderedVoiceConnected t) (outputs t).
Definition set_slidesRef (v : list SlideData) (t : Tutor) : Tutor :=
  mkTutor (tutorState t) (isAutoMode t) (currentSlideIndex t)
    (isUserSpeaking t) (researchPanelData t) (showResearchPanel t)
    (visualOverlay t) (showVisualOverlay t) v (stateRef t)
    (currentSlideIndexRef t) (isAutoModeRef t) (pendingSlideExplainRef t)
    (advanceTimerRef t) (researchTimerRef t) (isVisualGeneratingRef t)
    (callbacksRegistered t) (realtimeRef t) (isVoiceConnected t)
    (isRecording t) (isConnecting t) (subtitlesText t) (isTutorSpeaking t)
    (isMicMuted t) (timers t) (timersCreated t) (inFlight t)
    (renderedSubtitlesText t) (renderedVoiceConnected t) (outputs t).
Definition set_stateRef (v : TutorState) (t : Tutor) : Tutor :=
  mkTutor (tutorState t) (isAutoMode t) (currentSlideIndex t)
    (isUserSpeaking t) (researchPanelData t) (showResearchPanel t)
    (visualOverlay t) (showVisualOverlay t) (slidesRef t) v
    (currentSlideIndexRef t) (isAutoModeRef t) (pendingSlideExplainRef t)
    (advanceTimerRef t) (researchTimerRef t) (isVisualGeneratingRef t)
    (callbacksRegistered t) (realtimeRef t) (isVoiceConnected t)
    (isRecording t) (isConnecting t) (subtitlesText t) (isTutorSpeaking t)
    (isMicMuted t) (timers t) (timersCreated t) (inFlight t)
    (renderedSubtitlesText t) (renderedVoiceConnected t) (outputs t).
Definition set_currentSlideIndexRef (v : nat) (t : Tutor) : Tutor :=
  mkTutor (tutorState t) (isAutoMode t) (currentSlideIndex t)
    (isUserSpeaking t) (researchPanelData t) (showResearchPanel t)
    (visualOverlay t) (showVisualOverlay t) (slidesRef t) (stateRef t) v
    (isAutoModeRef t) (pendingSlideExplainRef t) (advanceTimerRef t)
    (researchTimerRef t) (isVisualGeneratingRef t) (callbacksRegistered t)
    (realtimeRef t) (isVoiceConnected t) (isRecording t) (isConnecting t)
    (subtitlesText t) (isTutorSpeaking t) (isMicMuted t) (timers t)
    (timersCreated t) (inFlight t) (renderedSubtitlesText t)
    (renderedVoiceConnected t) (outputs t).
Definition set_isAutoModeRef (v : bool) (t : Tutor) : Tutor :=
  mkTutor (tutorState t) (isAutoMode t) (currentSlideIndex t)
    (isUserSpeaking t) (researchPanelData t) (showResearchPanel t)
    (visualOverlay t) (showVisualOverlay t) (slidesRef t) (stateRef t)
    (currentSlideIndexRef t) v (pendingSlideExplainRef t) (advanceTimerRef t)
    (researchTimerRef t) (isVisualGeneratingRef t) (callbacksRegistered t)
    (realtimeRef t) (isVoiceConnected t) (isRecording t) (isConnecting t)
    (subtitlesText t) (isTutorSpeaking t) (isMicMuted t) (timers t)
    (timersCreated t) (inFlight t) (renderedSubtitlesText t)
    (renderedVoiceConnected t) (outputs t).
Definition set_pendingSlideExplainRef (v : bool) (t : Tutor) : Tutor :=
  mkTutor (tutorState t) (isAutoMode t) (currentSlideIndex t)
    (isUserSpeaking t) (researchPanelData t) (showResearchPanel t)
    (visualOverlay t) (showVisualOverlay t) (slidesRef t) (stateRef t)
    (currentSlideIndexRef t) (isAutoModeRef t) v (advanceTimerRef t)
    (researchTimerRef t) (isVisualGeneratingRef t) (callbacksRegistered t)
    (realtimeRef t) (isVoiceConnected t) (isRecording t) (isConnecting t)
    (subtitlesText t) (isTutorSpeaking t) (isMicMuted t) (timers t)
    (timersCreated t) (inFlight t) (renderedSubtitlesText t)
    (renderedVoiceConnected t) (outputs t).
Definition set_advanceTimerRef (v : option nat) (t : Tutor) : Tutor :=
  mkTutor (tutorState t) (isAutoMode t) (currentSlideIndex t)
    (isUserSpeaking t) (researchPanelData t) (showResearchPanel t)
    (visualOverlay t) (showVisualOverlay t) (slidesRef t) (stateRef t)
    (currentSlideIndexRef t) (isAutoModeRef t) (pendingSlideExplainRef t) v
    (researchTimerRef t) (isVisualGeneratingRef t) (callbacksRegistered t)
    (realtimeRef t) (isVoiceConnected t) (isRecording t) (isConnecting t)
    (subtitlesText t) (isTutorSpeaking t) (isMicMuted t) (timers t)
    (timersCreated t) (inFlight t) (renderedSubtitlesText t)
    (renderedVoiceConnected t) (outputs t).
Definition set_researchTimerRef (v : option nat) (t : Tutor) : Tutor :=
  mkTutor (tutorState t) (isAutoMode t) (currentSlideIndex t)
    (isUserSpeaking t) (researchPanelData t) (showResearchPanel t)
    (visualOverlay t) (showVisualOverlay t) (slidesRef t) (stateRef t)
    (currentSlideIndexRef t) (isAutoModeRef t) (pendingSlideExplainRef t)
    (advanceTimerRef t) v (isVisualGeneratingRef t) (callbacksRegistered t)
    (realtimeRef t) (isVoiceConnected t) (isRecording t) (isConnecting t)
    (subtitlesText t) (isTutorSpeaking t) (isMicMuted t) (timers t)
    (timersCreated t) (inFlight t) (renderedSubtitlesText t)
    (renderedVoiceConnected t) (outputs t).
Definition set_isVisualGeneratingRef (v : bool) (t : Tutor) : Tutor :=
  mkTutor (tutorState t) (isAutoMode t) (currentSlideIndex t)
    (isUserSpeaking t) (researchPanelData t) (showResearchPanel t)
    (visualOverlay t) (showVisualOverlay t) (slidesRef t) (stateRef t)
    (currentSlideIndexRef t) (isAutoModeRef t) (pendingSlideExplainRef t)
    (advanceTimerRef t) (researchTimerRef t) v (callbacksRegistered t)
    (realtimeRef t) (isVoiceConnected t) (isRecording t) (isConnecting t)
    (subtitlesText t) (isTutorSpeaking t) (isMicMuted t) (timers t)
    (timersCreated t) (inFlight t) (renderedSubtitlesText t)
    (renderedVoiceConnected t) (outputs t).
Definition set_callbacksRegistered (v : bool) (t : Tutor) : Tutor :=
  mkTutor (tutorState t) (isAutoMode t) (currentSlideIndex t)
    (isUserSpeaking t) (researchPanelData t) (showResearchPanel t)
    (visualOverlay t) (showVisualOverlay t) (slidesRef t) (stateRef t)
    (currentSlideIndexRef t) (isAutoModeRef t) (pendingSlideExplainRef t)
    (advanceTimerRef t) (researchTimerRef t) (isVisualGeneratingRef t) v
    (realtimeRef t) (isVoiceConnected t) (isRecording t) (isConnecting t)
    (subtitlesText t) (isTutorSpeaking t) (isMicMuted t) (timers t)
    (timersCreated t) (inFlight t) (renderedSubtitlesText t)
    (renderedVoiceConnected t) (outputs t).
Definition set_realtimeRef (v : option (Session.State T)) (t : Tutor) : Tutor :=
  mkTutor (tutorState t) (isAutoMode t) (currentSlideIndex t)
    (isUserSpeaking t) (researchPanelData t) (showResearchPanel t)
    (visualOverlay t) (showVisualOverlay t) (slidesRef t) (stateRef t)
    (currentSlideIndexRef t) (isAutoModeRef t) (pendingSlideExplainRef t)
    (advanceTimerRef t) (researchTimerRef t) (isVisualGeneratingRef t)
    (callbacksRegistered t) v (isVoiceConnected t) (isRecording t)
    (isConnecting t) (subtitlesText t) (isTutorSpeaking t) (isMicMuted t)
    (timers t) (timersCreated t) (inFlight t) (renderedSubtitlesText t)
    (renderedVoiceConnected t) (outputs t).
Definition set_isVoiceConnected (v : bool) (t : Tutor) : Tutor :=
  mkTutor (tutorState t) (isAutoMode t) (currentSlideIndex t)
    (isUserSpeaking t) (researchPanelData t) (showResearchPanel t)
    (visualOverlay t) (showVisualOverlay t) (slidesRef t) (stateRef t)
    (currentSlideIndexRef t) (isAutoModeRef t) (pendingSlideExplainRef t)
    (advanceTimerRef t) (researchTimerRef t) (isVisualGeneratingRef t)
    (callbacksRegistered t) (realtimeRef t) v (isRecording t) (isConnecting t)
    (subtitlesText t) (isTutorSpeaking t) (isMicMuted t) (timers t)
    (timersCreated t) (inFlight t) (renderedSubtitlesText t)
    (renderedVoiceConnected t) (outputs t).
Definition set_isRecording (v : bool) (t : Tutor) : Tutor :=
  mkTutor (tutorState t) (isAutoMode t) (currentSlideIndex t)
    (isUserSpeaking t) (researchPanelData t) (showResearchPanel t)
    (visualOverlay t) (showVisualOverlay t) (slidesRef t) (stateRef t)
    (currentSlideIndexRef t) (isAutoModeRef t) (pendingSlideExplainRef t)
    (advanceTimerRef t) (researchTimerRef t) (isVisualGeneratingRef t)
    (callbacksRegistered t) (realtimeRef t) (isVoiceConnected t) v
    (isConnecting t) (subtitlesText t) (isTutorSpeaking t) (isMicMuted t)
    (timers t) (timersCreated t) (inFlight t) (renderedSubtitlesText t)
    (renderedVoiceConnected t) (outputs t).
Definition set_isConnecting (v : bool) (t : Tutor) : Tutor :=
  mkTutor (tutorState t) (isAutoMode t) (currentSlideIndex t)
    (isUserSpeaking t) (researchPanelData t) (showResearchPanel t)
    (visualOverlay t) (showVisualOverlay t) (slidesRef t) (stateRef t)
    (currentSlideIndexRef t) (isAutoModeRef t) (pendingSlideExplainRef t)
    (advanceTimerRef t) (researchTimerRef t) (isVisualGeneratingRef t)
    (callbacksRegistered t) (realtimeRef t) (isVoiceConnected t)
    (isRecording t) v (subtitlesText t) (isTutorSpeaking t) (isMicMuted t)
    (timers t) (timersCreated t) (inFlight t) (renderedSubtitlesText t)
    (renderedVoiceConnected t) (outputs t).
Definition set_subtitlesText (v : string) (t : Tutor) : Tutor :=
  mkTutor (tutorState t) (isAutoMode t) (currentSlideIndex t)
    (isUserSpeaking t) (researchPanelData t) (showResearchPanel t)
    (visualOverlay t) (showVisualOverlay t) (slidesRef t) (stateRef t)
    (currentSlideIndexRef t) (isAutoModeRef t) (pendingSlideExplainRef t)
    (advanceTimerRef t) (researchTimerRef t) (isVisualGeneratingRef t)
    (callbacksRegistered t) (realtimeRef t) (isVoiceConnected t)
    (isRecording t) (isConnecting t) v (isTutorSpeaking t) (isMicMuted t)
    (timers t) (timersCreated t) (inFlight t) (renderedSubtitlesText t)
    (renderedVoiceConnected t) (outputs t).
Definition set_isTutorSpeaking (v : bool) (t : Tutor) : Tutor :=
  mkTutor (tutorState t) (isAutoMode t) (currentSlideIndex t)
    (isUserSpeaking t) (researchPanelData t) (showResearchPanel t)
    (visualOverlay t) (showVisualOverlay t) (slidesRef t) (stateRef t)
    (currentSlideIndexRef t) (isAutoModeRef t) (pendingSlideExplainRef t)
    (advanceTimerRef t) (researchTimerRef t) (isVisualGeneratingRef t)
    (callbacksRegistered t) (realtimeRef t) (isVoiceConnected t)
    (isRecording t) (isConnecting t) (subtitlesText t) v (isMicMuted t)
    (timers t) (timersCreated t) (inFlight t) (renderedSubtitlesText t)
    (renderedVoiceConnected t) (outputs t).
Definition set_isMicMuted (v : bool) (t : Tutor) : Tutor :=
  mkTutor (tutorState t) (isAutoMode t) (currentSlideIndex t)
    (isUserSpeaking t) (researchPanelData t) (showResearchPanel t)
    (visualOverlay t) (showVisualOverlay t) (slidesRef t) (stateRef t)
    (currentSlideIndexRef t) (isAutoModeRef t) (pendingSlideExplainRef t)
    (advanceTimerRef t) (researchTimerRef t) (isVisualGeneratingRef t)
    (callbacksRegistered t) (realtimeRef t) (isVoiceConnected t)
    (isRecording t) (isConnecting t) (subtitlesText t) (isTutorSpeaking t) v
    (timers t) (timersCreated t) (inFlight t) (renderedSubtitlesText t)
    (renderedVoiceConnected t) (outputs t).
Definition set_timers (v : list Timer) (t : Tutor) : Tutor :=
  mkTutor (tutorState t) (isAutoMode t) (currentSlideIndex t)
    (isUserSpeaking t) (researchPanelData t) (showResearchPanel t)
    (visualOverlay t) (showVisualOverlay t) (slidesRef t) (stateRef t)
    (currentSlideIndexRef t) (isAutoModeRef t) (pendingSlideExplainRef t)
    (advanceTimerRef t) (researchTimerRef t) (isVisualGeneratingRef t)
    (callbacksRegistered t) (realtimeRef t) (isVoiceConnected t)
    (isRecording t) (isConnecting t) (subtitlesText t) (isTutorSpeaking t)
    (isMicMuted t) v (timersCreated t) (inFlight t) (renderedSubtitlesText t)
    (renderedVoiceConnected t) (outputs t).
Definition set_timersCreated (v : nat) (t : Tutor) : Tutor :=
  mkTutor (tutorState t) (isAutoMode t) (currentSlideIndex t)
    (isUserSpeaking t) (researchPanelData t) (showResearchPanel t)
    (visualOverlay t) (showVisualOverlay t) (slidesRef t) (stateRef t)
    (currentSlideIndexRef t) (isAutoModeRef t) (pendingSlideExplainRef t)
    (advanceTimerRef t) (researchTimerRef t) (isVisualGeneratingRef t)
    (callbacksRegistered t) (realtimeRef t) (isVoiceConnected t)
    (isRecording t) (isConnecting t) (subtitlesText t) (isTutorSpeaking t)
    (isMicMuted t) (timers t) v (inFlight t) (renderedSubtitlesText t)
    (renderedVoiceConnected t) (outputs t).
Definition set_inFlight (v : list Pending) (t : Tutor) : Tutor :=
  mkTutor (tutorState t) (isAutoMode t) (currentSlideIndex t)
    (isUserSpeaking t) (researchPanelData t) (showResearchPanel t)
    (visualOverlay t) (showVisualOverlay t) (slidesRef t) (stateRef t)
    (currentSlideIndexRef t) (isAutoModeRef t) (pendingSlideExplainRef t)
    (advanceTimerRef t) (researchTimerRef t) (isVisualGeneratingRef t)
    (callbacksRegistered t) (realtimeRef t) (isVoiceConnected t)
    (isRecording t) (isConnecting t) (subtitlesText t) (isTutorSpeaking t)
    (isMicMuted t) (timers t) (timersCreated t) v (renderedSubtitlesText t)
    (renderedVoiceConnected t) (outputs t).
Definition set_renderedSubtitlesText (v : string) (t : Tutor) : Tutor :=
  mkTutor (tutorState t) (isAutoMode t) (currentSlideIndex t)
    (isUserSpeaking t) (researchPanelData t) (showResearchPanel t)
    (visualOverlay t) (showVisualOverlay t) (slidesRef t) (stateRef t)
    (currentSlideIndexRef t) (isAutoModeRef t) (pendingSlideExplainRef t)
    (advanceTimerRef t) (researchTimerRef t) (isVisualGeneratingRef t)
    (callbacksRegistered t) (realtimeRef t) (isVoiceConnected t)
    (isRecording t) (isConnecting t) (subtitlesText t) (isTutorSpeaking t)
    (isMicMuted t) (timers t) (timersCreated t) (inFlight t) v
    (renderedVoiceConnected t) (outputs t).
Definition set_renderedVoiceConnected (v : bool) (t : Tutor) : Tutor :=
  mkTutor (tutorState t) (isAutoMode t) (currentSlideIndex t)
    (isUserSpeaking t) (researchPanelData t) (showResearchPanel t)
    (visualOverlay t) (showVisualOverlay t) (slidesRef t) (stateRef t)
    (currentSlideIndexRef t) (isAutoModeRef t) (pendingSlideExplainRef t)
    (advanceTimerRef t) (researchTimerRef t) (isVisualGeneratingRef t)
    (callbacksRegistered t) (realtimeRef t) (isVoiceConnected t)
    (isRecording t) (isConnecting t) (subtitlesText t) (isTutorSpeaking t)
    (isMicMuted t) (timers t) (timersCreated t) (inFlight t)
    (renderedSubtitlesText t) v (outputs t).
Definition set_outputs (v : list (Session.Effect T Prompt)) (t : Tutor) : Tutor :=
  mkTutor (tutorState t) (isAutoMode t) (currentSlideIndex t)
    (isUserSpeaking t) (researchPanelData t) (showResearchPanel t)
    (visualOverlay t) (showVisualOverlay t) (slidesRef t) (stateRef t)
    (currentSlideIndexRef t) (isAutoModeRef t) (pendingSlideExplainRef t)
    (advanceTimerRef t) (researchTimerRef t) (isVisualGeneratingRef t)
    (callbacksRegistered t) (realtimeRef t) (isVoiceConnected t)
    (isRecording t) (isConnecting t) (subtitlesText t) (isTutorSpeaking t)
    (isMicMuted t) (timers t) (timersCreated t) (inFlight t)
    (renderedSubtitlesText t) (renderedVoiceConnected t) v.

Definition initial : Tutor :=
  mkTutor idle false 0 false None false None false
          [] idle 0 false false None None false false
          None false false false EmptyString false false
          [] 0 [] EmptyString false [].

(** Statements run one after the other. *)
Definition block (statements : list (Tutor -> Tutor)) (t : Tutor) : Tutor :=
  foldl (fun t statement => statement t) t statements.

(** *** Timers *)

(** [setTimeout(callback, delay)]; handles are the positive integers. *)
Definition setTimeout (cb : TimerCallback) (ms : Z) (t : Tutor) : nat * Tutor :=
  let h := S (timersCreated t) in
  (h, set_timersCreated h (set_timers (timers t ++ [mkTimer h ms cb]) t)).

Definition clearTimeout (h : nat) (t : Tutor) : Tutor :=
  set_timers (filter (fun tm => handle tm <> h) (timers t)) t.

(** [if (ref.current) clearTimeout(ref.current)] *)
Definition clearTimeoutOf (ref : Tutor -> option nat) (t : Tutor) : Tutor :=
  match ref t with
  | Some h => clearTimeout h t
  | None => t
  end.

(** *** [TutorProvider] *)

(** What the callbacks given to [startGeminiVoice] do inside
    [TutorProvider]; the forwarding of three of them to [AutoTutorProvider]
    is [forward] below. *)
Definition contextCallback (cb : Session.Callback) (t : Tutor) : Tutor :=
  match cb with
  | Session.onOpen =>
      block [set_isVoiceConnected true; set_isRecording true;
             set_isConnecting false] t
  | Session.onClose | Session.onError =>
      block [set_isVoiceConnected false; set_isRecording false;
             set_isConnecting false; set_isTutorSpeaking false] t
  | Session.onText text =>
      set_subtitlesText (subtitlesText t ++ text)%string t
  | Session.onTurnComplete => t
  | Session.onInterrupted => set_isTutorSpeaking false t
  | Session.onSpeakingStart => set_isTutorSpeaking true t
  | Session.onSpeakingStop => set_isTutorSpeaking false t
  | Session.onUserActivity => t
  end.

Definition record (e : Session.Effect T Prompt) (t : Tutor) : Tutor :=
  set_outputs (outputs t ++ [e]) t.

Definition noteEffect (e : Session.Effect T Prompt) (t : Tutor) : Tutor :=
  match e with
  | Session.Call cb _ => contextCallback cb (record e t)
  | _ => record e t
  end.

(** [realtimeRef.current?.method()]: a method of the handle, if there is
    one.  The methods called this way (clearAudio, stop, sendText, muteMic,
    unmuteMic) raise no callback other than onSpeakingStop. *)
Definition onHandle (method : Session.M T Prompt unit) (t : Tutor) : Tutor :=
  match realtimeRef t with
  | Some session =>
      let '(session', log) := Session.exec method session in
      foldl (fun t e => noteEffect e t) (set_realtimeRef (Some session') t) log
  | None => t
  end.

Definition stopVoiceTutor : Tutor -> Tutor :=
  block [onHandle Session.stop;
         set_realtimeRef None;
         set_isVoiceConnected false;
         set_isRecording false;
         set_isConnecting false;
         set_subtitlesText EmptyString;
         set_isMicMuted false;
         set_isTutorSpeaking false].

Definition stopAudioPlayback : Tutor -> Tutor :=
  block [onHandle Session.clearAudio; set_isTutorSpeaking false].

Definition sendTextToTutor (text : Prompt) (t : Tutor) : Tutor :=
  match realtimeRef t with
  | Some _ =>
      block [set_subtitlesText EmptyString; onHandle (Session.sendText text)] t
  | None => t                (* "called but no active session" is logged *)
  end.

Definition muteMic : Tutor -> Tutor :=
  block [onHandle Session.muteMic; set_isMicMuted true].

Definition unmuteMic : Tutor -> Tutor :=
  block [onHandle Session.unmuteMic; set_isMicMuted false].

Definition clearSubtitles : Tutor -> Tutor := set_subtitlesText EmptyString.

(** [startVoiceTutor] up to [await startGeminiVoice(...)].  The result
    tells whether the function is now suspended there ([true]) or has
    returned at the "Already recording or connecting" guard. *)
Definition startVoiceTutor (fromLecture : bool) (t : Tutor) : bool * Tutor :=
  if isRecording t || isConnecting t then (false, t)
  else (true,
        block [set_isConnecting true;
               set_subtitlesText EmptyString;
               fun t => set_inFlight (inFlight t ++ [AwaitVoice fromLecture]) t] t).

(** *** [AutoTutorProvider] *)

Definition explainCurrentSlide (t : Tutor) : Tutor :=
  let slides := slidesRef t in
  let index := currentSlideIndexRef t in
  match slides !! index with
  | None => set_tutorState finished t           (* index >= slides.length *)
  | Some slide =>
      block [set_tutorState auto_explaining;
             clearSubtitles;
             sendTextToTutor (SlideContent index (length slides) slide)] t
  end.

Definition handleTurnComplete (t : Tutor) : Tutor :=
  match stateRef t with
  | auto_explaining =>
      let nextIndex := (currentSlideIndexRef t + 1)%nat in
      if (length (slidesRef t) <=? nextIndex)%nat then set_tutorState finished t
      else
        let t := clearTimeoutOf advanceTimerRef t in
        let '(h, t) := setTimeout (AdvanceSlide nextIndex) 1500 t in
        set_advanceTimerRef (Some h) t
  | answering | paused_for_question => set_tutorState waiting_to_resume t
  | research_mode => set_tutorState waiting_to_resume t
  | visual_explaining =>
      if isVisualGeneratingRef t then t
      else snd (setTimeout CloseVisual 1000 t)
  | _ => t
  end.

Definition handleUserSpeechDetected (t : Tutor) : Tutor :=
  match stateRef t with
  | auto_explaining =>
      block [fun t => match advanceTimerRef t with
                      | Some h => set_advanceTimerRef None (clearTimeout h t)
                      | None => t
                      end;
             set_isUserSpeaking true;
             stopAudioPlayback;
             set_tutorState paused_for_question;
             fun t => snd (setTimeout SettleIntoAnswering 2000 t)] t
  | _ => t
  end.

(** [onTurnCompleteRef.current?.()] and its two siblings. *)
Definition forward (cb : Session.Callback) (t : Tutor) : Tutor :=
  if callbacksRegistered t then
    match cb with
    | Session.onTurnComplete => handleTurnComplete t
    | Session.onInterrupted => handleUserSpeechDetected t
    | Session.onUserActivity => handleUserSpeechDetected t
    | _ => t
    end
  else t.

(** The body of each timer. *)
Definition timerBody (cb : TimerCallback) (t : Tutor) : Tutor :=
  match cb with
  | AdvanceSlide nextIndex =>
      let t := set_advanceTimerRef None t in
      if bool_decide (stateRef t = auto_explaining) && isAutoModeRef t then
        block [set_currentSlideIndex nextIndex;
               set_currentSlideIndexRef nextIndex;
               explainCurrentSlide] t
      else t
  | CloseVisual =>
      block [set_showVisualOverlay false;
             set_visualOverlay None;
             unmuteMic;
             set_tutorState waiting_to_resume] t
  | SettleIntoAnswering =>
      if bool_decide (stateRef t = paused_for_question) then
        block [set_isUserSpeaking false; set_tutorState answering] t
      else t
  | ResumeLecture =>
      if bool_decide (stateRef t = waiting_to_resume) then
        let nextIndex := (currentSlideIndexRef t + 1)%nat in
        let t := if (nextIndex <? length (slidesRef t))%nat
                 then set_currentSlideIndexRef nextIndex
                        (set_currentSlideIndex nextIndex t)
                 else t in
        block [clearSubtitles; explainCurrentSlide] t
      else t
  | ClassifyQuestion subtitles =>
      let t := set_researchTimerRef None t in
      if negb (bool_decide (stateRef t = answering)) then t
      else
        match slidesRef t !! currentSlideIndexRef t with
        | None => t
        | Some currentSlide =>
            let recentText := sliceLast 250 subtitles in
            if negb (hasVisibleText recentText) then t
            else set_inFlight
                   (inFlight t ++ [AwaitQuestionType recentText currentSlide]) t
        end
  | ExplainSlide => explainCurrentSlide t
  end.

(** The continuation of a suspended async function. *)
Definition resume (p : Pending) (o : Outcome) (t : Tutor) : Tutor :=
  match p, o with
  (* startVoiceTutor after [await startGeminiVoice]; then startAutoExplain
     after [await startVoiceTutor] *)
  | AwaitVoice fromLecture, VoiceStarted =>
      block [contextCallback Session.onOpen;
             set_realtimeRef (Some Session.initial);
             if fromLecture then set_pendingSlideExplainRef true else (fun t => t)] t
  | AwaitVoice fromLecture, Rejected =>
      block [set_isConnecting false;
             stopVoiceTutor;
             if fromLecture then set_pendingSlideExplainRef true else (fun t => t)] t
  (* the classification timer's body after [await detectQuestionType] *)
  | AwaitQuestionType recentText currentSlide, QuestionTypeIs external =>
      block [set_tutorState research_mode;
             set_researchPanelData (Some (mkResearchPanelData recentText true));
             set_showResearchPanel true;
             fun t => set_inFlight (inFlight t ++ [AwaitResearch recentText]) t] t
  | AwaitQuestionType recentText currentSlide, QuestionTypeIs visual_request =>
      let isVideo := wantsVideo recentText in
      block [set_tutorState visual_explaining;
             muteMic;
             set_isVisualGeneratingRef true;
             set_visualOverlay (Some (mkVisualOverlay None isVideo true));
             set_showVisualOverlay true;
             sendTextToTutor VisualPleaseWait;
             fun t => set_inFlight
                        (inFlight t ++ [AwaitVisual isVideo recentText currentSlide]) t] t
  | AwaitQuestionType _ _, _ => t
  (* after the searches and [await summarizeForTeaching] *)
  | AwaitResearch recentText, ResearchSummarized teacherScript =>
      block [set_researchPanelData (Some (mkResearchPanelData recentText false));
             sendTextToTutor (ResearchFindings teacherScript)] t
  | AwaitResearch _, _ => t
  (* after the generator's [await]; a rejection is caught and leaves url null *)
  | AwaitVisual isVideo recentText currentSlide, VisualGenerated (Some (String c u)) =>
      block [set_isVisualGeneratingRef false;
             fun t => set_visualOverlay
                        (match visualOverlay t with
                         | Some prev =>
                             Some (mkVisualOverlay (Some (String c u))
                                     (overlayIsVideo prev) false)
                         | None => None
                         end) t;
             sendTextToTutor (VisualReady isVideo recentText (title currentSlide))] t
  | AwaitVisual _ _ _, (VisualGenerated _ | Rejected) =>
      block [set_isVisualGeneratingRef false;
             set_showVisualOverlay false;
             set_visualOverlay None;
             unmuteMic;
             sendTextToTutor VisualTrouble;
             set_tutorState answering] t
  | _, _ => t
  end.

Definition startAutoExplain (slides : list SlideData) (t : Tutor) : Tutor :=
  let connected := isVoiceConnected t in
  let t := block [set_slidesRef slides;
                  set_currentSlideIndex 0;
                  set_isAutoMode true;
                  set_tutorState auto_explaining;
                  set_showResearchPanel false;
                  set_showVisualOverlay false] t in
  if negb connected then
    let '(suspended, t) := startVoiceTutor true t in
    if suspended then t else set_pendingSlideExplainRef true t
  else snd (setTimeout ExplainSlide 500 t).

Definition stopAutoExplain : Tutor -> Tutor :=
  block [clearTimeoutOf advanceTimerRef;
         clearTimeoutOf researchTimerRef;
         set_isAutoMode false;
         set_tutorState idle;
         stopAudioPlayback;
         clearSubtitles;
         set_showResearchPanel false;
         set_showVisualOverlay false;
         set_visualOverlay None;
         stopVoiceTutor].

Definition pauseAutoExplain : Tutor -> Tutor :=
  block [clearTimeoutOf advanceTimerRef;
         stopAudioPlayback;
         set_tutorState paused_for_question].

Definition resumeAutoExplain (t : Tutor) : Tutor :=
  let t := clearSubtitles t in
  let t :=
    match stateRef t with
    | waiting_to_resume | paused_for_question | answering =>
        let nextIndex := (currentSlideIndexRef t + 1)%nat in
        if (nextIndex <? length (slidesRef t))%nat
        then set_currentSlideIndexRef nextIndex (set_currentSlideIndex nextIndex t)
        else t
    | _ => t
    end in
  explainCurrentSlide t.

Definition goToSlide (index : Z) (t : Tutor) : Tutor :=
  if (index <? 0) || (Z.of_nat (length (slidesRef t)) <=? index) then t
  else
    let t := block [clearTimeoutOf advanceTimerRef;
                    set_currentSlideIndex (Z.to_nat index);
                    set_currentSlideIndexRef (Z.to_nat index)] t in
    if isAutoModeRef t && negb (bool_decide (stateRef t = idle)) then
      block [clearSubtitles; stopAudioPlayback; explainCurrentSlide] t
    else t.

Definition closeResearchPanel : Tutor -> Tutor := set_showResearchPanel false.

Definition closeVisualOverlay : Tutor -> Tutor :=
  block [set_showVisualOverlay false; set_visualOverlay None].

(** *** Render and effects *)

(** After a handler has run React renders and runs the effects whose
    dependencies changed, in the order of their declaration: the three that
    copy state into refs, the registration of the callbacks, the detection of
    a resume command, the question classification, and the start of the
    first explanation once the voice is connected. *)
Definition commit (t : Tutor) : Tutor :=
  let stateChanged := negb (bool_decide (tutorState t = stateRef t)) in
  let subtitlesChanged :=
    negb (String.eqb (subtitlesText t) (renderedSubtitlesText t)) in
  let connectedChanged :=
    negb (Bool.eqb (isVoiceConnected t) (renderedVoiceConnected t)) in
  block [
    (* stateRef.current = tutorState, and the two like it *)
    fun t => set_stateRef (tutorState t) t;
    fun t => set_currentSlideIndexRef (currentSlideIndex t) t;
    fun t => set_isAutoModeRef (isAutoMode t) t;
    (* onTurnComplete.current = isAutoMode ? handleTurnComplete : null, ... *)
    fun t => set_callbacksRegistered (isAutoMode t) t;
    (* resume command detection *)
    fun t =>
      if subtitlesChanged
         && bool_decide (stateRef t = waiting_to_resume)
         && saysResume (subtitlesText t)
      then snd (setTimeout ResumeLecture 1000 t)
      else t;
    (* question classification *)
    fun t =>
      if (stateChanged || subtitlesChanged)
         && bool_decide (tutorState t = paused_for_question)
      then
        let t := clearTimeoutOf researchTimerRef t in
        let '(h, t) := setTimeout (ClassifyQuestion (subtitlesText t)) 3000 t in
        set_researchTimerRef (Some h) t
      else t;
    (* first explanation after the connection *)
    fun t =>
      if connectedChanged && isVoiceConnected t
         && pendingSlideExplainRef t && isAutoModeRef t
      then snd (setTimeout ExplainSlide 1000 (set_pendingSlideExplainRef false t))
      else t;
    fun t => set_renderedSubtitlesText (subtitlesText t) t;
    fun t => set_renderedVoiceConnected (isVoiceConnected t) t
  ] t.

(** *** One event at a time *)

Inductive Event : Type :=
(* the user, through the components *)
| StartAutoExplain (slides : list SlideData)
| StopAutoExplain
| PauseAutoExplain
| ResumeAutoExplain
| GoToSlide (index : Z)
| CloseResearchPanel
| CloseVisualOverlay
| StartVoiceTutor
| StopVoiceTutor
(* the browser and the network, through the session *)
| SessionDoes (op : Session.Op T Prompt)
(* a timer comes due *)
| TimerFires (h : nat)
(* the [n]-th suspended async function is resumed *)
| Resolves (n : nat) (outcome : Outcome).

Definition sessionDoes (op : Session.Op T Prompt) (t : Tutor) : Tutor :=
  match realtimeRef t with
  | Some session =>
      if Session.fromEnvironment op then
        let '(session', log) := Session.exec (Session.step op) session in
        foldl (fun t e =>
                 match e with
                 | Session.Call cb _ => forward cb (noteEffect e t)
                 | _ => noteEffect e t
                 end)
              (set_realtimeRef (Some session') t) log
      else t
  | None => t
  end.

Definition timerFires (h : nat) (t : Tutor) : Tutor :=
  match List.find (fun tm => bool_decide (handle tm = h)) (timers t) with
  | Some tm => timerBody (callback tm) (clearTimeout h t)
  | None => t
  end.

Definition resolves (n : nat) (o : Outcome) (t : Tutor) : Tutor :=
  match inFlight t !! n with
  | Some p => resume p o (set_inFlight (delete n (inFlight t)) t)
  | None => t
  end.

Definition handle_event (e : Event) (t : Tutor) : Tutor :=
  match e with
  | StartAutoExplain slides => startAutoExplain slides t
  | StopAutoExplain => stopAutoExplain t
  | PauseAutoExplain => pauseAutoExplain t
  | ResumeAutoExplain => resumeAutoExplain t
  | GoToSlide index => goToSlide index t
  | CloseResearchPanel => closeResearchPanel t
  | CloseVisualOverlay => closeVisualOverlay t
  | StartVoiceTutor => snd (startVoiceTutor false t)
  | StopVoiceTutor => stopVoiceTutor t
  | SessionDoes op => sessionDoes op t
  | TimerFires h => timerFires h t
  | Resolves n outcome => resolves n outcome t
  end.

Definition step (e : Event) (t : Tutor) : Tutor := commit (handle_event e t).

Definition run (events : list Event) (t : Tutor) : Tutor :=
  foldl (fun t e => step e t) t events.

Definition reachable (t : Tutor) : Prop :=
  exists events, run events initial = t.

(** *** Vocabulary of the lecture's properties *)

(** The part of the state that belongs to the lecture alone; nothing the
    session reports back through [TutorProvider] touches it. *)
Definition sameLecture (t t' : Tutor) : Prop :=
  tutorState t' = tutorState t /\
  isAutoMode t' = isAutoMode t /\
  currentSlideIndex t' = currentSlideIndex t /\
  slidesRef t' = slidesRef t /\
  stateRef t' = stateRef t /\
  currentSlideIndexRef t' = currentSlideIndexRef t /\
  isAutoModeRef t' = isAutoModeRef t /\
  advanceTimerRef t' = advanceTimerRef t /\
  researchTimerRef t' = researchTimerRef t /\
  isVisualGeneratingRef t' = isVisualGeneratingRef t /\
  timers t' = timers t /\
  timersCreated t' = timersCreated t /\
  inFlight t' = inFlight t.

(** Cancelling the timer a ref points to. *)
Definition cancelled (ref : option nat) (pending : list Timer) : list Timer :=
  match ref with
  | Some h => filter (fun tm => handle tm <> h) pending
  | None => pending
  end.

End WithTimeLine.

Arguments Tutor T : clear implicits.
Arguments Event T : clear implicits.

(** *** Example lectures *)

Definition turnCompleteMessage : Session.LiveServerMessage Q :=
  Session.mkMessage false true None.

Definition subtitleMessage (chunk : string) : Session.LiveServerMessage Q :=
  Session.mkMessage false false (Some [Session.mkPart (Some chunk) None 0%Q]).

(** A lecture started on a fresh connection: the first explanation is due
    in 1000 ms. *)
Definition lectureStarting : list (Event Q) :=
  [StartAutoExplain twoSlides; Resolves 0 VoiceStarted].

(** The lecture up to the model's second turn about a generated visual:
    the first slide is being explained, the student speaks, the subtitles
    carry a request, it is classified as a visual request, the wait message's
    turn completes (ignored), the visual arrives, the explanation of the
    visual completes. *)
Definition lectureShowingVisual : list (Event Q) :=
  lectureStarting ++
  [TimerFires 1;
   SessionDoes (Session.OpAudioProcess Session.loudFrame 1000);
   SessionDoes (Session.OpMessage (subtitleMessage "show me a video"));
   TimerFires 2;
   TimerFires 4;
   Resolves 0 (QuestionTypeIs visual_request);
   SessionDoes (Session.OpMessage turnCompleteMessage);
   Resolves 0 (VisualGenerated (Some "blob:clip"%string));
   SessionDoes (Session.OpMessage turnCompleteMessage)].

End AutoTutor.

(** ** Reading the log of a session *)

Module SessionLog.
Import AudioCodec Session.

Section WithTimeLine.
Context {T : Type} `{TimeLine T} {Txt : Type}.

(** Following the speaking notifications of a log from a known speaking
    state: [onSpeakingStart] is only in order while silent, [onSpeakingStop]
    only while speaking.  The result is the speaking state at the end of the
    log, or nothing when a notification comes out of turn. *)
Fixpoint speakingAfter (speaking : bool) (log : list (Effect T Txt)) : option bool :=
  match log with
  | [] => Some speaking
  | Call onSpeakingStart _ :: rest =>
      if speaking then None else speakingAfter true rest
  | Call onSpeakingStop _ :: rest =>
      if speaking then speakingAfter false rest else None
  | _ :: rest => speakingAfter speaking rest
  end.

(** The frames handed to [session.sendRealtimeInput], in order. *)
Fixpoint sentFrames (log : list (Effect T Txt)) : list (list Byte.byte) :=
  match log with
  | [] => []
  | SendRealtimeInput pcm :: rest => pcm :: sentFrames rest
  | _ :: rest => sentFrames rest
  end.

(** What reaches the network or releases a resource. *)
Definition isSendOrRelease (e : Effect T Txt) : bool :=
  match e with
  | SendRealtimeInput _ | SendClientContent _
  | ProcessorDisconnect | MicSourceDisconnect | StreamTracksStop
  | AudioContextClose | InputAudioContextClose | SessionClose => true
  | _ => false
  end.

(** The effects of releasing the session's resources, as [stop] issues
    them. *)
Definition isRelease (e : Effect T Txt) : bool :=
  match e with
  | ProcessorDisconnect | MicSourceDisconnect | StreamTracksStop
  | AudioContextClose | InputAudioContextClose | SessionClose => true
  | _ => false
  end.

(** Playback and callbacks: what the session does in answer to the network
    and to the audio graph. *)
Definition isPlayback (e : Effect T Txt) : bool :=
  match e with
  | SourceStart _ _ _ | SourceStop _ | Call _ _ => true
  | _ => false
  end.

Definition isSourceStart (e : Effect T Txt) : bool :=
  match e with SourceStart _ _ _ => true | _ => false end.

(** The playback queue: what [schedule] reads and writes. *)
Definition sameQueue (st st' : State T) : Prop :=
  nextStartTime st' = nextStartTime st
  /\ activeSources st' = activeSources st
  /\ sourcesCreated st' = sourcesCreated st.

(** [m] raises the speaking notifications in turn and leaves [isSpeaking]
    at what the last one said. *)
Definition tracksSpeaking {A} (m : M T Txt A) : Prop :=
  forall st,
    let '(_, st', log) := m st in
    speakingAfter (isSpeaking st) log = Some (isSpeaking st').

Definition isStop (op : Op T Txt) : bool :=
  match op with OpStop => true | _ => false end.

Definition isMute (op : Op T Txt) : bool :=
  match op with OpMuteMic => true | _ => false end.

(** The frames a run captures, encoded. *)
Fixpoint capturedFrames (ops : list (Op T Txt)) : list (list Byte.byte) :=
  match ops with
  | [] => []
  | OpAudioProcess inputData _ :: rest => createPcmBlob inputData :: capturedFrames rest
  | _ :: rest => capturedFrames rest
  end.

(** The release half of [stop], in its order. *)
Definition releaseSequence : list (Effect T Txt) :=
  [ProcessorDisconnect; MicSourceDisconnect; StreamTracksStop;
   AudioContextClose; InputAudioContextClose; SessionClose].

End WithTimeLine.
End SessionLog.

(** ** What [stop] releases *)

Module Teardown.
Import Connect.

(** [session.close()] *)
Definition closeSession (session : nat) (b : Browser) : Browser :=
  mkBrowser (audioContexts b) (mediaStreams b) (<[session := false]> (liveSessions b)).

Section WithTimeLine.
Context {T : Type} `{TimeLine T} {Txt : Type}.

(** The statements of [stop] (services/geminiRealtime.ts) that act on the
    objects [startGeminiVoice] acquired, on the objects of this handle.
    Stopping a source and disconnecting a node leave them as they are. *)
Definition perform (h : GeminiVoice.Handle) (e : Session.Effect T Txt)
    (b : Browser) : Browser :=
  match e with
  | Session.StreamTracksStop => stopTracks (GeminiVoice.stream h) b
  | Session.AudioContextClose => closeIfOpen (GeminiVoice.audioContext h) b
  | Session.InputAudioContextClose => closeIfOpen (GeminiVoice.inputAudioContext h) b
  | Session.SessionClose => closeSession (GeminiVoice.session h) b
  | _ => b
  end.

Definition performAll (h : GeminiVoice.Handle) (log : list (Session.Effect T Txt))
    (b : Browser) : Browser :=
  foldl (fun b e => perform h e b) b log.

End WithTimeLine.
End Teardown.

(** ** A lecture from start to finish *)

Module Lecture.
Import AutoTutor.

Section WithTimeLine.
Context {T : Type} `{TimeLine T}.

(** The server reports that the model's turn is complete. *)
Definition turnCompleted : Event T :=
  SessionDoes (Session.OpMessage (Session.mkMessage false true None)).

(** What the narration of a slide consists of: messages that carry text and
    audio, and sources that finish playing. *)
Definition isNarration (e : Event T) : bool :=
  match e with
  | SessionDoes (Session.OpMessage message) =>
      negb (Session.interrupted message) && negb (Session.turnComplete message)
  | SessionDoes (Session.OpEnded _) => true
  | _ => false
  end.

(** A lecture that nobody interrupts: it is started on a fresh connection,
    the connection opens, the first explanation comes due; then, for each
    slide, the model streams its narration ([stream k] for slide [k]) and
    completes its turn, and the advance timer this sets (the [k]-th one has
    handle [k + 2]) comes due; the last slide ends with its turn. *)
Definition uninterrupted (slides : list SlideData)
    (stream : nat -> list (Event T)) : list (Event T) :=
  [StartAutoExplain slides; Resolves 0 VoiceStarted; TimerFires 1]
  ++ flat_map (fun k => stream k ++ [turnCompleted; TimerFires (S (S k))])
              (seq 0 (length slides - 1))
  ++ stream (length slides - 1)%nat ++ [turnCompleted].

(** The texts sent to the model as client turns, in order. *)
Fixpoint prompts (log : list (Session.Effect T Prompt)) : list Prompt :=
  match log with
  | [] => []
  | Session.SendClientContent text :: rest => text :: prompts rest
  | _ :: rest => prompts rest
  end.

(** The lecture while slide [k] is narrated, with nothing pending. *)
Definition narratingAt (slides : list SlideData) (k : nat) (t : Tutor T) : Prop :=
  tutorState t = auto_explaining /\ stateRef t = auto_explaining /\
  isAutoMode t = true /\ isAutoModeRef t = true /\ callbacksRegistered t = true /\
  currentSlideIndex t = k /\ currentSlideIndexRef t = k /\
  slidesRef t = slides /\
  timers t = [] /\ timersCreated t = S k /\ inFlight t = [] /\
  advanceTimerRef t = None /\
  renderedVoiceConnected t = isVoiceConnected t /\
  exists session, realtimeRef t = Some session /\ Session.stopped session = false.

(** What a narration raises: no end of turn, no interruption, no user
    activity, and nothing sent. *)
Definition isNarrationEffect (e : Session.Effect T Prompt) : Prop :=
  match e with
  | Session.Call Session.onTurnComplete _
  | Session.Call Session.onInterrupted _
  | Session.Call Session.onUserActivity _
  | Session.Call Session.onOpen _
  | Session.Call Session.onClose _
  | Session.Call Session.onError _
  | Session.SendClientContent _ => False
  | _ => True
  end.

End WithTimeLine.

(** What the model streams for a slide in the examples: a message with a line
    of text and one frame of audio (the bytes 00 40 in base64), and the end
    of a source. *)
Definition spoken (k : nat) : list (Event Q) :=
  [SessionDoes
     (Session.OpMessage
        (Session.mkMessage false false
           (Some [Session.mkPart (Some "A cell"%string)
                    (Some "AEA="%string) 0%Q])));
   SessionDoes (Session.OpEnded 1)].

End Lecture.

(** ** Vocabulary of the lecture's invariants *)

Module Rest.
Import AutoTutor.
Section WithTimeLine.
Context {T : Type} `{TimeLine T}.

(** Between two events the refs hold what the state holds: the effects that
    copy them have run. *)
Definition atRest (t : Tutor T) : Prop :=
  stateRef t = tutorState t /\
  currentSlideIndexRef t = currentSlideIndex t /\
  isAutoModeRef t = isAutoMode t /\
  callbacksRegistered t = isAutoMode t.

End WithTimeLine.
End Rest.

Module Pending.
Import AutoTutor.
Section WithTimeLine.
Context {T : Type} `{TimeLine T}.

Definition isAdvance (tm : Timer) : bool :=
  match callback tm with AdvanceSlide _ => true | _ => false end.

(** Pending timers are told apart by their handles, no handle is ahead of
    the counter, and a pending auto-advance is the one [advanceTimerRef]
    holds. *)
Definition timersTracked (t : Tutor T) : Prop :=
  NoDup (handle <$> timers t)
  /\ Forall (fun tm => (handle tm <= timersCreated t)%nat) (timers t)
  /\ Forall (fun tm => isAdvance tm = true -> advanceTimerRef t = Some (handle tm))
            (timers t).

(** [f] leaves the timers, their counter and [advanceTimerRef] alone. *)
Definition keepsTimers (f : Tutor T -> Tutor T) : Prop :=
  forall t,
    timers (f t) = timers t /\ timersCreated (f t) = timersCreated t
    /\ advanceTimerRef (f t) = advanceTimerRef t.

(** [f] keeps the timers tracked. *)
Definition tracksTimers (f : Tutor T -> Tutor T) : Prop :=
  forall t, timersTracked t -> timersTracked (f t).

End WithTimeLine.
End Pending.

(** ** The workspace's sources: [WorkspaceProvider] *)

(** contexts/WorkspaceContext.tsx (src/unnamed/part_011, lines 1-336), the
    part that holds the uploaded sources and their documents. *)
From Stdlib Require DecimalString.

Module Workspace.

(** The text [arrayBufferToBase64] (utils/audio.ts) makes of a buffer: the
    bytes as a binary string, through [btoa]. *)
Inductive Base64 : Type := base64Of (bytes : list Byte.byte).

(** A [File] of the browser; [arrayBuffer] is what [file.arrayBuffer()]
    resolves with, or nothing when it rejects. *)
Record File : Type := mkFile {
  fileName : string;
  fileType : string;
  fileSize : Z;
  arrayBuffer : option (list Byte.byte)
}.

Record SourceFile : Type := mkSourceFile {
  id : string;
  name : string;
  type : string;
  size : Z;
  data : Base64;
  file : File
}.

Record WorkspaceDocument : Type := mkDocument {
  sourceId : string;
  documentName : string;
  text : string
}.

(** The two [useState] lists. *)
Record State : Type := mkState {
  sources : list SourceFile;
  documents : list WorkspaceDocument
}.

Definition initial : State := mkState [] [].

Definition digits (n : Z) : string :=
  DecimalString.NilZero.string_of_uint (N.to_uint (Z.to_N n)).

(** [(size / 1024).toFixed(1)] for a size in bytes: the quotient is exact in
    a double, and [toFixed] rounds it to the nearest tenth, the larger one on
    a tie. *)
Definition kilobytes (size : Z) : string :=
  let tenths := (10 * size + 512) / 1024 in
  (digits (tenths / 10) ++ "." ++ digits (tenths mod 10))%string.

Definition newline : string := String (ascii_of_nat 10) EmptyString.

(** The continuation of [addSource] after [await file.arrayBuffer()]; [id]
    is the text [Math.random().toString(36).substr(2, 9)] gives.  A rejection
    is caught: an alert, and nothing is stored. *)
Definition addSource (file : File) (id : string) (ws : State) : State :=
  match arrayBuffer file with
  | None => ws
  | Some buffer =>
      let newSource :=
        mkSourceFile id (fileName file) (fileType file) (fileSize file)
                     (base64Of buffer) file in
      let docText :=
        mkDocument id (fileName file)
          ("Source: " ++ fileName file ++ newline
           ++ "Type: " ++ fileType file ++ newline
           ++ "Size: " ++ kilobytes (fileSize file) ++ " KB")%string in
      mkState (sources ws ++ [newSource]) (documents ws ++ [docText])
  end.

Definition removeSource (id' : string) (ws : State) : State :=
  mkState (List.filter (fun s => negb (String.eqb (id s) id')) (sources ws))
          (List.filter (fun d => negb (String.eqb (sourceId d) id')) (documents ws)).

Fixpoint join (separator : string) (parts : list string) : string :=
  match parts with
  | [] => EmptyString
  | [part] => part
  | part :: rest => (part ++ separator ++ join separator rest)%string
  end.

Definition getSourceContent (ws : State) : string :=
  match documents ws with
  | [] => "No sources uploaded. Please provide some context or upload documents."
  | _ => join (newline ++ newline) (map text (documents ws))
  end.

Definition hasSources (ws : State) : bool :=
  match sources ws with [] => false | _ => true end.

Inductive Action : Type :=
| AddSource (file : File) (id : string)
| RemoveSource (id : string).

Definition step (a : Action) (ws : State) : State :=
  match a with
  | AddSource file id => addSource file id ws
  | RemoveSource id => removeSource id ws
  end.

Definition run (actions : list Action) (ws : State) : State :=
  foldl (fun ws a => step a ws) ws actions.

(** Each source has its document, at the same place. *)
Definition aligned (ws : State) : Prop :=
  Forall2 (fun s d => sourceId d = id s /\ documentName d = name s)
          (sources ws) (documents ws).

End Workspace.

(** ** Slides on their way into a presentation: [normalizeSlide] *)

(** services/pptGenerator.ts (src/services/pptGenerator.ts, lines 29-68 and
    the bullet texts of [generatePresentation], lines 170-205). *)
Module PptGenerator.

(** A JavaScript string: its UTF-16 code units. *)
Definition JsString : Type := list N.

(** The code units [String.prototype.trim] strips: WhiteSpace and
    LineTerminator of ECMAScript. *)
Definition isWhiteSpace (c : N) : bool :=
  ((9 <=? c) && (c <=? 13) || (c =? 32) || (c =? 160) || (c =? 5760)
   || (8192 <=? c) && (c <=? 8202) || (c =? 8232) || (c =? 8233)
   || (c =? 8239) || (c =? 8287) || (c =? 12288) || (c =? 65279))%N.

Fixpoint trimStart (s : JsString) : JsString :=
  match s with
  | c :: rest => if isWhiteSpace c then trimStart rest else s
  | [] => []
  end.

Fixpoint trimEnd (s : JsString) : JsString :=
  match s with
  | [] => []
  | c :: rest =>
      match trimEnd rest with
      | [] => if isWhiteSpace c then [] else [c]
      | kept => c :: kept
      end
  end.

Definition trim (s : JsString) : JsString := trimEnd (trimStart s).

(** [parts.join(separator)] *)
Fixpoint join (separator : JsString) (parts : list JsString) : JsString :=
  match parts with
  | [] => []
  | [part] => part
  | part :: rest => part ++ separator ++ join separator rest
  end.

(** A slide as it arrives, parsed from the model's JSON: any field may be
    missing and a list may hold nulls, which is what the [?.] and [??] of
    [normalizeSlide] are for. *)
Inductive SlideLayout : Type := cover | section | content | two_column | highlight.

Record RawSlide : Type := mkRawSlide {
  layout : SlideLayout;
  title : option JsString;
  subtitle : option JsString;
  bullets : option (list (option JsString));
  left : option (list (option JsString));
  right : option (list (option JsString));
  text : option JsString;
  image : option JsString;
  visualDescription : option JsString
}.

(** The slides of services/generateSlides.ts (src/unnamed/part_002, lines
    15-48), as [normalizeSlide] returns them: without image or description. *)
Inductive GeneratedSlide : Type :=
| CoverSlide (title subtitle : JsString)
| SectionSlide (title : JsString)
| ContentSlide (title : JsString) (bullets : list JsString)
| TwoColumnSlide (title : JsString) (left right : list JsString)
| HighlightSlide (title text : JsString).

(** [s?.trim()], and the empty string when [s] is missing. *)
Definition trimmed (s : option JsString) : JsString :=
  match s with
  | Some s => trim s
  | None => []
  end.

Definition nonEmpty (s : JsString) : bool :=
  match s with [] => false | _ => true end.

(** [(list ?? []).map(...).filter(Boolean)], each item trimmed (a missing
    one is the empty string) and the empty ones left out. *)
Definition cleaned (items : option (list (option JsString))) : list JsString :=
  List.filter nonEmpty (map trimmed (default [] items)).

Definition normalizeSlide (slide : RawSlide) : GeneratedSlide :=
  match layout slide with
  | cover => CoverSlide (trimmed (title slide)) (trimmed (subtitle slide))
  | section => SectionSlide (trimmed (title slide))
  | content => ContentSlide (trimmed (title slide)) (cleaned (bullets slide))
  | two_column =>
      TwoColumnSlide (trimmed (title slide)) (cleaned (left slide))
                     (cleaned (right slide))
  | highlight => HighlightSlide (trimmed (title slide)) (trimmed (text slide))
  end.

(** A normalized slide as an object again. *)
Definition asRaw (slide : GeneratedSlide) : RawSlide :=
  match slide with
  | CoverSlide title subtitle =>
      mkRawSlide cover (Some title) (Some subtitle) None None None None None None
  | SectionSlide title =>
      mkRawSlide section (Some title) None None None None None None None
  | ContentSlide title bullets =>
      mkRawSlide content (Some title) None (Some (map Some bullets)) None None
                 None None None
  | TwoColumnSlide title left right =>
      mkRawSlide two_column (Some title) None None (Some (map Some left))
                 (Some (map Some right)) None None None
  | HighlightSlide title text =>
      mkRawSlide highlight (Some title) None None None None (Some text) None None
  end.

(** "• " *)
Definition bulletMark : JsString := [8226; 32]%N.

Definition lineFeed : JsString := [10]%N.

(** [bullets.map((b) => `• ${b}`.trim()).join("\n")] *)
Definition toBulletText (bullets : list JsString) : JsString :=
  join lineFeed (map (fun b => trim (bulletMark ++ b)) bullets).

(** The bullet texts [generatePresentation] computes for a slide of the
    [content] and [two-column] layouts, [toBulletText(slide.bullets.slice(0, 6))]
    and the like for [left] and [right]; each one is drawn when the template
    has a box for it.  The other layouts have no bullets. *)
Definition bulletTexts (slide : GeneratedSlide) : list JsString :=
  match slide with
  | ContentSlide _ bullets => [toBulletText (take 6 bullets)]
  | TwoColumnSlide _ left right =>
      [toBulletText (take 6 left); toBulletText (take 6 right)]
  | _ => []
  end.

(** Neither empty nor with white space at either end. *)
Definition tidy (s : JsString) : Prop := s <> [] /\ trim s = s.

End PptGenerator.

(** ** Playback in [LiveClient]: [handleMessage] of services/live.ts *)

(** src/unnamed/part_001, lines 135-165: the client of the first voice
    mode schedules the audio of a message and then looks at its
    [interrupted] flag, without a [try] around the decoding. *)
Module LivePlayback.
Import AudioCodec.

Section WithTimeLine.
Context {T : Type} `{TimeLine T}.

(** The fields [handleMessage] reads and writes; [audioContext] tells
    whether the field is non-null. *)
Record Client : Type := mkClient {
  audioContext : bool;
  nextStartTime : T;
  activeSources : list nat;
  sourcesCreated : nat
}.

Inductive Effect : Type :=
| SourceStart (source : nat) (when : T) (buffer : AudioBuffer)
| SourceStop (source : nat)
| StatusChange (status : string)                 (* onStatusChange?.(status) *)
| StatusChangeLater (status : string) (ms : Z).  (* through setTimeout *)

(** What [handleMessage] reads of a message: the base64 text
    [parts?.[0]?.inlineData?.data] when there is one, the flag, and the
    clock of the audio context. *)
Record Message : Type := mkMessage {
  audioData : option string;
  interrupted : bool;
  currentTime : T
}.

(** [audioData && this.audioContext] *)
Definition audible (message : Message) (c : Client) : bool :=
  match audioData message with
  | Some data => nonEmpty data && audioContext c
  | None => false
  end.

(** "2. Handle Interruption" *)
Definition handleInterruption (message : Message) (c : Client)
  : Client * list Effect :=
  if interrupted message then
    (mkClient (audioContext c) tzero [] (sourcesCreated c),
     map SourceStop (activeSources c)
       ++ [StatusChange "Interrupted"; StatusChangeLater "Listening" 1000])
  else (c, []).

(** The async [handleMessage]: its promise is fulfilled or, when
    [base64ToUint8Array] or [decodeAudioData] throws, rejected with what was
    thrown, the rest of the body not being run. *)
Definition handleMessage (message : Message) (c : Client)
  : (DOMException + unit) * Client * list Effect :=
  match audioData message with
  | Some data =>
      if nonEmpty data && audioContext c then
        let start := tmax (nextStartTime c) (currentTime message) in
        let c := mkClient (audioContext c) start (activeSources c) (sourcesCreated c) in
        match base64ToUint8Array data with
        | inl e => (inl e, c, [])
        | inr audioBytes =>
            match decodeAudioData audioBytes 24000 1 with
            | inl e => (inl e, c, [])
            | inr audioBuffer =>
                let source := sourcesCreated c in
                let c := mkClient (audioContext c)
                           (tplus start (Session.duration audioBuffer))
                           (if decide (source ∈ activeSources c) then activeSources c
                            else activeSources c ++ [source])
                           (S source) in
                let '(c, stopped) := handleInterruption message c in
                (inr tt, c, SourceStart source start audioBuffer :: stopped)
            end
        end
      else
        let '(c, stopped) := handleInterruption message c in (inr tt, c, stopped)
  | None =>
      let '(c, stopped) := handleInterruption message c in (inr tt, c, stopped)
  end.

(** The ["ended"] listener of a source. *)
Definition sourceEnded (source : nat) (c : Client) : Client :=
  mkClient (audioContext c) (nextStartTime c)
           (filter (fun s => s <> source) (activeSources c)) (sourcesCreated c).

End WithTimeLine.

Arguments Client T : clear implicits.
Arguments Effect T : clear implicits.
Arguments Message T : clear implicits.

End LivePlayback.

(** * Properties of the codec *)

Module AudioCodecFacts.
Import AudioCodec.

Lemma Z_of_byte_range (b : Byte.byte) : 0 <= Z_of_byte b < 256.
Proof.
  unfold Z_of_byte. pose proof (Byte.to_N_bounded b). lia.
Qed.

Lemma Z_of_byte_of_Z (z : Z) : Z_of_byte (byte_of_Z z) = z mod 256.
Proof.
  unfold Z_of_byte, byte_of_Z.
  assert (Hr : 0 <= z mod 256 < 256) by (apply Z.mod_pos_bound; lia).
  destruct (Byte.of_N (Z.to_N (z mod 256))) as [b|] eqn:E.
  - apply Byte.to_of_N in E. rewrite E. lia.
  - apply Byte.of_N_None_iff in E. lia.
Qed.

Lemma wrap16_range (n : Z) : -32768 <= wrap16 n <= 32767.
Proof.
  unfold wrap16. pose proof (Z.mod_pos_bound n 65536 ltac:(lia)).
  destruct (32768 <=? n mod 65536) eqn:E; lia.
Qed.

Lemma wrap16_congruent (n : Z) : (wrap16 n - n) mod 65536 = 0.
Proof.
  unfold wrap16. destruct (32768 <=? n mod 65536).
  - replace (n mod 65536 - 65536 - n) with (- (n / 65536 + 1) * 65536).
    + apply Z.mod_mul. lia.
    + pose proof (Z.div_mod n 65536 ltac:(lia)). lia.
  - replace (n mod 65536 - n) with (- (n / 65536) * 65536).
    + apply Z.mod_mul. lia.
    + pose proof (Z.div_mod n 65536 ltac:(lia)). lia.
Qed.

Lemma wrap16_id (n : Z) : -32768 <= n <= 32767 -> wrap16 n = n.
Proof.
  intros H. unfold wrap16.
  destruct (Z.le_gt_cases 0 n).
  - rewrite Z.mod_small by lia. destruct (32768 <=? n) eqn:E; lia.
  - replace (n mod 65536) with (n + 65536).
    + destruct (32768 <=? n + 65536) eqn:E; lia.
    + apply Z.mod_unique with (q := -1); lia.
Qed.

Lemma wrap16_mod (n : Z) : wrap16 (n mod 65536) = wrap16 n.
Proof. unfold wrap16. now rewrite Z.mod_mod by lia. Qed.

(** Reading back the two bytes of an Int16 element gives its value. *)
Lemma int16_of_bytes_int16_bytes (v : Z) :
  match int16_bytes v with
  | [lo; hi] => int16_of_bytes lo hi = wrap16 v
  | _ => False
  end.
Proof.
  unfold int16_bytes, int16_of_bytes. cbn zeta.
  rewrite !Z_of_byte_of_Z.
  pose proof (Z.mod_pos_bound v 65536 ltac:(lia)) as Hu.
  set (u := v mod 65536) in *.
  rewrite Z.mod_mod by lia.
  rewrite (Z.mod_small (u / 256)).
  - rewrite (Z.add_comm (u mod 256)), <- Z.div_mod by lia.
    apply wrap16_mod.
  - split; [apply Z.div_pos; lia | apply Z.div_lt_upper_bound; lia].
Qed.

Lemma int16_view_bytesOfInt16Array (l : list Z) :
  int16_view (bytesOfInt16Array l) = map wrap16 l.
Proof.
  induction l as [|v l IH]; [reflexivity|].
  pose proof (int16_of_bytes_int16_bytes v) as Hv.
  unfold bytesOfInt16Array in *. cbn [flat_map].
  unfold int16_bytes in *. cbn [app int16_view map].
  now rewrite Hv, IH.
Qed.

Lemma length_bytesOfInt16Array (l : list Z) :
  length (bytesOfInt16Array l) = (2 * length l)%nat.
Proof.
  induction l as [|v l IH]; [reflexivity|].
  unfold bytesOfInt16Array in *. cbn [flat_map].
  rewrite length_app, IH. unfold int16_bytes. cbn [length]. lia.
Qed.

Lemma length_int16_view (data : list Byte.byte) :
  length (int16_view data) = (length data / 2)%nat.
Proof.
  induction data as [data IH] using (well_founded_induction
    (well_founded_ltof _ (@length Byte.byte))).
  destruct data as [|lo [|hi rest]]; try reflexivity.
  cbn [int16_view length]. rewrite IH by (unfold ltof; cbn; lia).
  change (S (S (length rest))) with (1 * 2 + length rest)%nat.
  rewrite Nat.div_add_l by lia. lia.
Qed.


Lemma Qtrunc_nonneg (y : Q) :
  (0 <= y)%Q -> (inject_Z (Qtrunc y) <= y /\ y < inject_Z (Qtrunc y) + 1)%Q.
Proof.
  destruct y as [n d]. unfold Qtrunc, Qle, Qlt, inject_Z. cbn.
  intros Hn. rewrite Z.mul_1_r in *.
  pose proof (Z.quot_rem' n (Z.pos d)) as E.
  pose proof (Z.rem_bound_pos n (Z.pos d) ltac:(lia) ltac:(lia)) as B.
  split; nia.
Qed.

Lemma Qtrunc_nonpos (y : Q) :
  (y <= 0)%Q -> (inject_Z (Qtrunc y) - 1 < y /\ y <= inject_Z (Qtrunc y))%Q.
Proof.
  destruct y as [n d]. unfold Qtrunc, Qle, Qlt, inject_Z. cbn.
  intros Hn. change (0 * Z.pos d) with 0 in Hn.
  change (Z.pos (1 * 1)) with 1. rewrite ?Z.mul_1_r in *.
  pose proof (Z.quot_rem' n (Z.pos d)) as E.
  pose proof (Z.rem_bound_pos_neg n (Z.pos d) ltac:(lia) ltac:(lia)) as B.
  split; nia.
Qed.

(** The distance between a rational and its truncation is below 1. *)
Lemma Qtrunc_close (y : Q) : (Qabs (inject_Z (Qtrunc y) - y) < 1)%Q.
Proof.
  apply Qabs_Qlt_condition.
  destruct (Qlt_le_dec y 0) as [Hneg|Hpos].
  - destruct (Qtrunc_nonpos y) as [A B]; [lra|]. split; lra.
  - destruct (Qtrunc_nonneg y Hpos) as [A B]. split; lra.
Qed.

(** The fill loop of one channel: every index below both the channel length
    and the loop bound receives its sample. *)
Lemma fill_loop_length (f : nat -> float) (n : nat) (cd : list float) :
  length (foldl (fun cd i => <[i := f i]> cd) cd (seq 0 n)) = length cd.
Proof.
  induction n as [|n IH]; [reflexivity|].
  rewrite seq_S, foldl_app. cbn [foldl]. now rewrite length_insert.
Qed.

Lemma fill_loop_lookup (f : nat -> float) (n : nat) (cd : list float) (i : nat) :
  (i < length cd)%nat -> (i < n)%nat ->
  foldl (fun cd i => <[i := f i]> cd) cd (seq 0 n) !! i = Some (f i).
Proof.
  intros Hlen. induction n as [|n IH]; intros Hi; [lia|].
  rewrite seq_S, foldl_app. cbn [foldl]. cbn [Nat.add].
  destruct (decide (i = n)) as [->|Hne].
  - apply list_lookup_insert_eq. now rewrite fill_loop_length.
  - rewrite list_lookup_insert_ne by congruence. apply IH. lia.
Qed.

Lemma newInt16Array_even (data : list Byte.byte) :
  (length data mod 2 = 0)%nat -> newInt16Array data = inr (int16_view data).
Proof. intros H. unfold newInt16Array. now rewrite H. Qed.

Lemma newInt16Array_odd (data : list Byte.byte) :
  (length data mod 2 <> 0)%nat -> newInt16Array data = inl RangeError.
Proof.
  intros H. unfold newInt16Array.
  destruct (length data mod 2 =? 0)%nat eqn:E; [|reflexivity].
  apply Nat.eqb_eq in E. contradiction.
Qed.


Lemma lookup_map {A B} (f : A -> B) (l : list A) (i : nat) :
  map f l !! i = option_map f (l !! i).
Proof.
  revert i. induction l as [|a l IH]; intros [|i]; cbn; auto.
Qed.

(** Shape of a successful decode. *)
Lemma decodeAudioData_ok (data : list Byte.byte) (rate : Z) (c : nat) :
  supported c rate = true ->
  (length data mod 2 = 0)%nat -> (0 < c)%nat -> (c <= length data / 2)%nat ->
  decodeAudioData data rate c =
    inr (mkAudioBuffer c rate
           (imap (fun channel cd =>
                    fillChannel (int16_view data) c channel
                      (frameLoopBound (length data / 2) c) cd)
                 (replicate c (replicate (length data / 2 / c) (FNum 0))))).
Proof.
  intros Hsup Heven Hc Hn. unfold decodeAudioData.
  rewrite (newInt16Array_even _ Heven), length_int16_view.
  unfold createBuffer. rewrite Hsup. cbn [negb].
  destruct (c =? 0)%nat eqn:Ec; [apply Nat.eqb_eq in Ec; lia|].
  destruct (length data / 2 / c =? 0)%nat eqn:Ef; [|reflexivity].
  apply Nat.eqb_eq in Ef. apply Nat.div_small_iff in Ef; lia.
Qed.


(** Decoding one channel: the samples are the Int16 elements over 32768. *)
Lemma decodeAudioData_mono (data : list Byte.byte) (rate : Z) :
  (length data mod 2 = 0)%nat -> (0 < length data)%nat ->
  supported 1 rate = true ->
  decodeAudioData data rate 1 =
    inr (mkAudioBuffer 1 rate [map (fun v => FNum (v # 32768)) (int16_view data)]).
Proof.
  intros Heven Hpos Hsup.
  assert (Hn : (1 <= length data / 2)%nat).
  { destruct (length data) as [|[|n]] eqn:E; [lia|discriminate|].
    change (S (S n)) with (1 * 2 + n)%nat. rewrite Nat.div_add_l by lia. lia. }
  rewrite decodeAudioData_ok by (try assumption; lia).
  rewrite Nat.div_1_r. cbn [replicate imap]. do 3 f_equal.
  unfold fillChannel, frameLoopBound.
  replace (length data / 2 + 1 - 1)%nat with (length data / 2)%nat by lia.
  rewrite Nat.div_1_r.
  apply list_eq. intros i.
  destruct (decide (i < length data / 2)%nat) as [Hi|Hi].
  - rewrite (fill_loop_lookup (fun i => sampleAt (int16_view data) (i * 1 + 0)))
      by (rewrite ?length_replicate; assumption).
    rewrite lookup_map. unfold sampleAt.
    replace (i * 1 + 0)%nat with i by lia.
    destruct (int16_view data !! i) as [v|] eqn:E; [reflexivity|].
    apply lookup_ge_None_1 in E. rewrite length_int16_view in E. lia.
  - rewrite !lookup_ge_None_2; [reflexivity| |].
    + rewrite length_map, length_int16_view. lia.
    + rewrite (fill_loop_length (fun i => sampleAt (int16_view data) (i * 1 + 0))),
        length_replicate. lia.
Qed.

Lemma ToInt16_range (x : float) : -32768 <= ToInt16 x <= 32767.
Proof. destruct x; cbn; try lia. apply wrap16_range. Qed.

(** The bytes of [createPcmBlob], read as little-endian Int16, are the
    converted samples. *)
Lemma int16_view_createPcmBlob (data : list float) :
  int16_view (createPcmBlob data) = toInt16Array data.
Proof.
  unfold createPcmBlob. rewrite int16_view_bytesOfInt16Array.
  unfold toInt16Array. rewrite map_map. apply map_ext.
  intros x. apply wrap16_id, ToInt16_range.
Qed.

Lemma Qtrunc_int16 (y : Q) :
  (-32769 < y /\ y < 32768)%Q -> -32768 <= Qtrunc y <= 32767.
Proof.
  intros [Hlo Hhi].
  assert (H : (inject_Z (-32769) < inject_Z (Qtrunc y)
               /\ inject_Z (Qtrunc y) < inject_Z 32768)%Q).
  { change (inject_Z (-32769)) with (-32769)%Q.
    change (inject_Z 32768) with 32768%Q.
    destruct (Qlt_le_dec y 0) as [Hneg|Hpos].
    - destruct (Qtrunc_nonpos y) as [A B]; [lra|]. split; lra.
    - destruct (Qtrunc_nonneg y Hpos) as [A B]. split; lra. }
  destruct H as [H1 H2]. rewrite <- Zlt_Qlt in H1, H2. lia.
Qed.

Lemma within_step_decoded (q : Q) :
  fits_int16 (FNum q) ->
  within_step (FNum q) (FNum (ToInt16 (scale32768 (FNum q)) # 32768)).
Proof.
  intros Hfit. cbn in Hfit. cbn [scale32768 ToInt16 within_step].
  rewrite wrap16_id by (apply Qtrunc_int16; exact Hfit).
  pose proof (Qtrunc_close (q * 32768)) as Hc.
  apply Qabs_Qlt_condition in Hc. destruct Hc as [Hc1 Hc2].
  set (t := Qtrunc (q * 32768)) in *.
  assert (E : (t # 32768 == inject_Z t * (1 # 32768))%Q).
  { unfold Qeq, inject_Z. cbn. lia. }
  apply Qabs_Qle_condition. rewrite E. split; lra.
Qed.

(** C4, the claim as stated fails: the full-scale sample 1.0 is encoded as
    the Int16 value -32768 and comes back as -1.0. *)
Lemma roundtrip_fails_at_full_scale :
  decodeAudioData (createPcmBlob [FNum 1]) 24000 1
    = inr (mkAudioBuffer 1 24000 [[FNum (-32768 # 32768)]])
  /\ ~ roundtrip_close [FNum 1].
Proof.
  split; [reflexivity|].
  intros [out [Hdec Hclose]].
  assert (out = [FNum (-32768 # 32768)]) as -> by (vm_compute in Hdec; congruence).
  inversion Hclose as [|x y l l' Hxy Hrest]; subst.
  cbn in Hxy. vm_compute in Hxy. apply Hxy. reflexivity.
Qed.

(** C4 (amended): for a non-empty array of finite samples whose scaled value
    truncates into the Int16 range (in particular [-1 <= s < 1]), decoding
    the encoded bytes succeeds and every sample comes back within one
    quantization step 1/32768 of the original. *)
Theorem roundtrip_within_quantization (s : list float) :
  s <> [] -> Forall fits_int16 s -> roundtrip_close s.
Proof.
  intros Hne Hfit.
  exists (map (fun x => FNum (ToInt16 (scale32768 x) # 32768)) s).
  split.
  - rewrite decodeAudioData_mono.
    + now rewrite int16_view_createPcmBlob; unfold toInt16Array; rewrite map_map.
    + unfold createPcmBlob. rewrite length_bytesOfInt16Array.
      replace (2 * length (toInt16Array s))%nat
        with (length (toInt16Array s) * 2)%nat by lia.
      apply Nat.Div0.mod_mul.
    + unfold createPcmBlob, toInt16Array.
      rewrite length_bytesOfInt16Array, length_map.
      destruct s; [congruence|cbn; lia].
    + reflexivity.
  - clear Hne. induction Hfit as [|x l Hx Hl IH]; cbn [map]; constructor.
    + destruct x as [q| |]; try contradiction. now apply within_step_decoded.
    + exact IH.
Qed.

Lemma roundtrip_within_quantization_witness :
  roundtrip_close [FNum (1 # 2); FNum (-1); FNum (3 # 100000)].
Proof.
  apply roundtrip_within_quantization.
  - discriminate.
  - repeat constructor; cbn; lra.
Defined.

(** C5, the claim as stated fails: 1.0 scales to 32768, which the code wraps
    to -32768 (bytes 00 80) where clamping gives 32767 (bytes ff 7f); and
    0.00003 scales to 0.98304, which the code truncates to 0 where rounding
    gives 1. *)
Lemma createPcmBlob_neither_rounds_nor_clamps :
  createPcmBlob [FNum 1; FNum (3 # 100000)]
    = [Byte.x00; Byte.x80; Byte.x00; Byte.x00]
  /\ encode_as_specified [1%Q; (3 # 100000)%Q]
    = [Byte.xff; Byte.x7f; Byte.x01; Byte.x00]
  /\ createPcmBlob [FNum 1; FNum (3 # 100000)]
     <> encode_as_specified [1%Q; (3 # 100000)%Q].
Proof.
  split; [reflexivity|]. split; [reflexivity|]. vm_compute. discriminate.
Qed.

(** C5 (amended): [createPcmBlob] is a total function that turns sample [i]
    into the two bytes [2i], [2i+1] holding, little-endian, the Int16 value
    obtained by truncating [sample * 32768] toward zero and reducing it
    modulo 2^16 into [-32768, 32767] (no rounding, no clamping); a scaled
    value already in range is kept, and NaN and the infinities give 0. *)
Theorem createPcmBlob_truncates_and_wraps (data : list float) :
  length (createPcmBlob data) = (2 * length data)%nat /\
  int16_view (createPcmBlob data) = toInt16Array data /\
  forall (i : nat) (x : float), data !! i = Some x ->
    exists v : Z,
      toInt16Array data !! i = Some v /\ -32768 <= v <= 32767 /\
      match x with
      | FNum q =>
          let y := (q * 32768)%Q in
          let t := Qtrunc y in
          ((0 <= y -> inject_Z t <= y /\ y < inject_Z t + 1)%Q /\
           (y <= 0 -> inject_Z t - 1 < y /\ y <= inject_Z t)%Q) /\
          (v - t) mod 65536 = 0 /\
          (-32768 <= t <= 32767 -> v = t)
      | FNaN => v = 0
      | FInf _ => v = 0
      end.
Proof.
  split.
  { unfold createPcmBlob, toInt16Array.
    now rewrite length_bytesOfInt16Array, length_map. }
  split; [apply int16_view_createPcmBlob|].
  intros i x Hx. exists (ToInt16 (scale32768 x)).
  split.
  { unfold toInt16Array. now rewrite lookup_map, Hx. }
  split; [apply ToInt16_range|].
  destruct x as [q| |]; cbn [scale32768 ToInt16]; try reflexivity.
  cbn zeta. split; [split|split].
  - apply Qtrunc_nonneg.
  - apply Qtrunc_nonpos.
  - apply wrap16_congruent.
  - apply wrap16_id.
Qed.

Lemma createPcmBlob_truncates_and_wraps_witness :
  exists v : Z,
    toInt16Array [FNum (3 # 100000); FNum 1] !! 1%nat = Some v /\
    -32768 <= v <= 32767 /\
    (let y := (1 * 32768)%Q in
     let t := Qtrunc y in
     ((0 <= y -> inject_Z t <= y /\ y < inject_Z t + 1)%Q /\
      (y <= 0 -> inject_Z t - 1 < y /\ y <= inject_Z t)%Q) /\
     (v - t) mod 65536 = 0 /\
     (-32768 <= t <= 32767 -> v = t)).
Proof.
  exact (proj2 (proj2 (createPcmBlob_truncates_and_wraps
                         [FNum (3 # 100000); FNum 1]))
           1%nat (FNum 1) eq_refl).
Defined.




End AudioCodecFacts.

(** * Properties of the session *)

#[export] Instance QTimeLineOrder : TimeLineOrder Q.
Proof.
  split; intros a b; cbn; destruct (Qle_bool a b) eqn:E.
  - now apply Qle_bool_iff.
  - apply Qle_refl.
  - apply Qle_refl.
  - destruct (Qlt_le_dec a b) as [Hlt|Hle]; [|exact Hle].
    apply Qlt_le_weak, Qle_bool_iff in Hlt. congruence.
Qed.

Module SessionFacts.
Import AudioCodec Session.

Section WithTimeLine.
Context {T : Type} `{TimeLineOrder T} {Txt : Type}.

Abbreviation State := (Session.State T).
Abbreviation Effect := (Session.Effect T Txt).
Abbreviation M := (Session.M T Txt).
Abbreviation enqueues := (Session.enqueues (T := T) (Txt := Txt)).

Ltac unfold_m :=
  unfold Session.exec, Session.bind, Session.ret, Session.gets, Session.modify,
    Session.emit, Session.call, Session.when in *.

(** *** A small program logic for [M] *)

Lemma keeps_ret {A} (I : State -> Prop) (P : Effect -> Prop) (a : A) :
  keeps I P (Session.ret a).
Proof. intros st HI. cbn. auto. Qed.

Lemma keeps_bind {A B} (I : State -> Prop) (P : Effect -> Prop)
    (m : M A) (k : A -> M B) :
  keeps I P m -> (forall a, keeps I P (k a)) -> keeps I P (Session.bind m k).
Proof.
  intros Hm Hk st HI. unfold Session.bind.
  specialize (Hm st HI). destruct (m st) as [[a st1] log1].
  destruct Hm as [HI1 HP1].
  specialize (Hk a st1 HI1). destruct (k a st1) as [[b st2] log2].
  destruct Hk as [HI2 HP2]. split; [assumption|].
  apply Forall_app. auto.
Qed.

Lemma keeps_gets {A} (I : State -> Prop) (P : Effect -> Prop) (f : State -> A) :
  keeps I P (Session.gets f).
Proof. intros st HI. cbn. auto. Qed.

Lemma keeps_modify (I : State -> Prop) (P : Effect -> Prop)
    (f : State -> State) :
  (forall st, I st -> I (f st)) -> keeps I P (Session.modify f).
Proof. intros Hf st HI. cbn. auto. Qed.

Lemma keeps_emit (I : State -> Prop) (P : Effect -> Prop) (e : Effect) :
  P e -> keeps I P (Session.emit e).
Proof. intros He st HI. cbn. auto. Qed.

Lemma keeps_call (I : State -> Prop) (P : Effect -> Prop) (cb : Callback) :
  (forall st, P (Call cb st)) -> keeps I P (Session.call cb).
Proof. intros He st HI. cbn. auto. Qed.

Lemma keeps_when (I : State -> Prop) (P : Effect -> Prop) (b : bool)
    (m : M unit) :
  keeps I P m -> keeps I P (Session.when b m).
Proof. intros Hm. destruct b; [exact Hm|apply keeps_ret]. Qed.

Lemma keeps_if {A} (I : State -> Prop) (P : Effect -> Prop) (b : bool)
    (m1 m2 : M A) :
  keeps I P m1 -> keeps I P m2 -> keeps I P (if b then m1 else m2).
Proof. now destruct b. Qed.

Lemma keeps_forEach {A} (I : State -> Prop) (P : Effect -> Prop)
    (l : list A) (body : A -> M unit) :
  (forall a, keeps I P (body a)) -> keeps I P (Session.forEach l body).
Proof.
  intros Hb. induction l as [|a l IH]; cbn [Session.forEach].
  - apply keeps_ret.
  - apply keeps_bind; [apply Hb|intros _; exact IH].
Qed.

(** *** [clearAudio] *)

Lemma forEach_stop (l : list nat) (st : State) :
  Session.forEach l (fun s => Session.emit (Txt := Txt) (SourceStop s)) st
  = (tt, st, map SourceStop l).
Proof.
  induction l as [|s l IH]; [reflexivity|].
  cbn [Session.forEach map]. unfold Session.bind at 1.
  cbn [Session.emit]. now rewrite IH.
Qed.

Lemma clearAudio_exec (st : State) :
  Session.exec (Session.clearAudio (Txt := Txt)) st
  = (cleared st,
     map SourceStop (activeSources st)
       ++ (if isSpeaking st then [Call onSpeakingStop (cleared st)] else [])).
Proof.
  unfold Session.clearAudio, Session.exec.
  unfold Session.bind at 1. cbn [Session.gets].
  unfold Session.bind at 1. rewrite forEach_stop.
  unfold_m. destruct st as [m s n sp a c l]. cbn.
  destruct sp; cbn; rewrite ?app_nil_r; reflexivity.
Qed.

(** C2: on an [interrupted] message the session runs [clearAudio] -- every
    active source is stopped, the set is emptied, [nextStartTime] is 0 -- and
    only then calls [onInterrupted], whose receiver therefore finds no
    scheduled audio. *)
Theorem interrupted_clears_before_forwarding
    (message : LiveServerMessage T) (st : State) :
  interrupted message = true ->
  exists (st' : State) (clearing : list Effect),
    Session.exec Session.clearAudio st = (st', clearing) /\
    Session.exec (Session.handleMessage message) st
      = (st', clearing ++ [Call onInterrupted st']) /\
    (forall s, s ∈ activeSources st -> SourceStop s ∈ clearing) /\
    Forall (fun e => forall seen, e <> Call onInterrupted seen) clearing /\
    activeSources st' = [] /\ nextStartTime st' = tzero /\ isSpeaking st' = false.
Proof.
  intros Hint.
  pose proof (clearAudio_exec st) as Hc.
  eexists. eexists. split; [exact Hc|].
  split.
  { unfold Session.handleMessage. rewrite Hint.
    unfold Session.exec in *. unfold Session.bind.
    destruct (Session.clearAudio st) as [[u st1] log1].
    inversion Hc; subst. reflexivity. }
  split.
  { intros s Hs. apply elem_of_app. left.
    apply list_elem_of_In, in_map, list_elem_of_In, Hs. }
  split.
  { apply Forall_app. split.
    - apply Forall_forall. intros e He seen.
      apply list_elem_of_In, in_map_iff in He. destruct He as [s [<- _]].
      discriminate.
    - destruct (isSpeaking st); repeat constructor. discriminate. }
  repeat split.
Qed.

(** *** Scheduling *)

Lemma starts_app (l1 l2 : list Effect) :
  starts (l1 ++ l2) = starts l1 ++ starts l2.
Proof.
  induction l1 as [|e l1 IH]; [reflexivity|].
  destruct e; cbn; rewrite ?IH; reflexivity.
Qed.

Lemma enqueue_as_specified_app (t : T) (l1 l2 : list (T * AudioBuffer)) :
  enqueue_as_specified t (l1 ++ l2)
  = let '(started1, t1) := enqueue_as_specified t l1 in
    let '(started2, t2) := enqueue_as_specified t1 l2 in
    (started1 ++ started2, t2).
Proof.
  revert t. induction l1 as [|[now frame] l1 IH]; intros t; cbn [app enqueue_as_specified].
  - destruct (enqueue_as_specified t l2). reflexivity.
  - rewrite IH.
    destruct (enqueue_as_specified _ l1) as [started1 t1].
    destruct (enqueue_as_specified t1 l2). reflexivity.
Qed.

Lemma enqueues_ret {A} (a : A) : enqueues [] (Session.ret a).
Proof. intros st. reflexivity. Qed.

Lemma enqueues_bind {A B} (l1 l2 : list (T * AudioBuffer))
    (m : M A) (k : A -> M B) :
  enqueues l1 m -> (forall a, enqueues l2 (k a)) ->
  enqueues (l1 ++ l2) (Session.bind m k).
Proof.
  intros Hm Hk st. unfold Session.bind.
  specialize (Hm st). destruct (m st) as [[a st1] log1].
  specialize (Hk a st1). destruct (k a st1) as [[b st2] log2].
  rewrite starts_app, enqueue_as_specified_app, <- Hm, <- Hk. reflexivity.
Qed.

Lemma enqueues_quiet {A B} (m : M A) (k : A -> M B) :
  enqueues [] m -> (forall a, enqueues [] (k a)) -> enqueues [] (Session.bind m k).
Proof. apply (enqueues_bind [] []). Qed.

Lemma enqueues_gets {A} (f : State -> A) : enqueues [] (Session.gets f).
Proof. intros st. reflexivity. Qed.

Lemma enqueues_modify (f : State -> State) :
  (forall st, nextStartTime (f st) = nextStartTime st) ->
  enqueues [] (Session.modify f).
Proof. intros Hf st. cbn. now rewrite Hf. Qed.

Lemma enqueues_emit (e : Effect) :
  starts [e] = [] -> enqueues [] (Session.emit e).
Proof. intros He st. cbn [Session.emit]. now rewrite He. Qed.

Lemma enqueues_call (cb : Callback) : enqueues [] (Session.call cb).
Proof. intros st. reflexivity. Qed.

Lemma enqueues_when (b : bool) (m : M unit) :
  enqueues [] m -> enqueues [] (Session.when b m).
Proof. intros Hm. destruct b; [exact Hm|apply enqueues_ret]. Qed.

Lemma enqueues_forEach {A} (frames : A -> list (T * AudioBuffer))
    (l : list A) (body : A -> M unit) :
  (forall a, enqueues (frames a) (body a)) ->
  enqueues (flat_map frames l) (Session.forEach l body).
Proof.
  intros Hb. induction l as [|a l IH]; cbn [Session.forEach flat_map].
  - apply enqueues_ret.
  - apply enqueues_bind; [apply Hb|intros _; exact IH].
Qed.

(** [schedule] is the one place where a source is started: the start is the
    maximum of [nextStartTime] and the clock reading, and [nextStartTime]
    becomes that start plus the duration. *)
Lemma enqueues_schedule (audioBuffer : AudioBuffer) (now : T) :
  enqueues [(now, audioBuffer)] (Session.schedule (Txt := Txt) audioBuffer now).
Proof. intros st. unfold Session.schedule. unfold_m. cbn. reflexivity. Qed.

Lemma schedule_exec (audioBuffer : AudioBuffer) (now : T) (st : State) :
  let start := tmax (nextStartTime st) now in
  exists st',
    Session.exec (Session.schedule (Txt := Txt) audioBuffer now) st
      = (st', [SourceStart (sourcesCreated st) start audioBuffer])
    /\ nextStartTime st' = tplus start (Session.duration audioBuffer).
Proof.
  cbn zeta. eexists. unfold Session.schedule. unfold_m. cbn. split; reflexivity.
Qed.

Ltac quiet_auto :=
  repeat first
    [ apply enqueues_ret
    | apply enqueues_gets
    | apply enqueues_call
    | apply enqueues_modify; intros []; reflexivity
    | apply enqueues_emit; reflexivity
    | apply enqueues_when
    | apply enqueues_quiet; [|intros ?] ].

Lemma enqueues_handlePart (part : Part T) :
  enqueues (framesOfPart part) (Session.handlePart (Txt := Txt) part).
Proof.
  unfold Session.handlePart, framesOfPart.
  apply (enqueues_bind []).
  - destruct (text part); quiet_auto.
  - intros _. destruct (inlineData part) as [audioData|]; [|quiet_auto].
    destruct (nonEmpty audioData); [|quiet_auto]. cbn [Session.when].
    apply (enqueues_bind []); [quiet_auto|intros speaking].
    apply (enqueues_bind []); [quiet_auto|intros _].
    destruct (decodeChunk audioData); [quiet_auto|apply enqueues_schedule].
Qed.

Lemma enqueues_step (op : Session.Op T Txt) :
  keepsQueue op = true -> enqueues (framesOfOp op) (Session.step op).
Proof.
  destruct op as [message|source|inputData now| | | | |t| |];
    cbn [keepsQueue Session.step framesOfOp]; intros Hk; try discriminate.
  - unfold Session.handleMessage.
    destruct (interrupted message); [discriminate|]. cbn [orb].
    destruct (turnComplete message); [quiet_auto|].
    destruct (modelTurnParts message) as [parts|]; [|quiet_auto].
    apply enqueues_forEach, enqueues_handlePart.
  - unfold Session.sourceEnded. quiet_auto.
  - unfold Session.onaudioprocess. quiet_auto.
    destruct (_ || _); quiet_auto.
  - quiet_auto.
  - quiet_auto.
  - unfold Session.sendText. quiet_auto. destruct a; quiet_auto.
  - unfold Session.muteMic. quiet_auto.
  - unfold Session.unmuteMic. quiet_auto.
Qed.

Lemma enqueues_run (ops : list (Session.Op T Txt)) :
  forallb keepsQueue ops = true ->
  enqueues (enqueuedFrames ops) (Session.run ops).
Proof.
  unfold Session.run, enqueuedFrames.
  induction ops as [|op ops IH]; cbn [forallb Session.forEach flat_map]; intros Hk.
  - apply enqueues_ret.
  - apply andb_true_iff in Hk. destruct Hk as [Hop Hops].
    apply enqueues_bind; [now apply enqueues_step|intros _; now apply IH].
Qed.

Lemma enqueue_as_specified_noOverlap (t : T) (frames : list (T * AudioBuffer)) :
  noOverlap (fst (enqueue_as_specified t frames)).
Proof.
  revert t. induction frames as [|[now frame] frames IH]; intros t;
    cbn [enqueue_as_specified]; [exact I|].
  specialize (IH (tplus (tmax t now) (Session.duration frame))).
  destruct frames as [|[now2 frame2] frames].
  - cbn. auto.
  - cbn [enqueue_as_specified] in *.
    destruct (enqueue_as_specified _ frames) as [started last].
    cbn [fst noOverlap] in *. split; [|exact IH]. apply tmax_l.
Qed.

(** C3 (amended): along any run in which the queue is not cleared (no
    [clearAudio], no [stop], no interrupted message), from any state, the
    sources started are those of the audio chunks that decode, one each and
    in order; each starts at the maximum of the running [nextStartTime] and
    the clock reading of its part, [nextStartTime] then advances by its
    duration, exactly as the specification's [enqueue] says; and so each
    source starts no earlier than its predecessor's start plus the
    predecessor's duration. *)
Theorem playback_never_overlaps (ops : list (Session.Op T Txt)) (st : State) :
  forallb keepsQueue ops = true ->
  forall (st' : State) (log : list Effect),
    Session.exec (Session.run ops) st = (st', log) ->
    (starts log, nextStartTime st')
    = enqueue_as_specified (nextStartTime st) (enqueuedFrames ops)
    /\ noOverlap (starts log).
Proof.
  intros Hops st' log Hrun.
  pose proof (enqueues_run ops Hops st) as Hs.
  unfold Session.exec in Hrun.
  destruct (Session.run ops st) as [[u st1] log1].
  inversion Hrun; subst.
  split; [exact Hs|].
  pose proof (enqueue_as_specified_noOverlap (nextStartTime st) (enqueuedFrames ops)) as Hn.
  now rewrite <- Hs in Hn.
Qed.

(** *** The capture callback *)

Lemma sample_frames_against_threshold :
  rmsExceedsThreshold loudFrame = true /\ rmsExceedsThreshold quietFrame = false
  /\ rmsExceedsThreshold [] = false.
Proof. repeat split. Qed.

(** The test is the one the doubles compute.  A frame of four samples whose
    sampled value is the double 0.02 (a little above 2/100) has an exact root
    mean square above 2/100; but its square is rounded, the square root of
    that is the double 0.02 again, and [0.02 > 0.02] is false. *)
Lemma rounding_decides_at_the_threshold :
  let x := (5764607523034235 # 288230376151711744)%Q in
  (VAD_THRESHOLD < x)%Q
  /\ toNumber (FNum x) = binary64 VAD_THRESHOLD
  /\ rmsExceedsThreshold [FNum x; FNum 0; FNum 0; FNum 0] = false.
Proof. cbn zeta. split; [reflexivity|]. split; vm_compute; reflexivity. Qed.

Lemma onaudioprocess_gated (inputData : list float) (now : Z) (st : State) :
  stopped st || muted st = true ->
  Session.onaudioprocess (Txt := Txt) inputData now st = (tt, st, []).
Proof.
  intros Hg. unfold Session.onaudioprocess. unfold_m. now rewrite Hg.
Qed.

(** What one capture callback does while the microphone is open: the
    activity event needs a frame above threshold and more than 500 ms since
    the last event. *)
Lemma onaudioprocess_open (inputData : list float) (now : Z) (st : State) :
  stopped st = false -> muted st = false ->
  Session.exec (Session.onaudioprocess (Txt := Txt) inputData now) st
  = if rmsExceedsThreshold inputData && (500 <? now - lastActivityTime st)
    then (set_lastActivityTime now st,
          [Call onUserActivity (set_lastActivityTime now st);
           SendRealtimeInput (createPcmBlob inputData)])
    else (st, [SendRealtimeInput (createPcmBlob inputData)]).
Proof.
  intros Hs Hm. unfold Session.onaudioprocess. unfold_m. rewrite Hs, Hm. cbn.
  destruct (rmsExceedsThreshold inputData); cbn; [|reflexivity].
  destruct (500 <? now - lastActivityTime st); reflexivity.
Qed.

Lemma activityEvents_app (l1 l2 : list Effect) :
  activityEvents (l1 ++ l2) = (activityEvents l1 + activityEvents l2)%nat.
Proof.
  induction l1 as [|e l1 IH]; [reflexivity|]. cbn. rewrite IH. lia.
Qed.




(** *** The gate at the top of the capture callback *)

Lemma keeps_handleMessage (I : State -> Prop) (message : LiveServerMessage T) :
  (forall st v, I st -> I (set_activeSources v st)) ->
  (forall st v, I st -> I (set_nextStartTime v st)) ->
  (forall st v, I st -> I (set_isSpeaking v st)) ->
  (forall st v, I st -> I (set_sourcesCreated v st)) ->
  keeps I notCapture (Session.handleMessage (Txt := Txt) message).
Proof.
  intros H1 H2 H3 H4.
  assert (Hclear : keeps I notCapture (Session.clearAudio (Txt := Txt))).
  { unfold Session.clearAudio.
    repeat first
      [ apply keeps_gets | apply keeps_ret
      | apply keeps_call; intros ?; reflexivity
      | apply keeps_emit; reflexivity
      | apply keeps_modify; intros ? ?; auto
      | apply keeps_when
      | apply keeps_bind; [|intros ?]
      | apply keeps_forEach; intros ? ]. }
  unfold Session.handleMessage.
  destruct (interrupted message).
  { apply keeps_bind; [exact Hclear|intros _].
    apply keeps_call. intros ?. reflexivity. }
  destruct (turnComplete message).
  { apply keeps_call. intros ?. reflexivity. }
  destruct (modelTurnParts message) as [parts|]; [|apply keeps_ret].
  apply keeps_forEach. intros part. unfold Session.handlePart.
  apply keeps_bind.
  { destruct (text part); [|apply keeps_ret].
    apply keeps_when, keeps_call. intros ?. reflexivity. }
  intros _. destruct (inlineData part) as [audioData|]; [|apply keeps_ret].
  apply keeps_when.
  apply keeps_bind; [apply keeps_gets|intros speaking].
  apply keeps_bind.
  { apply keeps_when, keeps_bind; [apply keeps_modify; auto|intros _].
    apply keeps_call. intros ?. reflexivity. }
  intros _. destruct (decodeChunk audioData); [apply keeps_ret|].
  unfold Session.schedule.
  repeat first
    [ apply keeps_gets
    | apply keeps_emit; reflexivity
    | apply keeps_modify; intros ? ?; auto
    | apply keeps_bind; [|intros ?] ].
Qed.

Lemma keeps_step (I : State -> Prop) (op : Session.Op T Txt) :
  (forall st v, I st -> I (set_activeSources v st)) ->
  (forall st v, I st -> I (set_nextStartTime v st)) ->
  (forall st v, I st -> I (set_isSpeaking v st)) ->
  (forall st v, I st -> I (set_sourcesCreated v st)) ->
  (forall st, I st -> I (set_stopped true st)) ->
  (forall st, I st -> I (set_muted true st)) ->
  (forall st, I st -> stopped st || muted st = true) ->
  (isUnmute op = true -> forall st, I st -> I (set_muted false st)) ->
  keeps I notCapture (Session.step op).
Proof.
  intros H1 H2 H3 H4 H5 H6 Hgate Hun.
  assert (Hclear : keeps I notCapture (Session.clearAudio (Txt := Txt))).
  { unfold Session.clearAudio.
    repeat first
      [ apply keeps_gets | apply keeps_ret
      | apply keeps_call; intros ?; reflexivity
      | apply keeps_emit; reflexivity
      | apply keeps_modify; intros ? ?; auto
      | apply keeps_when
      | apply keeps_bind; [|intros ?]
      | apply keeps_forEach; intros ? ]. }
  destruct op as [message|source|inputData now| | | | |t| |];
    cbn [Session.step].
  - now apply keeps_handleMessage.
  - unfold Session.sourceEnded.
    repeat first
      [ apply keeps_gets
      | apply keeps_call; intros ?; reflexivity
      | apply keeps_modify; intros ? ?; auto
      | apply keeps_when
      | apply keeps_bind; [|intros ?] ].
  - intros st HI. rewrite onaudioprocess_gated by auto. auto.
  - apply keeps_call. intros ?. reflexivity.
  - apply keeps_call. intros ?. reflexivity.
  - exact Hclear.
  - unfold Session.stop.
    apply keeps_bind; [apply keeps_gets|intros isStopped].
    destruct isStopped; [apply keeps_ret|].
    apply keeps_bind; [apply keeps_modify; auto|intros _].
    apply keeps_bind; [exact Hclear|intros _].
    repeat first
      [ apply keeps_emit; reflexivity | apply keeps_bind; [|intros ?] ].
  - unfold Session.sendText.
    apply keeps_bind; [apply keeps_gets|intros isStopped].
    destruct isStopped; [apply keeps_ret|apply keeps_emit; reflexivity].
  - apply keeps_modify. auto.
  - apply keeps_modify. auto.
Qed.

(** While the microphone is muted and is not unmuted, or once the session
    is stopped, nothing a run does is an activity event or a frame sent. *)
Lemma gated_run_is_silent (ops : list (Session.Op T Txt)) (st : State) :
  (muted st = true /\ forallb (fun op => negb (isUnmute op)) ops = true)
  \/ stopped st = true ->
  Forall notCapture (snd (Session.exec (Session.run ops) st)).
Proof.
  intros [[Hm Hops]|Hs].
  - assert (Hk : keeps (fun st => muted st = true) notCapture (Session.run ops)).
    { unfold Session.run. revert Hops.
      induction ops as [|op ops IH]; intros Hops; cbn [Session.forEach].
      - apply keeps_ret.
      - cbn [forallb] in Hops. apply andb_true_iff in Hops as [Hop Hops].
        apply keeps_bind; [|intros _; now apply IH].
        apply keeps_step;
          [intros [] ?; auto ..
          |intros st0 ->; apply orb_true_r
          |intros Hu; rewrite Hu in Hop; discriminate]. }
    specialize (Hk st Hm). unfold Session.exec.
    destruct (Session.run ops st) as [[u st'] log]. apply Hk.
  - assert (Hk : keeps (fun st => stopped st = true) notCapture (Session.run ops)).
    { unfold Session.run. apply keeps_forEach. intros op.
      apply keeps_step;
        [intros [] ?; auto ..
        |intros st0 ->; reflexivity
        |intros _ [] ?; auto]. }
    specialize (Hk st Hs). unfold Session.exec.
    destruct (Session.run ops st) as [[u st'] log]. apply Hk.
Qed.

(** [stop]: nothing the second time; the first time the queue is cleared
    and everything is released, the session being closed last. *)
Lemma stop_exec (st : State) :
  Session.exec (Session.stop (Txt := Txt)) st
  = if stopped st then (st, [])
    else (cleared (set_stopped true st),
          snd (Session.exec (Session.clearAudio (Txt := Txt)) (set_stopped true st))
            ++ [ProcessorDisconnect; MicSourceDisconnect; StreamTracksStop;
                AudioContextClose; InputAudioContextClose; SessionClose]).
Proof.
  unfold Session.stop, Session.exec.
  unfold Session.bind at 1. cbn [Session.gets].
  destruct (stopped st) eqn:Hs; [reflexivity|].
  unfold Session.bind at 1. cbn [Session.modify].
  unfold Session.bind at 1.
  pose proof (clearAudio_exec (set_stopped true st)) as Hc.
  unfold Session.exec in Hc.
  destruct (Session.clearAudio (set_stopped true st)) as [[u st1] log1].
  inversion Hc; subst. reflexivity.
Qed.

Lemma run_cons (op : Session.Op T Txt) (ops : list (Session.Op T Txt)) (st : State) :
  Session.exec (Session.run (op :: ops)) st
  = let '(st1, log1) := Session.exec (Session.step op) st in
    let '(st2, log2) := Session.exec (Session.run ops) st1 in
    (st2, log1 ++ log2).
Proof.
  unfold Session.run, Session.exec. cbn [Session.forEach].
  unfold Session.bind at 1.
  destruct (Session.step op st) as [[u st1] log1].
  destruct (Session.forEach ops Session.step st1) as [[u2 st2] log2]. reflexivity.
Qed.

(** After [muteMic], until an [unmuteMic], and after [stop], for good, a run
    raises no activity event and sends no frame. *)
Lemma silent_after_mute_or_stop (ops : list (Session.Op T Txt)) (st : State) :
  (forallb (fun op => negb (isUnmute op)) ops = true ->
   Forall notCapture (snd (Session.exec (Session.run (OpMuteMic :: ops)) st)))
  /\ Forall notCapture (snd (Session.exec (Session.run (OpStop :: ops)) st)).
Proof.
  split.
  - intros Hops. rewrite run_cons. cbn [Session.step].
    change (Session.exec Session.muteMic st) with (set_muted true st, @nil Effect).
    cbv beta iota.
    pose proof (gated_run_is_silent ops (set_muted true st)
                  (or_introl (conj eq_refl Hops))) as Hq.
    destruct (Session.exec (Session.run ops) (set_muted true st)). exact Hq.
  - rewrite run_cons. cbn [Session.step]. rewrite stop_exec.
    destruct (stopped st) eqn:Hs; cbv beta iota.
    + pose proof (gated_run_is_silent ops st (or_intror Hs)) as Hq.
      destruct (Session.exec (Session.run ops) st). exact Hq.
    + pose proof (gated_run_is_silent ops (cleared (set_stopped true st))
                    (or_intror eq_refl)) as Hq.
      destruct (Session.exec (Session.run ops) _) as [st2 log2].
      cbn [snd] in *. apply Forall_app. split; [|exact Hq].
      rewrite clearAudio_exec. cbn [snd]. apply Forall_app. split.
      * apply Forall_app. split.
        -- apply Forall_forall. intros e He.
           apply list_elem_of_In, in_map_iff in He. destruct He as [s [<- _]].
           reflexivity.
        -- destruct (isSpeaking _); repeat constructor.
      * repeat constructor.
Qed.

End WithTimeLine.

Lemma interrupted_clears_before_forwarding_witness :
  exists (st' : Session.State Q) (clearing : list (Session.Effect Q string)),
    Session.exec Session.clearAudio
      (mkState false false (3 # 2)%Q true [4; 7]%nat 8 0) = (st', clearing) /\
    Session.exec (Session.handleMessage (mkMessage true false None))
      (mkState false false (3 # 2)%Q true [4; 7]%nat 8 0)
      = (st', clearing ++ [Call onInterrupted st']) /\
    (forall s, s ∈ [4; 7]%nat -> SourceStop s ∈ clearing) /\
    Forall (fun e => forall seen, e <> Call onInterrupted seen) clearing /\
    activeSources st' = [] /\ nextStartTime st' = 0%Q /\ isSpeaking st' = false.
Proof.
  exact (interrupted_clears_before_forwarding (T := Q) (Txt := string)
           (mkMessage true false None)
           (mkState false false (3 # 2)%Q true [4; 7]%nat 8 0) eq_refl).
Defined.


Lemma playback_never_overlaps_witness :
  let audio (data : string) (now : Q) : Session.Op Q string :=
    OpMessage (mkMessage false false (Some [mkPart None (Some data) now])) in
  let ops := [audio "AED//w=="%string (1 # 2)%Q;
              OpEnded 0;
              audio "AEA="%string (1 # 4)%Q] in
  let result := Session.exec (Session.run ops) Session.initial in
  (starts (snd result), nextStartTime (fst result))
  = enqueue_as_specified 0%Q (enqueuedFrames ops)
  /\ noOverlap (starts (snd result)).
Proof.
  intros audio ops result.
  refine (playback_never_overlaps (T := Q) (Txt := string) ops Session.initial
            _ (fst result) (snd result) _).
  - vm_compute. reflexivity.
  - apply surjective_pairing.
Defined.

(** C3, the claim as stated fails across an interruption.  Two chunks of
    one frame each are enqueued at clock 1, the second to start at
    1 + 1/24000; the model is interrupted, which clears the queue; the next
    chunk arrives at clock 1 + 1/48000 and starts there, before the start of
    the second chunk plus its duration. *)
Lemma playback_restarts_after_interruption :
  let chunk (now : Q) : Part Q := mkPart None (Some "AEA="%string) now in
  let ops : list (Session.Op Q string) :=
    [OpMessage (mkMessage false false (Some [chunk 1%Q; chunk 1%Q]));
     OpMessage (mkMessage true false None);
     OpMessage (mkMessage false false (Some [chunk (48001 # 48000)%Q]))] in
  let log := snd (Session.exec (Session.run ops) Session.initial) in
  map fst (starts log) = [1%Q; (24001 # 24000)%Q; (48001 # 48000)%Q]
  /\ map (fun s => Session.duration (snd s)) (starts log)
     = [(1 # 24000)%Q; (1 # 24000)%Q; (1 # 24000)%Q]
  /\ ~ noOverlap (starts log).
Proof.
  intros chunk ops log.
  set (frame := mkAudioBuffer 1 24000 [[FNum (16384 # 32768)]]).
  assert (E : starts log
              = [(1%Q, frame); ((24001 # 24000)%Q, frame);
                 ((48001 # 48000)%Q, frame)])
    by (vm_compute; reflexivity).
  rewrite E. split; [reflexivity|]. split; [vm_compute; reflexivity|].
  intros (_ & Hno & _). revert Hno. vm_compute. intros Hno. apply Hno. reflexivity.
Qed.


End SessionFacts.

(** * Properties of session start *)

Module ConnectFacts.
Import Connect.

(** [LiveClient.connect] cleans up after itself: whichever of the two
    awaits rejects, the error is rethrown, both contexts are closed, the
    captured stream (if any) is stopped and the client's fields are null. *)
Lemma LiveClient_connect_failure_releases (env : Environment) :
  microphoneGranted env && handshakeSucceeds env = false ->
  exists (e : StartError) (b : Browser),
    LiveClient.connect env LiveClient.created pristine
      = (Some e, LiveClient.created, b)
    /\ e = (if microphoneGranted env then HandshakeRejected else MicrophoneRejected)
    /\ released b = true
    /\ length (audioContexts b) = 2%nat.
Proof.
  destruct env as [[|] [|]]; cbn; intros Hf; try discriminate;
    eexists; eexists; repeat split.
Qed.

(** C9, at the failing inputs: when the microphone is refused,
    [startGeminiVoice] rejects with both audio contexts still running; when
    the handshake fails, with both contexts running and the microphone live.
    Its caller [startVoiceTutor] swallows the error and has no handle to stop,
    so nothing is released afterwards either. *)
Theorem startGeminiVoice_leaks_on_failure :
  GeminiVoice.startGeminiVoice (mkEnvironment false true) pristine
    = (inl MicrophoneRejected, mkBrowser [Running; Running] [] [])
  /\ GeminiVoice.startGeminiVoice (mkEnvironment true false) pristine
    = (inl HandshakeRejected, mkBrowser [Running; Running] [Live] [])
  /\ GeminiVoice.startVoiceTutor (mkEnvironment false true) pristine
    = (None, mkBrowser [Running; Running] [] [])
  /\ GeminiVoice.startVoiceTutor (mkEnvironment true false) pristine
    = (None, mkBrowser [Running; Running] [Live] [])
  /\ released (mkBrowser [Running; Running] [] []) = false
  /\ released (mkBrowser [Running; Running] [Live] []) = false.
Proof. repeat split. Qed.

End ConnectFacts.

(** * Properties of the lecture state machine *)

Module AutoTutorFacts.
Import AutoTutor.

Section WithTimeLine.
Context {T : Type} `{TimeLine T}.

Abbreviation Tutor := (AutoTutor.Tutor T).
Abbreviation Effect := (Session.Effect T Prompt).

Ltac lecture_split :=
  repeat match goal with
         | H : sameLecture _ _ |- _ =>
             destruct H as (? & ? & ? & ? & ? & ? & ? & ? & ? & ? & ? & ? & ?)
         end.

Ltac lecture_auto :=
  lecture_split; unfold sameLecture; cbn; repeat split; congruence.

Lemma sameLecture_refl (t : Tutor) : sameLecture t t.
Proof. lecture_auto. Qed.

Lemma sameLecture_trans (t1 t2 t3 : Tutor) :
  sameLecture t1 t2 -> sameLecture t2 t3 -> sameLecture t1 t3.
Proof. intros ? ?. lecture_auto. Qed.

Lemma sameLecture_noteEffect (e : Effect) (t : Tutor) :
  sameLecture t (noteEffect e t)
  /\ realtimeRef (noteEffect e t) = realtimeRef t
  /\ outputs (noteEffect e t) = outputs t ++ [e].
Proof.
  destruct e as [| |cb seen| | | | | | | |]; try (repeat split; fail).
  destruct cb; repeat split.
Qed.

Lemma sameLecture_notes (log : list Effect) (t : Tutor) :
  let t' := foldl (fun t e => noteEffect e t) t log in
  sameLecture t t' /\ realtimeRef t' = realtimeRef t
  /\ outputs t' = outputs t ++ log.
Proof.
  revert t. induction log as [|e log IH]; intros t; cbn [foldl].
  - cbn zeta. rewrite app_nil_r. split; [apply sameLecture_refl|]. split; reflexivity.
  - destruct (sameLecture_noteEffect e t) as (S1 & R1 & O1).
    destruct (IH (noteEffect e t)) as (S2 & R2 & O2). cbn zeta in *.
    split; [eapply sameLecture_trans; eassumption|].
    split; [congruence|]. rewrite O2, O1, <- app_assoc. reflexivity.
Qed.

(** Calling a method of the handle: the session moves on, its effects are
    logged, the lecture is untouched. *)
Lemma onHandle_session (method : Session.M T Prompt unit) (t : Tutor)
    (session : Session.State T) :
  realtimeRef t = Some session ->
  sameLecture t (onHandle method t)
  /\ realtimeRef (onHandle method t) = Some (fst (Session.exec method session))
  /\ outputs (onHandle method t) = outputs t ++ snd (Session.exec method session).
Proof.
  intros Hr. unfold onHandle. rewrite Hr.
  destruct (Session.exec method session) as [session' log].
  destruct (sameLecture_notes log (set_realtimeRef (Some session') t))
    as (S1 & R1 & O1).
  cbn zeta in *. cbn [fst snd]. split; [|split; assumption].
  eapply sameLecture_trans; [|exact S1]. lecture_auto.
Qed.

Lemma onHandle_none (method : Session.M T Prompt unit) (t : Tutor) :
  realtimeRef t = None -> onHandle method t = t.
Proof. intros Hr. unfold onHandle. now rewrite Hr. Qed.

Lemma sameLecture_onHandle (method : Session.M T Prompt unit) (t : Tutor) :
  sameLecture t (onHandle method t).
Proof.
  destruct (realtimeRef t) as [session|] eqn:Hr.
  - apply (onHandle_session method t session Hr).
  - rewrite onHandle_none by assumption. apply sameLecture_refl.
Qed.

Lemma stopAudioPlayback_session (t : Tutor) (session : Session.State T) :
  realtimeRef t = Some session ->
  sameLecture t (stopAudioPlayback t)
  /\ realtimeRef (stopAudioPlayback t) = Some (Session.cleared session)
  /\ outputs (stopAudioPlayback t)
     = outputs t ++ snd (Session.exec Session.clearAudio session).
Proof.
  intros Hr. unfold stopAudioPlayback, block. cbn [foldl].
  destruct (onHandle_session Session.clearAudio t session Hr) as (S1 & R1 & O1).
  rewrite SessionFacts.clearAudio_exec in R1. cbn [fst] in R1.
  split; [|split; assumption].
  eapply sameLecture_trans; [exact S1|]. lecture_auto.
Qed.

Lemma sameLecture_stopAudioPlayback (t : Tutor) :
  sameLecture t (stopAudioPlayback t).
Proof.
  unfold stopAudioPlayback, block. cbn [foldl].
  eapply sameLecture_trans; [apply sameLecture_onHandle|]. lecture_auto.
Qed.

Lemma sendTextToTutor_session (text : Prompt) (t : Tutor)
    (session : Session.State T) :
  realtimeRef t = Some session -> Session.stopped session = false ->
  sameLecture t (sendTextToTutor text t)
  /\ realtimeRef (sendTextToTutor text t) = Some session
  /\ outputs (sendTextToTutor text t)
     = outputs t ++ [Session.SendClientContent text].
Proof.
  intros Hr Hs. unfold sendTextToTutor, block. rewrite Hr. cbn [foldl].
  destruct (onHandle_session (Session.sendText text)
              (set_subtitlesText EmptyString t) session Hr) as (S1 & R1 & O1).
  assert (E : Session.exec (Session.sendText text) session
              = (session, [Session.SendClientContent text])).
  { unfold Session.sendText, Session.exec, Session.bind, Session.gets.
    rewrite Hs. reflexivity. }
  rewrite E in R1, O1. cbn [fst snd] in *.
  split; [|split; assumption].
  eapply sameLecture_trans; [|exact S1]. lecture_auto.
Qed.

Lemma sameLecture_sendTextToTutor (text : Prompt) (t : Tutor) :
  sameLecture t (sendTextToTutor text t).
Proof.
  unfold sendTextToTutor, block. destruct (realtimeRef t); [|apply sameLecture_refl].
  cbn [foldl]. eapply sameLecture_trans; [|apply sameLecture_onHandle].
  lecture_auto.
Qed.

Lemma clearTimeoutOf_eq (ref : Tutor -> option nat) (t : Tutor) :
  clearTimeoutOf ref t = set_timers (cancelled (ref t) (timers t)) t.
Proof.
  unfold clearTimeoutOf, cancelled, clearTimeout.
  destruct (ref t); [reflexivity|]. now destruct t.
Qed.

Lemma cancelled_gone (h : nat) (pending : list Timer) (tm : Timer) :
  tm ∈ cancelled (Some h) pending -> handle tm <> h.
Proof. cbn. intros Hin. now apply list_elem_of_filter in Hin. Qed.

(** [explainCurrentSlide] on a slide that exists. *)
Lemma explainCurrentSlide_slide (t : Tutor) (slide : SlideData) :
  slidesRef t !! currentSlideIndexRef t = Some slide ->
  let t' := explainCurrentSlide t in
  tutorState t' = auto_explaining /\
  timers t' = timers t /\
  currentSlideIndex t' = currentSlideIndex t /\
  currentSlideIndexRef t' = currentSlideIndexRef t /\
  (forall session, realtimeRef t = Some session ->
     Session.stopped session = false ->
     realtimeRef t' = Some session /\
     outputs t' = outputs t ++
       [Session.SendClientContent
          (SlideContent (currentSlideIndexRef t) (length (slidesRef t)) slide)]).
Proof.
  intros Hslide. cbn zeta. unfold explainCurrentSlide. rewrite Hslide.
  unfold block. cbn [foldl].
  set (t1 := clearSubtitles (set_tutorState auto_explaining t)).
  set (p := SlideContent _ _ _).
  pose proof (sameLecture_sendTextToTutor p t1) as S1.
  assert (S0 : tutorState t1 = auto_explaining /\ timers t1 = timers t
               /\ currentSlideIndex t1 = currentSlideIndex t
               /\ currentSlideIndexRef t1 = currentSlideIndexRef t)
    by (repeat split).
  destruct S0 as (A & B & C & D).
  split; [|split; [|split; [|split]]]; try (lecture_split; congruence).
  intros session Hr Hs.
  destruct (sendTextToTutor_session p t1 session Hr Hs) as (_ & R & O).
  split; assumption.
Qed.

Lemma lookup_in_range (slides : list SlideData) (index : nat) (slide : SlideData) :
  slides !! index = Some slide ->
  (Z.of_nat index <? 0) || (Z.of_nat (length slides) <=? Z.of_nat index) = false.
Proof.
  intros Hl. apply lookup_lt_Some in Hl.
  apply orb_false_iff. split; [apply Z.ltb_ge|apply Z.leb_gt]; lia.
Qed.

(** What [goToSlide] runs when the index is valid and a lecture is on. *)
Lemma goToSlide_unfolded (t : Tutor) (index : nat) (slide : SlideData) :
  slidesRef t !! index = Some slide ->
  isAutoModeRef t = true ->
  stateRef t <> idle ->
  goToSlide (Z.of_nat index) t
  = explainCurrentSlide
      (stopAudioPlayback
         (clearSubtitles
            (set_currentSlideIndexRef index
               (set_currentSlideIndex index
                  (set_timers (cancelled (advanceTimerRef t) (timers t)) t))))).
Proof.
  intros Hslide Hauto Hstate.
  unfold goToSlide. rewrite (lookup_in_range _ _ _ Hslide).
  unfold block. cbn [foldl]. rewrite clearTimeoutOf_eq, Nat2Z.id.
  cbn [isAutoModeRef stateRef set_currentSlideIndexRef set_currentSlideIndex
       set_timers].
  rewrite Hauto, (bool_decide_eq_false_2 (stateRef t = idle)) by exact Hstate.
  reflexivity.
Qed.

(** C8 (amended): [goToSlide] with a valid index while auto-lecturing (auto
    mode on, state not idle) cancels the pending advance timer and starts no
    other, clears the playback of the session and at once asks for the
    narration of the target slide; it sets the state to [auto_explaining], so
    the state is unchanged exactly when it was [auto_explaining] before. *)
Theorem goToSlide_restarts_narration (t : Tutor) (index : nat) (slide : SlideData) :
  slidesRef t !! index = Some slide ->
  isAutoModeRef t = true ->
  stateRef t <> idle ->
  let t' := goToSlide (Z.of_nat index) t in
  tutorState t' = auto_explaining /\
  (tutorState t' = tutorState t <-> tutorState t = auto_explaining) /\
  currentSlideIndex t' = index /\
  currentSlideIndexRef t' = index /\
  timers t' = cancelled (advanceTimerRef t) (timers t) /\
  (forall session,
     realtimeRef t = Some session -> Session.stopped session = false ->
     exists session',
       realtimeRef t' = Some session' /\
       Session.activeSources session' = [] /\
       Session.nextStartTime session' = tzero /\
       outputs t'
       = outputs t
           ++ snd (Session.exec Session.clearAudio session)
           ++ [Session.SendClientContent
                 (SlideContent index (length (slidesRef t)) slide)]).
Proof.
  intros Hslide Hauto Hstate. cbn zeta.
  rewrite (goToSlide_unfolded t index slide Hslide Hauto Hstate).
  set (t1 := set_currentSlideIndexRef index
               (set_currentSlideIndex index
                  (set_timers (cancelled (advanceTimerRef t) (timers t)) t))).
  set (t2 := clearSubtitles t1).
  pose proof (sameLecture_stopAudioPlayback t2) as S3.
  set (t3 := stopAudioPlayback t2) in *.
  assert (Hs3 : slidesRef t3 !! currentSlideIndexRef t3 = Some slide).
  { lecture_split.
    replace (slidesRef t3) with (slidesRef t) by (symmetry; assumption).
    replace (currentSlideIndexRef t3) with index by (symmetry; assumption).
    exact Hslide. }
  destruct (explainCurrentSlide_slide t3 slide Hs3) as (E1 & E2 & E3 & E4 & E5).
  cbn zeta in *.
  assert (Ht : tutorState (explainCurrentSlide t3) = auto_explaining) by exact E1.
  assert (F2 : currentSlideIndex t2 = index /\ currentSlideIndexRef t2 = index
               /\ timers t2 = cancelled (advanceTimerRef t) (timers t))
    by (repeat split).
  destruct F2 as (F21 & F22 & F23).
  split; [exact Ht|]. split; [rewrite Ht; split; congruence|].
  split; [lecture_split; congruence|].
  split; [lecture_split; congruence|].
  split; [lecture_split; congruence|].
  intros session Hr Hstop.
  destruct (stopAudioPlayback_session t2 session Hr) as (_ & R3 & O3).
  fold t3 in R3, O3.
  destruct (E5 (Session.cleared session) R3 Hstop) as (R4 & O4).
  exists (Session.cleared session).
  split; [exact R4|]. split; [reflexivity|]. split; [reflexivity|].
  rewrite O4, O3. lecture_split.
  replace (currentSlideIndexRef t3) with index by (symmetry; assumption).
  replace (slidesRef t3) with (slidesRef t) by (symmetry; assumption).
  now rewrite <- app_assoc.
Qed.

(** [stopAutoExplain] does reach [idle]: auto mode is off, the two timers
    held in refs are cancelled, the handle is dropped, and a live session is
    closed. *)
Lemma stopAutoExplain_reaches_idle (t : Tutor) :
  let t' := stopAutoExplain t in
  tutorState t' = idle /\
  isAutoMode t' = false /\
  realtimeRef t' = None /\
  timers t'
  = cancelled (researchTimerRef t) (cancelled (advanceTimerRef t) (timers t)) /\
  (forall session,
     realtimeRef t = Some session -> Session.stopped session = false ->
     Session.SessionClose ∈ outputs t').
Proof.
  cbn zeta. unfold stopAutoExplain, block. cbn [foldl].
  rewrite !clearTimeoutOf_eq.
  set (t1 := set_tutorState idle (set_isAutoMode false _)).
  assert (F1 : tutorState t1 = idle /\ isAutoMode t1 = false
               /\ timers t1 = cancelled (researchTimerRef t)
                                (cancelled (advanceTimerRef t) (timers t))
               /\ realtimeRef t1 = realtimeRef t)
    by (repeat split).
  destruct F1 as (F11 & F12 & F13 & F14).
  pose proof (sameLecture_stopAudioPlayback t1) as S2.
  pose proof (stopAudioPlayback_session t1) as P2.
  set (t2 := stopAudioPlayback t1) in *.
  set (t3 := set_visualOverlay None _).
  assert (S3 : sameLecture t2 t3) by lecture_auto.
  assert (F3 : realtimeRef t3 = realtimeRef t2) by reflexivity.
  unfold stopVoiceTutor, block. cbn [foldl].
  pose proof (sameLecture_onHandle Session.stop t3) as S4.
  pose proof (onHandle_session Session.stop t3) as P4.
  set (t4 := onHandle Session.stop t3) in *.
  clearbody t4 t3 t2 t1.
  cbn. lecture_split. repeat split; try congruence.
  intros session Hr Hs.
  rewrite <- F14 in Hr. destruct (P2 session Hr) as (_ & R2 & _).
  rewrite <- F3 in R2. destruct (P4 _ R2) as (_ & _ & O4).
  rewrite O4, SessionFacts.stop_exec. cbn [Session.cleared Session.stopped].
  rewrite Hs. cbn [snd]. rewrite !elem_of_app. right. right.
  rewrite !elem_of_cons. auto 10.
Qed.

(** The timer bodies that look at the state first do nothing in [idle]. *)
Lemma guarded_timers_respect_idle (cb : TimerCallback) (t : Tutor) :
  stateRef t = idle ->
  match cb with CloseVisual | ExplainSlide => False | _ => True end ->
  tutorState (timerBody cb t) = tutorState t.
Proof.
  intros Hidle Hcb.
  destruct cb as [nextIndex| | | |subtitles|]; try contradiction;
    unfold timerBody; cbn; rewrite Hidle; reflexivity.
Qed.

(** During visual generation the lecture mutes the microphone. *)
Lemma visual_request_mutes (t : Tutor) (session : Session.State T)
    (recentText : string) (currentSlide : SlideData) :
  realtimeRef t = Some session ->
  let t' := resume (AwaitQuestionType recentText currentSlide)
                   (QuestionTypeIs visual_request) t in
  tutorState t' = visual_explaining /\
  isVisualGeneratingRef t' = true /\
  exists session', realtimeRef t' = Some session'
                   /\ Session.muted session' = true.
Proof.
  intros Hr. cbn zeta. unfold resume, block. cbn [foldl].
  unfold muteMic, block. cbn [foldl].
  set (t1 := set_tutorState visual_explaining t).
  destruct (onHandle_session Session.muteMic t1 session Hr) as (S1 & R1 & _).
  set (t2 := onHandle Session.muteMic t1) in *.
  set (t3 := set_showVisualOverlay true _).
  assert (F3 : tutorState t3 = tutorState t2 /\ isVisualGeneratingRef t3 = true
               /\ realtimeRef t3 = realtimeRef t2) by (repeat split).
  destruct F3 as (F31 & F32 & R3).
  assert (F1 : tutorState t1 = visual_explaining) by reflexivity.
  pose proof (sameLecture_sendTextToTutor VisualPleaseWait t3) as S4.
  assert (R4 : exists session',
             realtimeRef (sendTextToTutor VisualPleaseWait t3) = Some session'
             /\ Session.muted session' = true).
  { rewrite R1 in R3. cbn [fst Session.exec Session.muteMic Session.modify] in R3.
    unfold sendTextToTutor, block. rewrite R3. cbn [foldl].
    destruct (onHandle_session (Session.sendText VisualPleaseWait)
                (set_subtitlesText EmptyString t3) _ R3) as (_ & R5 & _).
    eexists. split; [exact R5|].
    unfold Session.sendText, Session.exec, Session.bind, Session.gets.
    cbn. destruct (Session.stopped session); reflexivity. }
  set (t4 := sendTextToTutor VisualPleaseWait t3) in *.
  clearbody t4 t3 t2 t1.
  cbn. lecture_split. split; [congruence|]. split; [congruence|exact R4].
Qed.

(** With the session muted (or stopped) a captured frame changes nothing at
    all, in the session or in the lecture. *)
Lemma muted_frame_is_ignored (t : Tutor) (session : Session.State T)
    (inputData : list float) (now : Z) :
  realtimeRef t = Some session ->
  Session.stopped session || Session.muted session = true ->
  handle_event (SessionDoes (Session.OpAudioProcess inputData now)) t = t.
Proof.
  intros Hr Hg. cbn [handle_event]. unfold sessionDoes. rewrite Hr.
  cbn [Session.fromEnvironment Session.step].
  unfold Session.exec. rewrite SessionFacts.onaudioprocess_gated by assumption.
  cbn [foldl]. destruct t. cbn in *. now subst.
Qed.

(** C10: with [muted] (or [stopped]) set, the capture callback returns at
    once, before the VAD check and before encoding; so from [muteMic] until an
    [unmuteMic], and after [stop] for good, no activity event is raised and no
    frame is sent.  The classification of a visual request mutes the
    microphone, and a frame captured while it is muted leaves the lecture as
    it is. *)
Theorem muted_microphone_is_silent :
  (forall (st : Session.State T) (inputData : list float) (now : Z),
     Session.stopped st || Session.muted st = true ->
     Session.onaudioprocess (Txt := Prompt) inputData now st = (tt, st, [])) /\
  (forall (st : Session.State T) (ops : list (Session.Op T Prompt)),
     forallb (fun op => negb (Session.isUnmute op)) ops = true ->
     Forall (fun e => Session.isCaptureOutput e = false)
            (snd (Session.exec (Session.run (Session.OpMuteMic :: ops)) st))) /\
  (forall (st : Session.State T) (ops : list (Session.Op T Prompt)),
     Forall (fun e => Session.isCaptureOutput e = false)
            (snd (Session.exec (Session.run (Session.OpStop :: ops)) st))) /\
  (forall (t : Tutor) (session : Session.State T)
          (recentText : string) (currentSlide : SlideData),
     realtimeRef t = Some session ->
     let t' := resume (AwaitQuestionType recentText currentSlide)
                      (QuestionTypeIs visual_request) t in
     tutorState t' = visual_explaining /\
     exists session', realtimeRef t' = Some session'
                      /\ Session.muted session' = true) /\
  (forall (t : Tutor) (session : Session.State T)
          (inputData : list float) (now : Z),
     realtimeRef t = Some session ->
     Session.muted session = true ->
     handle_event (SessionDoes (Session.OpAudioProcess inputData now)) t = t).
Proof.
  split; [|split; [|split; [|split]]].
  - intros st inputData now. apply SessionFacts.onaudioprocess_gated.
  - intros st ops. apply (SessionFacts.silent_after_mute_or_stop ops st).
  - intros st ops. apply (SessionFacts.silent_after_mute_or_stop ops st).
  - intros t session recentText currentSlide Hr.
    destruct (visual_request_mutes t session recentText currentSlide Hr)
      as (A & _ & B).
    split; assumption.
  - intros t session inputData now Hr Hm.
    apply (muted_frame_is_ignored t session); [assumption|].
    rewrite Hm. apply orb_true_r.
Qed.

End WithTimeLine.

(** C1, at the failing input: a lecture is started and stopped within the
    second that precedes its first explanation.  The stop reaches [idle], but
    the timer set by the connection effect is still pending, and when it
    fires [explainCurrentSlide] puts the state back to [auto_explaining]. *)
Theorem stale_timer_moves_state_after_stop :
  let started := run lectureStarting (initial (T := Q)) in
  let stopped := step StopAutoExplain started in
  reachable started /\
  tutorState started = auto_explaining /\
  tutorState stopped = idle /\
  timers stopped = [mkTimer 1 1000 ExplainSlide] /\
  tutorState (step (TimerFires 1) stopped) = auto_explaining.
Proof.
  cbn zeta. split; [now exists lectureStarting|].
  vm_compute. repeat split.
Qed.

(** The same with the timer that closes the visual overlay: stopping within
    the second after the visual's explanation leaves that timer pending, and
    it moves the stopped lecture to [waiting_to_resume]. *)
Lemma visual_close_timer_moves_state_after_stop :
  let showing := run lectureShowingVisual (initial (T := Q)) in
  let stopped := step StopAutoExplain showing in
  tutorState showing = visual_explaining /\
  tutorState stopped = idle /\
  timers stopped = [mkTimer 5 1000 CloseVisual] /\
  tutorState (step (TimerFires 5) stopped) = waiting_to_resume.
Proof. vm_compute. repeat split. Qed.

(** And with the timer of [startAutoExplain] itself, when the voice was
    connected before the lecture started. *)
Lemma start_timer_moves_state_after_stop :
  let started :=
    run [StartVoiceTutor; Resolves 0 VoiceStarted; StartAutoExplain twoSlides]
        (initial (T := Q)) in
  let stopped := step StopAutoExplain started in
  tutorState stopped = idle /\
  timers stopped = [mkTimer 1 500 ExplainSlide] /\
  tutorState (step (TimerFires 1) stopped) = auto_explaining.
Proof. vm_compute. repeat split. Qed.

(** C8, the claim as stated fails: in auto mode, waiting to resume after an
    interruption, a click on the second slide's dot moves the state to
    [auto_explaining]. *)
Lemma goToSlide_leaves_waiting_to_resume :
  let waiting :=
    run (lectureStarting ++
         [TimerFires 1;
          SessionDoes (Session.OpAudioProcess Session.loudFrame 1000);
          SessionDoes (Session.OpMessage turnCompleteMessage)])
        (initial (T := Q)) in
  reachable waiting /\
  tutorState waiting = waiting_to_resume /\
  isAutoMode waiting = true /\
  tutorState (goToSlide 1 waiting) = auto_explaining /\
  tutorState (step (GoToSlide 1) waiting) <> tutorState waiting.
Proof.
  cbn zeta. split; [eexists; reflexivity|].
  vm_compute. repeat split. discriminate.
Qed.

Lemma goToSlide_restarts_narration_witness :
  let waiting :=
    run (lectureStarting ++
         [TimerFires 1;
          SessionDoes (Session.OpAudioProcess Session.loudFrame 1000);
          SessionDoes (Session.OpMessage turnCompleteMessage)])
        (initial (T := Q)) in
  tutorState (goToSlide (Z.of_nat 1) waiting) = auto_explaining.
Proof.
  intros waiting.
  refine (proj1 (goToSlide_restarts_narration (T := Q) waiting 1 slideTwo
                   eq_refl eq_refl _)).
  vm_compute. discriminate.
Defined.

Lemma muted_microphone_is_silent_witness :
  Forall (fun e => Session.isCaptureOutput (Txt := Prompt) e = false)
         (snd (Session.exec
                 (Session.run [Session.OpMuteMic;
                               Session.OpAudioProcess Session.loudFrame 1000;
                               Session.OpAudioProcess Session.loudFrame 2000])
                 (Session.initial (T := Q)))).
Proof.
  exact (proj1 (proj2 (muted_microphone_is_silent (T := Q)))
           Session.initial
           [Session.OpAudioProcess Session.loudFrame 1000;
            Session.OpAudioProcess Session.loudFrame 2000]
           eq_refl).
Defined.

End AutoTutorFacts.

Module AudioCodecLaws.
Import AudioCodec AudioCodecFacts.

Lemma byte_of_Z_of_byte (b : Byte.byte) : byte_of_Z (Z_of_byte b) = b.
Proof.
  unfold byte_of_Z. rewrite Z.mod_small by apply Z_of_byte_range.
  unfold Z_of_byte. rewrite N2Z.id, Byte.of_to_N. reflexivity.
Qed.

Lemma int16_bytes_int16_of_bytes (lo hi : Byte.byte) :
  int16_bytes (int16_of_bytes lo hi) = [lo; hi].
Proof.
  pose proof (Z_of_byte_range lo) as Hlo. pose proof (Z_of_byte_range hi) as Hhi.
  unfold int16_bytes, int16_of_bytes. cbn zeta.
  pose proof (wrap16_congruent (Z_of_byte lo + 256 * Z_of_byte hi)) as Hc.
  assert (Hu : wrap16 (Z_of_byte lo + 256 * Z_of_byte hi) mod 65536
               = Z_of_byte lo + 256 * Z_of_byte hi).
  { set (n := Z_of_byte lo + 256 * Z_of_byte hi) in *.
    replace (wrap16 n) with (n + (wrap16 n - n)) by lia.
    rewrite Z.add_mod, Hc, Z.add_0_r, Z.mod_mod by lia.
    apply Z.mod_small. lia. }
  rewrite Hu.
  replace ((Z_of_byte lo + 256 * Z_of_byte hi) mod 256) with (Z_of_byte lo).
  2: { apply (Z.mod_unique_pos _ _ (Z_of_byte hi)); lia. }
  replace ((Z_of_byte lo + 256 * Z_of_byte hi) / 256) with (Z_of_byte hi).
  2: { apply (Z.div_unique_pos _ _ _ (Z_of_byte lo)); lia. }
  now rewrite !byte_of_Z_of_byte.
Qed.

Lemma bytesOfInt16Array_int16_view (n : nat) (data : list Byte.byte) :
  length data = (2 * n)%nat -> bytesOfInt16Array (int16_view data) = data.
Proof.
  revert data. induction n as [|n IH]; intros data Hlen.
  - destruct data; [reflexivity|discriminate].
  - destruct data as [|lo [|hi rest]]; try (cbn in Hlen; lia).
    cbn [int16_view bytesOfInt16Array flat_map].
    rewrite int16_bytes_int16_of_bytes. cbn [app]. f_equal. f_equal.
    apply IH. cbn in Hlen. lia.
Qed.

Lemma Qtrunc_scaled (v : Z) : Qtrunc ((v # 32768) * 32768) = v.
Proof.
  unfold Qtrunc. cbn [Qmult Qnum Qden].
  change (Z.pos (32768 * 1)) with 32768. now rewrite Z.quot_mul by lia.
Qed.

Lemma ToInt16_of_decoded (v : Z) :
  -32768 <= v <= 32767 -> ToInt16 (scale32768 (FNum (v # 32768))) = v.
Proof.
  intros Hv. cbn [scale32768 ToInt16]. rewrite Qtrunc_scaled. now apply wrap16_id.
Qed.

Lemma int16_view_range (data : list Byte.byte) :
  Forall (fun v => -32768 <= v <= 32767) (int16_view data).
Proof.
  assert (Hn : forall n data, (length data <= n)%nat ->
                 Forall (fun v => -32768 <= v <= 32767) (int16_view data)).
  { induction n as [|n IH]; intros [|lo [|hi rest]] Hlen;
      try constructor; cbn in Hlen; try lia.
    - apply wrap16_range.
    - apply IH. lia. }
  apply (Hn (length data)). lia.
Qed.

Lemma toInt16Array_of_decoded (vs : list Z) :
  Forall (fun v => -32768 <= v <= 32767) vs ->
  toInt16Array (map (fun v => FNum (v # 32768)) vs) = vs.
Proof.
  induction 1 as [|v vs Hv _ IH]; [reflexivity|].
  cbn [map toInt16Array]. unfold toInt16Array in IH. rewrite IH.
  now rewrite (ToInt16_of_decoded v Hv).
Qed.

(** X10: decoding and then encoding gives the bytes back: PCM data of even,
    non-zero length decodes to one channel of half as many samples, and
    [createPcmBlob] of that channel is the data. *)
Theorem encode_undoes_decode (data : list Byte.byte) :
  (length data mod 2 = 0)%nat -> (0 < length data)%nat ->
  exists chan,
    decodeAudioData data 24000 1 = inr (mkAudioBuffer 1 24000 [chan])
    /\ length chan = (length data / 2)%nat
    /\ createPcmBlob chan = data.
Proof.
  intros Heven Hpos. eexists.
  split; [apply decodeAudioData_mono; (assumption || reflexivity)|].
  split; [now rewrite length_map, length_int16_view|].
  unfold createPcmBlob.
  rewrite (toInt16Array_of_decoded _ (int16_view_range data)).
  apply (bytesOfInt16Array_int16_view (length data / 2)).
  pose proof (Nat.div_mod_eq (length data) 2). lia.
Qed.

(** X11: samples on the Int16 grid, [v / 32768] with
    [-32768 <= v <= 32767], survive encoding and decoding exactly. *)
Theorem roundtrip_exact_on_int16_grid (vs : list Z) :
  vs <> [] -> Forall (fun v => -32768 <= v <= 32767) vs ->
  let s := map (fun v => FNum (v # 32768)) vs in
  decodeAudioData (createPcmBlob s) 24000 1 = inr (mkAudioBuffer 1 24000 [s]).
Proof.
  intros Hne Hvs. cbn zeta.
  assert (Hlen : length (createPcmBlob (map (fun v => FNum (v # 32768)) vs))
                 = (2 * length vs)%nat).
  { unfold createPcmBlob, toInt16Array.
    now rewrite length_bytesOfInt16Array, !length_map. }
  rewrite decodeAudioData_mono.
  - now rewrite int16_view_createPcmBlob, (toInt16Array_of_decoded vs Hvs).
  - rewrite Hlen. rewrite Nat.mul_comm. apply Nat.Div0.mod_mul.
  - rewrite Hlen. destruct vs; [congruence|cbn; lia].
  - reflexivity.
Qed.

(** X12: a sample from 1.0 up to, not including, 2.0 is not clipped but
    changes sign: it is stored as its scaled and truncated value minus 65536,
    a negative Int16. *)
Theorem overdriven_sample_changes_sign (q : Q) :
  (1 <= q)%Q -> (q < 2)%Q ->
  ToInt16 (scale32768 (FNum q)) = Qtrunc (q * 32768) - 65536
  /\ -32768 <= ToInt16 (scale32768 (FNum q)) < 0.
Proof.
  intros H1 H2. cbn [scale32768 ToInt16].
  destruct (Qtrunc_nonneg (q * 32768)) as [Hlo Hhi]; [lra|].
  assert (Ht : 32768 <= Qtrunc (q * 32768) < 65536).
  { split.
    - apply Z.lt_succ_r, Z.lt_pred_lt_succ. rewrite Zlt_Qlt.
      unfold Z.pred. rewrite inject_Z_plus. cbn [inject_Z] in *.
      change (inject_Z 32768) with 32768%Q. change (inject_Z (-1)) with (-1)%Q. lra.
    - rewrite Zlt_Qlt. change (inject_Z 65536) with 65536%Q. lra. }
  unfold wrap16. rewrite Z.mod_small by lia.
  destruct (32768 <=? Qtrunc (q * 32768)) eqn:E; [lia|]. apply Z.leb_gt in E. lia.
Qed.

Lemma encode_undoes_decode_witness :
  exists chan,
    decodeAudioData [Byte.x00; Byte.x40; Byte.xff; Byte.xff] 24000 1
      = inr (mkAudioBuffer 1 24000 [chan])
    /\ length chan = (length [Byte.x00; Byte.x40; Byte.xff; Byte.xff] / 2)%nat
    /\ createPcmBlob chan = [Byte.x00; Byte.x40; Byte.xff; Byte.xff].
Proof.
  apply (encode_undoes_decode [Byte.x00; Byte.x40; Byte.xff; Byte.xff]);
    [reflexivity|cbn; lia].
Defined.

Lemma roundtrip_exact_on_int16_grid_witness :
  let s := map (fun v => FNum (v # 32768)) [16384; -1; -32768; 32767] in
  decodeAudioData (createPcmBlob s) 24000 1 = inr (mkAudioBuffer 1 24000 [s]).
Proof.
  apply (roundtrip_exact_on_int16_grid [16384; -1; -32768; 32767]);
    [discriminate|repeat constructor; lia].
Defined.

Lemma overdriven_sample_changes_sign_witness :
  ToInt16 (scale32768 (FNum (3 # 2))) = Qtrunc ((3 # 2) * 32768) - 65536
  /\ -32768 <= ToInt16 (scale32768 (FNum (3 # 2))) < 0.
Proof.
  apply (overdriven_sample_changes_sign (3 # 2)); [discriminate|reflexivity].
Defined.

End AudioCodecLaws.

Module SessionLaws.
Import AudioCodec Session SessionLog SessionFacts.

Section WithTimeLine.
Context {T : Type} `{TimeLineOrder T} {Txt : Type}.

Abbreviation State := (Session.State T).
Abbreviation Effect := (Session.Effect T Txt).
Abbreviation M := (Session.M T Txt).
Abbreviation tracks := (SessionLog.tracksSpeaking (T := T) (Txt := Txt)).

Ltac unfold_m :=
  unfold Session.exec, Session.bind, Session.ret, Session.gets, Session.modify,
    Session.emit, Session.call, Session.when in *.

(** *** The speaking notifications *)

Lemma speakingAfter_app (b b1 : bool) (l1 l2 : list Effect) :
  speakingAfter b l1 = Some b1 ->
  speakingAfter b (l1 ++ l2) = speakingAfter b1 l2.
Proof.
  revert b. induction l1 as [|e l1 IH]; intros b; cbn [app].
  - cbn. congruence.
  - destruct e as [| |cb seen| | | | | | | |]; cbn [speakingAfter]; try apply IH.
    destruct cb; try apply IH; destruct b; try discriminate; apply IH.
Qed.

Lemma tracks_ret {A} (a : A) : tracks (Session.ret a).
Proof. intros st. reflexivity. Qed.

Lemma tracks_bind {A B} (m : M A) (k : A -> M B) :
  tracks m -> (forall a, tracks (k a)) -> tracks (Session.bind m k).
Proof.
  intros Hm Hk st. unfold Session.bind.
  specialize (Hm st). destruct (m st) as [[a st1] log1].
  specialize (Hk a st1). destruct (k a st1) as [[b st2] log2].
  now rewrite (speakingAfter_app _ _ _ _ Hm).
Qed.

Lemma tracks_gets {A} (f : State -> A) : tracks (Session.gets f).
Proof. intros st. reflexivity. Qed.

Lemma tracks_modify (f : State -> State) :
  (forall st, isSpeaking (f st) = isSpeaking st) -> tracks (Session.modify f).
Proof. intros Hf st. cbn. now rewrite Hf. Qed.

Lemma tracks_emit (e : Effect) :
  (forall cb seen, e <> Call cb seen) -> tracks (Session.emit e).
Proof.
  intros He st. cbn [Session.emit].
  destruct e as [| |cb seen| | | | | | | |]; try reflexivity.
  now destruct (He cb seen).
Qed.

Lemma tracks_call (cb : Callback) :
  cb <> onSpeakingStart -> cb <> onSpeakingStop -> tracks (Session.call cb).
Proof. intros H1 H2 st. cbn [Session.call]. destruct cb; try reflexivity; congruence. Qed.

Lemma tracks_when (b : bool) (m : M unit) :
  tracks m -> tracks (Session.when b m).
Proof. intros Hm. destruct b; [exact Hm|apply tracks_ret]. Qed.

Lemma tracks_forEach {A} (l : list A) (body : A -> M unit) :
  (forall a, tracks (body a)) -> tracks (Session.forEach l body).
Proof.
  intros Hb. induction l as [|a l IH]; cbn [Session.forEach].
  - apply tracks_ret.
  - apply tracks_bind; [apply Hb|intros _; exact IH].
Qed.

Ltac tracks_auto :=
  repeat first
    [ apply tracks_ret
    | apply tracks_gets
    | apply tracks_call; discriminate
    | apply tracks_modify; intros []; reflexivity
    | apply tracks_emit; discriminate
    | apply tracks_when
    | apply tracks_bind; [|intros ?]
    | apply tracks_forEach; intros ? ].

Lemma speakingAfter_stops (b : bool) (l : list nat) :
  speakingAfter (Txt := Txt) (T := T) b (map SourceStop l) = Some b.
Proof. induction l as [|s l IH]; [reflexivity|exact IH]. Qed.

Lemma tracks_clearAudio : tracks Session.clearAudio.
Proof.
  intros st. pose proof (clearAudio_exec (Txt := Txt) st) as Hc.
  unfold Session.exec in Hc.
  destruct (Session.clearAudio st) as [[u st1] log1]. inversion Hc; subst.
  rewrite (speakingAfter_app _ _ _ _ (speakingAfter_stops _ _)).
  destruct (isSpeaking st); reflexivity.
Qed.

Lemma tracks_sourceEnded (source : nat) : tracks (Session.sourceEnded source).
Proof.
  intros st. unfold Session.sourceEnded. unfold_m. cbn.
  destruct (bool_decide _); cbn; [|reflexivity].
  destruct (isSpeaking st) eqn:E; cbn; [|rewrite E]; reflexivity.
Qed.

Lemma tracks_handlePart (part : Part T) : tracks (Session.handlePart part).
Proof.
  unfold Session.handlePart. apply tracks_bind.
  { destruct (text part); tracks_auto. }
  intros _. destruct (inlineData part) as [audioData|]; [|tracks_auto].
  destruct (nonEmpty audioData); [|tracks_auto]. cbn [Session.when].
  set (rest := match decodeChunk audioData with
              | inr audioBuffer => Session.schedule audioBuffer (currentTime part)
              | inl _ => Session.ret tt
              end).
  assert (Hrest : tracks rest).
  { subst rest. destruct (decodeChunk audioData); [tracks_auto|].
    unfold Session.schedule. tracks_auto. }
  clearbody rest. intros st. unfold_m.
  destruct (isSpeaking st) eqn:E; cbn [negb]; unfold_m.
  - specialize (Hrest st). rewrite E in Hrest.
    destruct (rest st) as [[u2 st2] log2]. exact Hrest.
  - specialize (Hrest (set_isSpeaking true st)).
    destruct (rest (set_isSpeaking true st)) as [[u2 st2] log2]. exact Hrest.
Qed.

Lemma tracks_step (op : Session.Op T Txt) : tracks (Session.step op).
Proof.
  destruct op as [message|source|inputData now| | | | |t| |]; cbn [Session.step].
  - unfold Session.handleMessage.
    destruct (interrupted message).
    { apply tracks_bind; [apply tracks_clearAudio|intros _]. tracks_auto. }
    destruct (turnComplete message); [tracks_auto|].
    destruct (modelTurnParts message) as [parts|]; [|tracks_auto].
    apply tracks_forEach, tracks_handlePart.
  - apply tracks_sourceEnded.
  - unfold Session.onaudioprocess. tracks_auto.
    destruct (_ || _); tracks_auto.
  - tracks_auto.
  - tracks_auto.
  - apply tracks_clearAudio.
  - unfold Session.stop.
    apply tracks_bind; [apply tracks_gets|intros isStopped].
    destruct isStopped; [apply tracks_ret|].
    apply tracks_bind; [apply tracks_modify; intros []; reflexivity|intros _].
    apply tracks_bind; [apply tracks_clearAudio|intros _]. tracks_auto.
  - unfold Session.sendText. tracks_auto. destruct a; tracks_auto.
  - unfold Session.muteMic. tracks_auto.
  - unfold Session.unmuteMic. tracks_auto.
Qed.

(** X1: along any run of session operations, from any state, the speaking
    notifications come in turn -- [onSpeakingStart] only while the session is
    silent, [onSpeakingStop] only while it speaks -- and [isSpeaking] ends at
    what the last of them said. *)
Theorem speaking_notifications_alternate
    (ops : list (Session.Op T Txt)) (st : State) :
  speakingAfter (isSpeaking st) (snd (Session.exec (Session.run ops) st))
  = Some (isSpeaking (fst (Session.exec (Session.run ops) st))).
Proof.
  assert (Hr : tracks (Session.run ops))
    by (apply tracks_forEach, tracks_step).
  specialize (Hr st). unfold Session.exec.
  destruct (Session.run ops st) as [[u st'] log]. exact Hr.
Qed.

(** *** Releasing, and what a stopped session still does *)

Lemma keeps_weaken {A} (I : State -> Prop) (P Q : Effect -> Prop) (m : M A) :
  (forall e, P e -> Q e) -> keeps I P m -> keeps I Q m.
Proof.
  intros HPQ Hm st HI. specialize (Hm st HI).
  destruct (m st) as [[a st'] log]. destruct Hm as [HI' HP].
  split; [exact HI'|]. eapply Forall_impl; eassumption.
Qed.

Ltac keeps_auto :=
  repeat first
    [ apply keeps_ret
    | apply keeps_gets
    | apply keeps_call; intros ?; reflexivity
    | apply keeps_emit; reflexivity
    | apply keeps_modify; intros [] ?; cbn in *; assumption
    | apply keeps_when
    | apply keeps_bind; [|intros ?]
    | apply keeps_forEach; intros ?
    | match goal with
      | |- keeps _ _ (match ?x with _ => _ end) => destruct x
      end ].

(** Whatever arrives from the network or the audio graph, the session
    answers with playback and callbacks only. *)
Lemma keeps_playback (I : State -> Prop) (op : Session.Op T Txt) :
  (forall st v, I st -> I (set_activeSources v st)) ->
  (forall st v, I st -> I (set_nextStartTime v st)) ->
  (forall st v, I st -> I (set_isSpeaking v st)) ->
  (forall st v, I st -> I (set_sourcesCreated v st)) ->
  match op with
  | OpMessage _ | OpEnded _ | OpSocketClose | OpSocketError | OpClearAudio => True
  | _ => False
  end ->
  keeps I (fun e => isPlayback e = true) (Session.step op).
Proof.
  intros H1 H2 H3 H4 Hop.
  destruct op as [message|source|inputData now| | | | |t| |];
    try contradiction; cbn [Session.step].
  - unfold Session.handleMessage.
    repeat first
      [ apply keeps_ret | apply keeps_gets
      | apply keeps_call; intros ?; reflexivity
      | apply keeps_emit; reflexivity
      | apply keeps_modify; intros ? ?; auto
      | apply keeps_when
      | apply keeps_bind; [|intros ?]
      | apply keeps_forEach; intros ?
      | match goal with
        | |- keeps _ _ (match ?x with _ => _ end) => destruct x
        end ].
  - unfold Session.sourceEnded.
    repeat first
      [ apply keeps_ret | apply keeps_gets
      | apply keeps_call; intros ?; reflexivity
      | apply keeps_modify; intros ? ?; auto
      | apply keeps_when
      | apply keeps_bind; [|intros ?] ].
  - apply keeps_call. intros ?. reflexivity.
  - apply keeps_call. intros ?. reflexivity.
  - unfold Session.clearAudio.
    repeat first
      [ apply keeps_ret | apply keeps_gets
      | apply keeps_call; intros ?; reflexivity
      | apply keeps_emit; reflexivity
      | apply keeps_modify; intros ? ?; auto
      | apply keeps_when
      | apply keeps_bind; [|intros ?]
      | apply keeps_forEach; intros ? ].
Qed.

Lemma filter_none (f : Effect -> bool) (log : list Effect) :
  Forall (fun e => f e = false) log -> List.filter f log = [].
Proof.
  induction 1 as [|e log He _ IH]; [reflexivity|].
  cbn [List.filter]. now rewrite He.
Qed.

Lemma step_keeps_stopped (b : bool) (op : Session.Op T Txt) :
  isStop op = false ->
  keeps (fun st => stopped st = b) (fun e => isRelease e = false) (Session.step op).
Proof.
  intros Hop.
  destruct op as [message|source|inputData now| | | | |t| |];
    try discriminate;
    try (eapply keeps_weaken;
         [|apply keeps_playback; [intros [] ?; auto ..|exact I]];
         intros [] ?; (reflexivity || discriminate));
    cbn [Session.step].
  - unfold Session.onaudioprocess. keeps_auto.
  - unfold Session.sendText. keeps_auto.
  - unfold Session.muteMic. keeps_auto.
  - unfold Session.unmuteMic. keeps_auto.
Qed.

Lemma clearAudio_log_playback (st : State) :
  Forall (fun e => isPlayback e = true)
         (snd (Session.exec (Session.clearAudio (Txt := Txt)) st)).
Proof.
  rewrite clearAudio_exec. cbn [snd]. apply Forall_app. split.
  - apply Forall_forall. intros e He.
    apply list_elem_of_In, in_map_iff in He. destruct He as [s [<- _]]. reflexivity.
  - destruct (isSpeaking st); repeat constructor.
Qed.

(** X2: however often [stop] is called, and whatever happens in between, the
    resources are released at most once: the release effects of a run are
    the six of [stop], in its order and ending with the closing of the
    session, when the session was not stopped before and the run calls
    [stop]; otherwise there are none. *)
Theorem resources_released_once (ops : list (Session.Op T Txt)) (st : State) :
  List.filter isRelease (snd (Session.exec (Session.run ops) st))
  = if negb (stopped st) && existsb isStop ops then releaseSequence else [].
Proof.
  revert st. induction ops as [|op ops IH]; intros st.
  { cbn. now rewrite andb_false_r. }
  rewrite run_cons. cbn [existsb].
  destruct (isStop op) eqn:Hop.
  - destruct op; try discriminate. cbn [Session.step]. rewrite stop_exec.
    destruct (stopped st) eqn:Hs; cbv beta iota.
    + specialize (IH st). rewrite Hs in IH.
      destruct (Session.exec (Session.run ops) st) as [st2 log2]. exact IH.
    + specialize (IH (cleared (set_stopped true st))).
      destruct (Session.exec (Session.run ops) _) as [st2 log2].
      cbn [snd stopped cleared negb andb] in *.
      rewrite !List.filter_app, IH, app_nil_r.
      rewrite (filter_none isRelease
                 (snd (Session.exec Session.clearAudio (set_stopped true st)))).
      * reflexivity.
      * eapply Forall_impl; [apply clearAudio_log_playback|].
        intros [] ?; (reflexivity || discriminate).
  - pose proof (step_keeps_stopped (stopped st) op Hop st eq_refl) as Hk.
    unfold Session.exec at 1.
    destruct (Session.step op st) as [[u st1] log1]. destruct Hk as [Hs1 Hq].
    specialize (IH st1). rewrite Hs1 in IH.
    destruct (Session.exec (Session.run ops) st1) as [st2 log2].
    cbn [snd orb] in *. rewrite List.filter_app, IH, (filter_none _ _ Hq).
    reflexivity.
Qed.

Lemma stopped_step_is_quiet (op : Session.Op T Txt) :
  keeps (fun st => stopped st = true) (fun e => isSendOrRelease e = false)
        (Session.step op).
Proof.
  destruct op as [message|source|inputData now| | | | |t| |];
    try (eapply keeps_weaken;
         [|apply keeps_playback; [intros [] ?; auto ..|exact I]];
         intros [] ?; (reflexivity || discriminate));
    cbn [Session.step].
  - intros st Hs. rewrite onaudioprocess_gated by (rewrite Hs; reflexivity). auto.
  - intros st Hs. pose proof (stop_exec (Txt := Txt) st) as E. rewrite Hs in E.
    unfold Session.exec in E. destruct (Session.stop st) as [[u st'] log].
    inversion E; subst. auto.
  - intros st Hs. unfold Session.sendText. unfold_m. rewrite Hs. auto.
  - unfold Session.muteMic. keeps_auto.
  - unfold Session.unmuteMic. keeps_auto.
Qed.

(** X3: once [stop] has run the session is stopped for good, and nothing a
    later run does reaches the network or releases anything again: no frame,
    no client turn (a [sendText] is dropped), no second release. *)
Theorem stopped_session_sends_nothing
    (ops : list (Session.Op T Txt)) (st : State) :
  let stopped_st := fst (Session.exec (Session.stop (Txt := Txt)) st) in
  stopped stopped_st = true
  /\ Forall (fun e => isSendOrRelease e = false)
            (snd (Session.exec (Session.run ops) stopped_st)).
Proof.
  cbn zeta.
  assert (Hs : stopped (fst (Session.exec (Session.stop (Txt := Txt)) st)) = true).
  { rewrite stop_exec. destruct (stopped st) eqn:E; [exact E|reflexivity]. }
  split; [exact Hs|].
  assert (Hk : keeps (fun st => stopped st = true)
                 (fun e => isSendOrRelease e = false) (Session.run ops))
    by (apply keeps_forEach, stopped_step_is_quiet).
  specialize (Hk _ Hs). unfold Session.exec at 1.
  destruct (Session.run ops _) as [[u st'] log]. apply Hk.
Qed.

(** *** Capture *)

Lemma sentFrames_app (l1 l2 : list Effect) :
  sentFrames (l1 ++ l2) = sentFrames l1 ++ sentFrames l2.
Proof.
  induction l1 as [|e l1 IH]; [reflexivity|].
  destruct e; cbn; rewrite ?IH; reflexivity.
Qed.

Lemma sentFrames_none (log : list Effect) :
  Forall (fun e => forall pcm, e <> SendRealtimeInput pcm) log -> sentFrames log = [].
Proof.
  induction 1 as [|e log He _ IH]; [reflexivity|].
  destruct e; cbn; try exact IH. now destruct (He pcm).
Qed.

Lemma step_keeps_open (op : Session.Op T Txt) :
  isStop op = false -> isMute op = false ->
  match op with OpAudioProcess _ _ => False | _ => True end ->
  keeps (fun st => stopped st = false /\ muted st = false)
        (fun e => forall pcm, e <> SendRealtimeInput pcm) (Session.step op).
Proof.
  intros Hstop Hmute Hcap.
  destruct op as [message|source|inputData now| | | | |t| |];
    try discriminate; try contradiction;
    try (eapply keeps_weaken;
         [|apply keeps_playback; [intros [] ?; auto ..|exact I]];
         intros [] ?; (discriminate || intros ?; discriminate));
    cbn [Session.step].
  - unfold Session.sendText.
    apply keeps_bind; [apply keeps_gets|intros isStopped].
    destruct isStopped; [apply keeps_ret|apply keeps_emit; discriminate].
  - unfold Session.unmuteMic. apply keeps_modify. intros [] [? ?]. auto.
Qed.

(** X4: while the session is neither stopped nor muted every captured
    frame is sent, once and in order, as its PCM encoding, whether or not the
    VAD fired on it and whatever messages arrive in between. *)
Theorem every_captured_frame_is_sent
    (ops : list (Session.Op T Txt)) (st : State) :
  stopped st = false -> muted st = false ->
  forallb (fun op => negb (isStop op) && negb (isMute op)) ops = true ->
  sentFrames (snd (Session.exec (Session.run ops) st)) = capturedFrames ops.
Proof.
  revert st. induction ops as [|op ops IH]; intros st Hs Hm Hops; [reflexivity|].
  cbn [forallb] in Hops. apply andb_true_iff in Hops as [Hop Hops].
  apply andb_true_iff in Hop as [Hstop Hmute].
  apply negb_true_iff in Hstop, Hmute.
  rewrite run_cons.
  destruct op as [message|source|inputData now| | | | |t| |]; try discriminate.
  3: {
    cbn [Session.step capturedFrames].
    rewrite (onaudioprocess_open _ _ _ Hs Hm).
    destruct (rmsExceedsThreshold inputData && _); cbv beta iota.
    - specialize (IH (set_lastActivityTime now st) Hs Hm Hops).
      destruct (Session.exec (Session.run ops) _) as [st2 log2].
      cbn [snd] in *. cbn. now rewrite IH.
    - specialize (IH st Hs Hm Hops).
      destruct (Session.exec (Session.run ops) st) as [st2 log2].
      cbn [snd] in *. cbn. now rewrite IH. }
  all: match goal with
       | |- context [Session.step ?op] =>
           pose proof (step_keeps_open op Hstop Hmute I st (conj Hs Hm)) as Hk
       end;
       unfold Session.exec at 1;
       destruct (Session.step _ st) as [[u st1] log1];
       destruct Hk as [[Hs1 Hm1] Hq];
       specialize (IH st1 Hs1 Hm1 Hops);
       destruct (Session.exec (Session.run ops) st1) as [st2 log2];
       cbn [snd capturedFrames] in *;
       rewrite sentFrames_app, (sentFrames_none _ Hq), IH; reflexivity.
Qed.

(** X7: [clearAudio] called again right after itself stops nothing, calls
    nothing and changes nothing; the first call leaves no active source and
    the session silent. *)
Theorem clearAudio_twice_is_once (st : State) :
  let st1 := fst (Session.exec (Session.clearAudio (Txt := Txt)) st) in
  Session.exec (Session.clearAudio (Txt := Txt)) st1 = (st1, [])
  /\ activeSources st1 = [] /\ isSpeaking st1 = false.
Proof.
  cbn zeta. rewrite !clearAudio_exec. cbn. repeat split.
Qed.

(** *** Audio parts *)

Lemma decodeChunk_undecodable (audioData : string) :
  base64ToUint8Array audioData = inl InvalidCharacterError
  \/ (exists audioBytes,
        base64ToUint8Array audioData = inr audioBytes
        /\ ((length audioBytes mod 2 <> 0)%nat \/ audioBytes = [])) ->
  exists e, decodeChunk audioData = inl e.
Proof.
  unfold decodeChunk. intros [->|(audioBytes & -> & [Hodd| ->])].
  - now exists InvalidCharacterError.
  - exists RangeError. unfold decodeAudioData.
    now rewrite AudioCodecFacts.newInt16Array_odd.
  - exists NotSupportedError. reflexivity.
Qed.

(** X5: an audio chunk whose text is not empty but does not decode (it is
    not base64, or gives an odd number of bytes, or none, as white space
    does) is dropped: no source starts and the playback queue is as before.
    Yet speech has been announced: [isSpeaking] is set, and [onSpeakingStart]
    was called if it was not.  A chunk whose text is empty is skipped
    without any of this: the state is as before and nothing is called for
    the audio. *)
Theorem undecodable_audio_is_dropped
    (part : Part T) (audioData : string) (st : State) :
  inlineData part = Some audioData ->
  let '(st', log) := Session.exec (Session.handlePart (Txt := Txt) part) st in
  (nonEmpty audioData = true ->
   (base64ToUint8Array audioData = inl InvalidCharacterError
    \/ (exists audioBytes,
          base64ToUint8Array audioData = inr audioBytes
          /\ ((length audioBytes mod 2 <> 0)%nat \/ audioBytes = []))) ->
   sameQueue st st'
   /\ Forall (fun e => isSourceStart e = false) log
   /\ isSpeaking st' = true
   /\ (isSpeaking st = false -> Call onSpeakingStart st' ∈ log))
  /\ (nonEmpty audioData = false ->
      st' = st
      /\ log = match text part with
               | Some t => if nonEmpty t then [Call (onText t) st] else []
               | None => []
               end).
Proof.
  intros Hdata.
  unfold Session.handlePart. rewrite Hdata.
  destruct (nonEmpty audioData) eqn:Hne.
  - destruct (Session.exec _ st) as [st' log] eqn:Hrun.
    split; [|discriminate]. intros _ Hbad.
    destruct (decodeChunk_undecodable audioData Hbad) as [e He].
    rewrite He in Hrun. revert Hrun. unfold_m.
    destruct (text part) as [t|]; [destruct (nonEmpty t)|];
      destruct st as [m s n sp a c l]; destruct sp; cbn;
      intros [= <- <-];
      (split; [repeat split|]);
      (split; [repeat constructor|]);
      (split; [reflexivity|]);
      intros Hsp; try discriminate; rewrite ?elem_of_cons; auto.
  - unfold_m.
    destruct (text part) as [t|]; [destruct (nonEmpty t)|]; cbn;
      (split; [discriminate|]); intros _; split; reflexivity.
Qed.

(** X6: an audio chunk that decodes to [2n] bytes ([n >= 1]) starts
    exactly one source, at the maximum of [nextStartTime] and the clock,
    playing the [n] decoded samples; the source joins the active ones, and
    [nextStartTime] moves to that start plus the duration of [n] frames at
    24000 Hz. *)
Theorem audio_part_is_queued
    (part : Part T) (audioData : string) (audioBytes : list Byte.byte)
    (st : State) :
  inlineData part = Some audioData ->
  base64ToUint8Array audioData = inr audioBytes ->
  (length audioBytes mod 2 = 0)%nat -> (0 < length audioBytes)%nat ->
  let '(st', log) := Session.exec (Session.handlePart (Txt := Txt) part) st in
  let start := tmax (nextStartTime st) (currentTime part) in
  starts log
    = [(start,
        mkAudioBuffer 1 24000
          [map (fun v => FNum (v # 32768)) (int16_view audioBytes)])]
  /\ nextStartTime st' = tplus start (tduration (length audioBytes / 2) 24000)
  /\ sourcesCreated st' = S (sourcesCreated st)
  /\ sourcesCreated st ∈ activeSources st'
  /\ isSpeaking st' = true.
Proof.
  intros Hdata Hbytes Heven Hpos.
  assert (Hne : nonEmpty audioData = true).
  { destruct audioData; [|reflexivity].
    vm_compute in Hbytes. injection Hbytes as <-. cbn in Hpos. lia. }
  unfold Session.handlePart.
  rewrite Hdata, Hne. unfold decodeChunk.
  rewrite Hbytes, (AudioCodecFacts.decodeAudioData_mono _ 24000 Heven Hpos eq_refl).
  unfold Session.schedule. unfold_m.
  assert (Hlen : Session.duration (T := T)
                   (mkAudioBuffer 1 24000
                      [map (fun v => FNum (v # 32768)) (int16_view audioBytes)])
                 = tduration (length audioBytes / 2) 24000).
  { unfold Session.duration, bufferFrames. cbn.
    now rewrite length_map, AudioCodecFacts.length_int16_view. }
  destruct (text part) as [t|]; [destruct (nonEmpty t)|];
    destruct st as [m s n sp a c l]; destruct sp; cbn;
    rewrite ?Hlen;
    (repeat split; try reflexivity);
    destruct (decide (c ∈ a)); rewrite ?elem_of_app, ?elem_of_cons; auto.
Qed.

End WithTimeLine.

Lemma every_captured_frame_is_sent_witness :
  sentFrames
    (snd (Session.exec
            (Session.run (Txt := string)
               [OpAudioProcess quietFrame 10;
                OpMessage (mkMessage false true None);
                OpAudioProcess loudFrame 900])
            (Session.initial (T := Q))))
  = [createPcmBlob quietFrame; createPcmBlob loudFrame].
Proof.
  exact (every_captured_frame_is_sent (T := Q) (Txt := string)
           [OpAudioProcess quietFrame 10;
            OpMessage (mkMessage false true None);
            OpAudioProcess loudFrame 900]
           Session.initial eq_refl eq_refl eq_refl).
Defined.

Lemma undecodable_audio_is_dropped_witness :
  let part := mkPart None (Some "AQID"%string) (1 # 2)%Q in
  let '(st', log) :=
    Session.exec (Session.handlePart (Txt := string) part) Session.initial in
  sameQueue Session.initial st'
  /\ Forall (fun e => isSourceStart e = false) log
  /\ isSpeaking st' = true
  /\ (isSpeaking (Session.initial (T := Q)) = false -> Call onSpeakingStart st' ∈ log).
Proof.
  intros part.
  refine (proj1 (undecodable_audio_is_dropped (T := Q) (Txt := string) part
                   "AQID"%string Session.initial eq_refl) eq_refl _).
  right. exists [Byte.x01; Byte.x02; Byte.x03]. split; [reflexivity|].
  left. cbn. lia.
Defined.

Lemma audio_part_is_queued_witness :
  let part := mkPart None (Some "AED//w=="%string) (1 # 2)%Q in
  let '(st', log) :=
    Session.exec (Session.handlePart (Txt := string) part) Session.initial in
  let start := tmax (nextStartTime (Session.initial (T := Q))) (currentTime part) in
  starts log
    = [(start,
        mkAudioBuffer 1 24000
          [map (fun v => FNum (v # 32768))
               (int16_view [Byte.x00; Byte.x40; Byte.xff; Byte.xff])])]
  /\ nextStartTime st'
     = tplus start
         (tduration (length [Byte.x00; Byte.x40; Byte.xff; Byte.xff] / 2) 24000)
  /\ sourcesCreated st' = S (sourcesCreated (Session.initial (T := Q)))
  /\ sourcesCreated (Session.initial (T := Q)) ∈ activeSources st'
  /\ isSpeaking st' = true.
Proof.
  intros part.
  refine (audio_part_is_queued (T := Q) (Txt := string) part "AED//w=="%string
            [Byte.x00; Byte.x40; Byte.xff; Byte.xff] Session.initial
            eq_refl eq_refl eq_refl _).
  cbn. lia.
Defined.

End SessionLaws.

Module VadLaws.
Import AudioCodec Session.

Lemma energy_ext (a b : list float) (ks : list nat) (acc : SpecFloat.spec_float) :
  (forall k, a !! (4 * k)%nat = b !! (4 * k)%nat) ->
  foldl (fun sum i => match a !! i with
                      | Some x => fadd sum (fmul (toNumber x) (toNumber x))
                      | None => SpecFloat.S754_nan
                      end) acc (map (fun k => 4 * k)%nat ks)
  = foldl (fun sum i => match b !! i with
                        | Some x => fadd sum (fmul (toNumber x) (toNumber x))
                        | None => SpecFloat.S754_nan
                        end) acc (map (fun k => 4 * k)%nat ks).
Proof.
  intros Hab. revert acc. induction ks as [|k ks IH]; intros acc; [reflexivity|].
  cbn [map foldl]. rewrite Hab. apply IH.
Qed.

(** X8: the VAD looks at every fourth sample only: two frames of the same
    length that agree at the indices 0, 4, 8, ... get the same verdict,
    whatever their other samples are. *)
Theorem vad_reads_every_fourth_sample (a b : list float) :
  length a = length b ->
  (forall k, a !! (4 * k)%nat = b !! (4 * k)%nat) ->
  rmsExceedsThreshold a = rmsExceedsThreshold b.
Proof.
  intros Hlen Hab. unfold rmsExceedsThreshold, rms, subsampledEnergy, strideIndices.
  rewrite Hlen, (energy_ext a b _ _ Hab). reflexivity.
Qed.

(** A sum that is NaN stays NaN. *)
Lemma fadd_nan_r (x : SpecFloat.spec_float) : fadd x SpecFloat.S754_nan = SpecFloat.S754_nan.
Proof. destruct x; reflexivity. Qed.

Lemma energy_nan (frame : list float) (indices : list nat) :
  foldl (fun sum i => match frame !! i with
                      | Some x => fadd sum (fmul (toNumber x) (toNumber x))
                      | None => SpecFloat.S754_nan
                      end) SpecFloat.S754_nan indices
  = SpecFloat.S754_nan.
Proof.
  induction indices as [|i indices IH]; [reflexivity|].
  cbn [foldl]. destruct (frame !! i); exact IH.
Qed.

(** Neither a zero nor a NaN is above the threshold, whatever it is divided
    by. *)
Lemma verdict_of_zero_or_nan (sum d : SpecFloat.spec_float) :
  sum = SpecFloat.S754_zero false \/ sum = SpecFloat.S754_nan ->
  SpecFloat.SFltb (binary64 VAD_THRESHOLD) (fsqrt (fdiv sum d)) = false.
Proof. intros [-> | ->]; destruct d; reflexivity. Qed.

Lemma silent_sample (x : float) :
  (exists q, x = FNum q /\ Qnum q = 0) ->
  fmul (toNumber x) (toNumber x) = SpecFloat.S754_zero false.
Proof.
  intros ([n d] & -> & Hq). cbn in Hq. subst n. reflexivity.
Qed.

Lemma energy_silent (frame : list float) (indices : list nat)
    (acc : SpecFloat.spec_float) :
  (forall i x, frame !! i = Some x -> i ∈ indices ->
     exists q, x = FNum q /\ Qnum q = 0) ->
  acc = SpecFloat.S754_zero false \/ acc = SpecFloat.S754_nan ->
  let sum :=
    foldl (fun sum i => match frame !! i with
                        | Some x => fadd sum (fmul (toNumber x) (toNumber x))
                        | None => SpecFloat.S754_nan
                        end) acc indices in
  sum = SpecFloat.S754_zero false \/ sum = SpecFloat.S754_nan.
Proof.
  cbn zeta. revert acc. induction indices as [|i indices IH]; intros acc Hs Hacc;
    [exact Hacc|].
  cbn [foldl]. apply IH.
  - intros j x Hx Hj. apply (Hs j x Hx). now right.
  - destruct (frame !! i) as [x|] eqn:Hx; [|now right].
    rewrite (silent_sample x) by (apply (Hs i x Hx); left).
    destruct Hacc as [-> | ->]; [left|right]; reflexivity.
Qed.

(** X9: the voice-activity test never fires on a frame that is empty, or
    silent at every sampled index, or that holds a NaN at a sampled index:
    the sum of squares is then a zero or NaN, and neither compares above the
    threshold.  In particular one NaN among the sampled values hides
    whatever else the frame holds. *)
Theorem vad_never_fires_on_silence_or_nan (frame : list float) :
  frame = []
  \/ (forall k x, frame !! (4 * k)%nat = Some x -> exists q, x = FNum q /\ Qnum q = 0)
  \/ (exists k, frame !! (4 * k)%nat = Some FNaN) ->
  rmsExceedsThreshold frame = false.
Proof.
  intros Hframe. unfold rmsExceedsThreshold, rms.
  apply verdict_of_zero_or_nan. unfold subsampledEnergy, strideIndices.
  destruct Hframe as [-> | [Hsilent | [k Hk]]].
  - now left.
  - apply energy_silent; [|now left].
    intros i x Hx Hi. apply list_elem_of_In, in_map_iff in Hi.
    destruct Hi as (k & <- & _). exact (Hsilent k x Hx).
  - right.
    assert (Hin : (4 * k)%nat
                  ∈ map (fun k => 4 * k)%nat (seq 0 ((length frame + 3) / 4))).
    { apply list_elem_of_In, in_map, in_seq. apply lookup_lt_Some in Hk.
      split; [lia|]. cbn [Nat.add]. apply Nat.div_le_lower_bound; lia. }
    apply list_elem_of_split in Hin. destruct Hin as (before & after & ->).
    rewrite foldl_app. cbn [foldl]. rewrite Hk.
    change (fmul (toNumber FNaN) (toNumber FNaN)) with SpecFloat.S754_nan.
    rewrite fadd_nan_r. apply energy_nan.
Qed.

Lemma vad_reads_every_fourth_sample_witness :
  rmsExceedsThreshold [FNum (1 # 2); FNum 1; FNaN; FInf true]
  = rmsExceedsThreshold loudFrame.
Proof.
  apply (vad_reads_every_fourth_sample
           [FNum (1 # 2); FNum 1; FNaN; FInf true] loudFrame); [reflexivity|].
  intros [|k]; [reflexivity|].
  rewrite !lookup_ge_None_2 by (cbn; lia). reflexivity.
Defined.

Lemma vad_never_fires_on_silence_or_nan_witness :
  rmsExceedsThreshold [FNum 1; FNum 1; FNum 1; FNum 1; FNaN] = false.
Proof.
  apply (vad_never_fires_on_silence_or_nan [FNum 1; FNum 1; FNum 1; FNum 1; FNaN]).
  right. right. exists 1%nat. reflexivity.
Defined.

End VadLaws.

Module ConnectLaws.
Import Connect SessionLog.

Lemma released_parts (b : Browser) :
  released b = true <->
  forallb (fun c => match c with Closed => true | Running => false end)
          (audioContexts b) = true
  /\ forallb (fun t => match t with Ended => true | Live => false end)
             (mediaStreams b) = true
  /\ forallb negb (liveSessions b) = true.
Proof. unfold released. rewrite !andb_true_iff. tauto. Qed.

Lemma closeIfOpen_running (l r : list ContextState) (streams : list TrackState)
    (sessions : list bool) :
  closeIfOpen (length l) (mkBrowser (l ++ Running :: r) streams sessions)
  = mkBrowser (l ++ Closed :: r) streams sessions.
Proof.
  unfold closeIfOpen. cbn [audioContexts mediaStreams liveSessions].
  rewrite list_lookup_middle by reflexivity.
  replace (length l) with (length l + 0)%nat at 1 by lia.
  now rewrite insert_app_r.
Qed.

Lemma stopTracks_live (contexts : list ContextState) (l r : list TrackState)
    (sessions : list bool) :
  stopTracks (length l) (mkBrowser contexts (l ++ Live :: r) sessions)
  = mkBrowser contexts (l ++ Ended :: r) sessions.
Proof.
  unfold stopTracks. cbn [audioContexts mediaStreams liveSessions].
  replace (length l) with (length l + 0)%nat at 1 by lia.
  now rewrite insert_app_r.
Qed.

Lemma closeSession_open (contexts : list ContextState) (streams : list TrackState)
    (l r : list bool) :
  Teardown.closeSession (length l) (mkBrowser contexts streams (l ++ true :: r))
  = mkBrowser contexts streams (l ++ false :: r).
Proof.
  unfold Teardown.closeSession. cbn [audioContexts mediaStreams liveSessions].
  replace (length l) with (length l + 0)%nat at 1 by lia.
  now rewrite insert_app_r.
Qed.

Section WithTimeLine.
Context {T : Type} `{TimeLineOrder T} {Txt : Type}.

Lemma performAll_app (h : GeminiVoice.Handle)
    (l1 l2 : list (Session.Effect T Txt)) (b : Browser) :
  Teardown.performAll h (l1 ++ l2) b
  = Teardown.performAll h l2 (Teardown.performAll h l1 b).
Proof. unfold Teardown.performAll. apply foldl_app. Qed.

Lemma performAll_playback (h : GeminiVoice.Handle)
    (log : list (Session.Effect T Txt)) (b : Browser) :
  Forall (fun e => isPlayback e = true) log -> Teardown.performAll h log b = b.
Proof.
  induction 1 as [|e log He _ IH]; [reflexivity|].
  unfold Teardown.performAll in *. cbn [foldl].
  destruct e; try discriminate; exact IH.
Qed.

(** X13: when both awaits of [startGeminiVoice] succeed, in a browser with
    nothing left open, the start leaves resources open and the handle's
    [stop] releases all of them: both audio contexts are closed, the
    microphone track has ended, the session is closed. *)
Theorem start_then_stop_releases (b : Browser) (st : Session.State T) :
  released b = true -> Session.stopped st = false ->
  exists (h : GeminiVoice.Handle) (b1 : Browser),
    GeminiVoice.startGeminiVoice (mkEnvironment true true) b = (inr h, b1)
    /\ released b1 = false
    /\ released
         (Teardown.performAll h
            (snd (Session.exec (Session.stop (Txt := Txt)) st)) b1) = true.
Proof.
  intros Hb Hs. apply released_parts in Hb. destruct Hb as (Hc & Ht & Hl).
  destruct b as [contexts streams sessions]. cbn [audioContexts mediaStreams liveSessions] in *.
  exists (GeminiVoice.mkHandle (length contexts) (length (contexts ++ [Running]))
            (length streams) (length sessions)).
  exists (mkBrowser ((contexts ++ [Running]) ++ [Running]) (streams ++ [Live])
            (sessions ++ [true])).
  split; [reflexivity|].
  split.
  { unfold released. cbn [audioContexts mediaStreams liveSessions].
    rewrite !forallb_app. cbn. now rewrite !andb_false_r. }
  rewrite SessionFacts.stop_exec, Hs. cbn [snd].
  rewrite performAll_app.
  rewrite (performAll_playback _
             (snd (Session.exec Session.clearAudio (Session.set_stopped true st))))
    by apply SessionLaws.clearAudio_log_playback.
  unfold Teardown.performAll. cbn [foldl Teardown.perform].
  cbn [GeminiVoice.stream GeminiVoice.audioContext GeminiVoice.inputAudioContext
       GeminiVoice.session].
  rewrite length_app. cbn [length].
  rewrite <- (app_assoc contexts [Running] [Running]). cbn [app].
  rewrite stopTracks_live, closeIfOpen_running.
  replace (length contexts + 1)%nat with (length (contexts ++ [Closed]))
    by (rewrite length_app; reflexivity).
  replace (contexts ++ [Closed; Running]) with ((contexts ++ [Closed]) ++ [Running])
    by (now rewrite <- app_assoc).
  rewrite closeIfOpen_running, closeSession_open.
  apply released_parts. cbn [audioContexts mediaStreams liveSessions].
  rewrite !forallb_app, Hc, Ht, Hl. repeat split.
Qed.

End WithTimeLine.

Lemma start_then_stop_releases_witness :
  exists (h : GeminiVoice.Handle) (b1 : Browser),
    GeminiVoice.startGeminiVoice (mkEnvironment true true)
      (mkBrowser [Closed] [Ended] [false]) = (inr h, b1)
    /\ released b1 = false
    /\ released
         (Teardown.performAll h
            (snd (Session.exec (Session.stop (Txt := string))
                    (Session.initial (T := Q)))) b1) = true.
Proof.
  exact (start_then_stop_releases (T := Q) (Txt := string)
           (mkBrowser [Closed] [Ended] [false]) Session.initial eq_refl eq_refl).
Defined.

(** X14: [LiveClient.disconnect] after a successful [connect] closes the
    two audio contexts, ends the microphone track and nulls the four fields
    that [connect] sets ([audioContext], [inputAudioContext], [stream],
    [sessionPromise]), in whatever browser; the live session stays open (its
    cleanup callback is empty); a second [disconnect] changes nothing. *)
Theorem LiveClient_disconnect_leaves_session_open (b : Browser) :
  let '(error, c, b1) :=
    LiveClient.connect (mkEnvironment true true) LiveClient.created b in
  let '(c2, b2) := LiveClient.disconnect c b1 in
  error = None
  /\ c2 = LiveClient.created
  /\ b2 = mkBrowser (audioContexts b ++ [Closed; Closed])
                    (mediaStreams b ++ [Ended])
                    (liveSessions b ++ [true])
  /\ released b2 = false
  /\ LiveClient.disconnect c2 b2 = (c2, b2).
Proof.
  destruct b as [contexts streams sessions].
  unfold LiveClient.connect, newAudioContext, getUserMedia, liveConnect.
  cbn [microphoneGranted handshakeSucceeds audioContexts mediaStreams liveSessions
       LiveClient.audioContext LiveClient.inputAudioContext LiveClient.stream
       LiveClient.sessionPromise LiveClient.created].
  unfold LiveClient.disconnect.
  cbn [LiveClient.audioContext LiveClient.inputAudioContext LiveClient.stream
       LiveClient.sessionPromise].
  rewrite length_app. cbn [length].
  rewrite <- (app_assoc contexts [Running] [Running]). cbn [app].
  rewrite stopTracks_live, closeIfOpen_running.
  replace (length contexts + 1)%nat with (length (contexts ++ [Closed]))
    by (rewrite length_app; reflexivity).
  replace (contexts ++ [Closed; Running]) with ((contexts ++ [Closed]) ++ [Running])
    by (now rewrite <- app_assoc).
  rewrite closeIfOpen_running, <- app_assoc. cbn [app].
  repeat split.
  unfold released. cbn [audioContexts mediaStreams liveSessions].
  rewrite !forallb_app. cbn. now rewrite !andb_false_r.
Qed.

End ConnectLaws.

Module LectureLaws.
Import AutoTutor Lecture AutoTutorFacts.

Section WithTimeLine.
Context {T : Type} `{TimeLine T}.

Abbreviation Tutor := (AutoTutor.Tutor T).
Abbreviation Effect := (Session.Effect T Prompt).

Lemma run_app (l1 l2 : list (Event T)) (t : Tutor) :
  run (l1 ++ l2) t = run l2 (run l1 t).
Proof. unfold run. apply foldl_app. Qed.

Lemma prompts_app (l1 l2 : list Effect) :
  prompts (l1 ++ l2) = prompts l1 ++ prompts l2.
Proof.
  induction l1 as [|e l1 IH]; [reflexivity|].
  destruct e; cbn; rewrite ?IH; reflexivity.
Qed.

(** The lecture reaches its first slide. *)
Lemma lecture_opens (slide : SlideData) (rest : list SlideData) :
  let t := run [StartAutoExplain (slide :: rest); Resolves 0 VoiceStarted;
                TimerFires 1] (initial (T := T)) in
  narratingAt (slide :: rest) 0 t
  /\ prompts (outputs t) = [SlideContent 0 (length (slide :: rest)) slide].
Proof.
  cbn zeta. unfold narratingAt. vm_compute.
  repeat split. eexists. split; reflexivity.
Qed.

(** *** The narration leaves the lecture where it is *)

Lemma narration_effects (e : Event T) (session : Session.State T) :
  isNarration e = true -> Session.stopped session = false ->
  match e with
  | SessionDoes op =>
      Session.fromEnvironment op = true /\
      let '(session', log) := Session.exec (Session.step op) session in
      Session.stopped session' = false /\ Forall isNarrationEffect log
  | _ => False
  end.
Proof.
  intros He Hs.
  destruct e as [| | | | | | | | |op| |]; try discriminate.
  destruct op as [message|source| | | | | | | |]; try discriminate;
    (split; [reflexivity|]).
  - cbn [isNarration] in He. apply andb_true_iff in He. destruct He as [Hi Ht].
    apply negb_true_iff in Hi, Ht.
    assert (Hk : Session.keeps (fun st => Session.stopped st = false)
                   isNarrationEffect
                   (Session.step (Txt := Prompt) (Session.OpMessage message))).
    { cbn [Session.step]. unfold Session.handleMessage. rewrite Hi, Ht.
      destruct (Session.modelTurnParts message) as [parts|];
        [|apply SessionFacts.keeps_ret].
      apply SessionFacts.keeps_forEach. intros part. unfold Session.handlePart.
      repeat first
        [ apply SessionFacts.keeps_ret | apply SessionFacts.keeps_gets
        | apply SessionFacts.keeps_call; intros ?; exact I
        | apply SessionFacts.keeps_emit; exact I
        | apply SessionFacts.keeps_modify; intros [] ?; assumption
        | apply SessionFacts.keeps_when
        | apply SessionFacts.keeps_bind; [|intros ?]
        | match goal with
          | |- Session.keeps _ _ (match ?x with _ => _ end) => destruct x
          end ]. }
    specialize (Hk session Hs). unfold Session.exec.
    destruct (Session.step _ session) as [[u session'] log]. exact Hk.
  - assert (Hk : Session.keeps (fun st => Session.stopped st = false)
                   isNarrationEffect
                   (Session.step (Txt := Prompt) (Session.OpEnded source))).
    { cbn [Session.step]. unfold Session.sourceEnded.
      repeat first
        [ apply SessionFacts.keeps_ret | apply SessionFacts.keeps_gets
        | apply SessionFacts.keeps_call; intros ?; exact I
        | apply SessionFacts.keeps_modify; intros [] ?; assumption
        | apply SessionFacts.keeps_when
        | apply SessionFacts.keeps_bind; [|intros ?] ]. }
    specialize (Hk session Hs). unfold Session.exec.
    destruct (Session.step _ session) as [[u session'] log]. exact Hk.
Qed.

(** While a slide is narrated a render has nothing to do but to take note of
    the subtitles. *)
Lemma commit_narrating (t : Tutor) :
  tutorState t = auto_explaining -> stateRef t = auto_explaining ->
  currentSlideIndexRef t = currentSlideIndex t ->
  isAutoModeRef t = isAutoMode t -> callbacksRegistered t = isAutoMode t ->
  renderedVoiceConnected t = isVoiceConnected t ->
  commit t = set_renderedSubtitlesText (subtitlesText t) t.
Proof.
  intros H1 H2 H3 H4 H5 H6.
  destruct t as [tutorState0 isAutoMode0 currentSlideIndex0 isUserSpeaking0
    researchPanelData0 showResearchPanel0 visualOverlay0 showVisualOverlay0
    slidesRef0 stateRef0 currentSlideIndexRef0 isAutoModeRef0
    pendingSlideExplainRef0 advanceTimerRef0 researchTimerRef0
    isVisualGeneratingRef0 callbacksRegistered0 realtimeRef0 isVoiceConnected0
    isRecording0 isConnecting0 subtitlesText0 isTutorSpeaking0 isMicMuted0
    timers0 timersCreated0 inFlight0 renderedSubtitlesText0
    renderedVoiceConnected0 outputs0].
  cbn [stateRef tutorState currentSlideIndexRef currentSlideIndex isAutoModeRef
       isAutoMode callbacksRegistered renderedVoiceConnected isVoiceConnected] in *.
  subst.
  unfold commit.
  cbn [subtitlesText renderedSubtitlesText isVoiceConnected renderedVoiceConnected].
  destruct (String.eqb subtitlesText0 renderedSubtitlesText0);
    destruct isVoiceConnected0; vm_compute; reflexivity.
Qed.

Lemma noteEffect_narration (e : Effect) (t : Tutor) :
  isNarrationEffect e ->
  let t' := match e with
            | Session.Call cb _ => forward cb (noteEffect e t)
            | _ => noteEffect e t
            end in
  sameLecture t t' /\ callbacksRegistered t' = callbacksRegistered t
  /\ renderedVoiceConnected t' = renderedVoiceConnected t
  /\ isVoiceConnected t' = isVoiceConnected t
  /\ realtimeRef t' = realtimeRef t
  /\ prompts (outputs t') = prompts (outputs t).
Proof.
  intros He. cbn zeta.
  assert (Hout : forall l, prompts (l ++ [e]) = prompts l).
  { intros l. rewrite prompts_app.
    destruct e; try contradiction; cbn; apply app_nil_r. }
  destruct e as [| |cb seen| | | | | | | |]; try contradiction;
    try (unfold noteEffect, record; cbn [outputs set_outputs]; rewrite Hout;
         repeat split; fail).
  destruct cb; try contradiction;
    unfold forward, noteEffect, record, contextCallback;
    cbn [callbacksRegistered set_outputs set_subtitlesText set_isTutorSpeaking];
    destruct (callbacksRegistered t) eqn:E;
    cbn [outputs set_outputs set_subtitlesText set_isTutorSpeaking];
    rewrite Hout; repeat split; exact E.
Qed.

Lemma narration_stays (slides : list SlideData) (k : nat) (e : Event T) (t : Tutor) :
  narratingAt slides k t -> isNarration e = true ->
  narratingAt slides k (step e t)
  /\ prompts (outputs (step e t)) = prompts (outputs t).
Proof.
  intros Hn He.
  destruct Hn as (N1 & N2 & N3 & N4 & N5 & N6 & N7 & N8 & N9 & N10 & N11 & N12
                  & N13 & session & Hr & Hs).
  pose proof (narration_effects e session He Hs) as Hlog.
  destruct e as [| | | | | | | | |op| |]; try contradiction.
  destruct Hlog as [Henv Hlog].
  unfold step. cbn [handle_event]. unfold sessionDoes. rewrite Hr, Henv.
  destruct (Session.exec (Session.step op) session) as [session' log].
  destruct Hlog as [Hs' Hlog].
  set (t0 := set_realtimeRef (Some session') t).
  assert (J : sameLecture t t0 /\ callbacksRegistered t0 = callbacksRegistered t
              /\ renderedVoiceConnected t0 = renderedVoiceConnected t
              /\ isVoiceConnected t0 = isVoiceConnected t
              /\ realtimeRef t0 = Some session'
              /\ prompts (outputs t0) = prompts (outputs t)).
  { repeat split. }
  clearbody t0. revert t0 J.
  induction Hlog as [|e log He' _ IH]; intros t0 J; cbn [foldl].
  - destruct J as (S0 & J1 & J2 & J3 & J4 & J5).
    destruct S0 as (S1 & S2 & S3 & S4 & S5 & S6 & S7 & S8 & S9 & S10 & S11 & S12 & S13).
    rewrite commit_narrating by congruence.
    split; [|exact J5].
    unfold narratingAt.
    cbn [tutorState stateRef isAutoMode isAutoModeRef callbacksRegistered
         currentSlideIndex currentSlideIndexRef slidesRef timers timersCreated
         inFlight renderedVoiceConnected isVoiceConnected realtimeRef
         advanceTimerRef set_renderedSubtitlesText].
    repeat split; try congruence. exists session'. split; assumption.
  - apply IH.
    destruct (noteEffect_narration e t0 He') as (A & B & C & D & E & F).
    cbn zeta in *.
    destruct J as (S0 & J1 & J2 & J3 & J4 & J5).
    split; [eapply sameLecture_trans; eassumption|].
    repeat split; congruence.
Qed.

Lemma narration_run (slides : list SlideData) (k : nat) (events : list (Event T))
    (t : Tutor) :
  narratingAt slides k t -> Forall (fun e => isNarration e = true) events ->
  narratingAt slides k (run events t)
  /\ prompts (outputs (run events t)) = prompts (outputs t).
Proof.
  intros Hn He. revert t Hn.
  induction He as [|e events He _ IH]; intros t Hn; [now split|].
  unfold run. cbn [foldl]. fold (run events (step e t)).
  destruct (narration_stays slides k e t Hn He) as [Hn' Hp].
  destruct (IH _ Hn') as [Hn'' Hp']. split; [exact Hn''|congruence].
Qed.

Lemma timerFires_only (t : Tutor) (h : nat) (d : Z) (cb : TimerCallback) :
  timers t = [mkTimer h d cb] ->
  timerFires h t = timerBody cb (set_timers [] t).
Proof.
  intros Ht. unfold timerFires, clearTimeout. rewrite Ht.
  cbn [List.find handle callback].
  rewrite bool_decide_eq_true_2 by reflexivity.
  rewrite filter_cons_False by (cbn; intros Hne; now apply Hne).
  reflexivity.
Qed.

Lemma explainCurrentSlide_eq (t : Tutor) (slide : SlideData) :
  slidesRef t !! currentSlideIndexRef t = Some slide ->
  explainCurrentSlide t
  = sendTextToTutor
      (SlideContent (currentSlideIndexRef t) (length (slidesRef t)) slide)
      (clearSubtitles (set_tutorState auto_explaining t)).
Proof. intros Hs. unfold explainCurrentSlide. now rewrite Hs. Qed.

(** One slide on: the turn completes, the advance timer fires. *)
Lemma lecture_advances (slides : list SlideData) (k : nat) (slide : SlideData)
    (t : Tutor) :
  narratingAt slides k t -> slides !! S k = Some slide ->
  let t' := run [turnCompleted; TimerFires (S (S k))] t in
  narratingAt slides (S k) t'
  /\ prompts (outputs t')
     = prompts (outputs t) ++ [SlideContent (S k) (length slides) slide].
Proof.
  intros Hn Hs. cbn zeta.
  assert (Hlen : (length slides <=? S k)%nat = false).
  { apply Nat.leb_gt. apply lookup_lt_Some in Hs. lia. }
  destruct Hn as (N1 & N2 & N3 & N4 & N5 & N6 & N7 & N8 & N9 & N10 & N11 & N12
                  & N13 & session & Hr & Hst).
  destruct t as [tutorState0 isAutoMode0 currentSlideIndex0 isUserSpeaking0
    researchPanelData0 showResearchPanel0 visualOverlay0 showVisualOverlay0
    slidesRef0 stateRef0 currentSlideIndexRef0 isAutoModeRef0
    pendingSlideExplainRef0 advanceTimerRef0 researchTimerRef0
    isVisualGeneratingRef0 callbacksRegistered0 realtimeRef0 isVoiceConnected0
    isRecording0 isConnecting0 subtitlesText0 isTutorSpeaking0 isMicMuted0
    timers0 timersCreated0 inFlight0 renderedSubtitlesText0
    renderedVoiceConnected0 outputs0].
  destruct session as [muted0 stopped0 nextStartTime0 isSpeaking0 activeSources0
    sourcesCreated0 lastActivityTime0].
  cbn [tutorState stateRef isAutoMode isAutoModeRef callbacksRegistered
       currentSlideIndex currentSlideIndexRef slidesRef timers timersCreated
       inFlight advanceTimerRef renderedVoiceConnected isVoiceConnected
       realtimeRef Session.stopped]
    in N1, N2, N3, N4, N5, N6, N7, N8, N9, N10, N11, N12, N13, Hr, Hst.
  subst.
  match goal with
  | |- context [run ?events ?t] => eassert (E : run events t = _)
  end.
  { unfold run. cbn [foldl].
    unfold step at 2. unfold turnCompleted. cbn [handle_event].
    unfold sessionDoes. cbn [realtimeRef Session.fromEnvironment].
    cbn [Session.step Session.exec Session.handleMessage Session.interrupted
         Session.turnComplete Session.call foldl].
    cbn [noteEffect record contextCallback outputs set_outputs].
    unfold forward, handleTurnComplete.
    cbn [record set_realtimeRef set_outputs callbacksRegistered stateRef slidesRef
         currentSlideIndexRef outputs].
    rewrite Nat.add_1_r, Hlen.
    rewrite commit_narrating by (vm_compute; reflexivity).
    cbv -[app step length lookup].
    unfold step. cbn [handle_event].
    erewrite timerFires_only by reflexivity.
    unfold timerBody.
    cbn [stateRef isAutoModeRef set_advanceTimerRef set_timers].
    rewrite bool_decide_eq_true_2 by reflexivity. cbn [andb].
    unfold block. cbn [foldl].
    rewrite (explainCurrentSlide_eq _ slide) by exact Hs.
    rewrite commit_narrating by (vm_compute; reflexivity).
    reflexivity. }
  rewrite E. clear E. split.
  - unfold narratingAt. vm_compute. repeat split. eexists. split; reflexivity.
  - match goal with
    | |- prompts (outputs ?t) = _ =>
        replace (outputs t)
          with ((outputs0
                   ++ [Session.Call Session.onTurnComplete
                         (Session.mkState muted0 false nextStartTime0
                            isSpeaking0 activeSources0 sourcesCreated0
                            lastActivityTime0)])
                  ++ [Session.SendClientContent
                        (SlideContent (S k) (length slides) slide)])
          by (vm_compute; reflexivity)
    end.
    rewrite !prompts_app. cbn [prompts app outputs]. now rewrite app_nil_r.
Qed.

(** A render that finds the lecture finished. *)
Lemma commit_finished (t : Tutor) :
  tutorState t = finished ->
  renderedVoiceConnected t = isVoiceConnected t ->
  tutorState (commit t) = finished /\ timers (commit t) = timers t
  /\ inFlight (commit t) = inFlight t /\ outputs (commit t) = outputs t.
Proof.
  intros H1 H2.
  destruct t as [tutorState0 isAutoMode0 currentSlideIndex0 isUserSpeaking0
    researchPanelData0 showResearchPanel0 visualOverlay0 showVisualOverlay0
    slidesRef0 stateRef0 currentSlideIndexRef0 isAutoModeRef0
    pendingSlideExplainRef0 advanceTimerRef0 researchTimerRef0
    isVisualGeneratingRef0 callbacksRegistered0 realtimeRef0 isVoiceConnected0
    isRecording0 isConnecting0 subtitlesText0 isTutorSpeaking0 isMicMuted0
    timers0 timersCreated0 inFlight0 renderedSubtitlesText0
    renderedVoiceConnected0 outputs0].
  cbn [tutorState renderedVoiceConnected isVoiceConnected timers inFlight outputs] in *.
  subst.
  unfold commit.
  cbn [subtitlesText renderedSubtitlesText isVoiceConnected renderedVoiceConnected
       tutorState stateRef].
  destruct (String.eqb subtitlesText0 renderedSubtitlesText0);
    destruct (bool_decide (finished = stateRef0));
    destruct isVoiceConnected0; vm_compute; repeat split.
Qed.

(** The turn on the last slide ends the lecture. *)
Lemma lecture_ends (slides : list SlideData) (k : nat) (t : Tutor) :
  narratingAt slides k t -> length slides = S k ->
  let t' := step turnCompleted t in
  tutorState t' = finished /\ timers t' = [] /\ inFlight t' = []
  /\ prompts (outputs t') = prompts (outputs t).
Proof.
  intros Hn Hlen. cbn zeta.
  assert (Hle : (length slides <=? S k)%nat = true) by (apply Nat.leb_le; lia).
  destruct Hn as (N1 & N2 & N3 & N4 & N5 & N6 & N7 & N8 & N9 & N10 & N11 & N12
                  & N13 & session & Hr & Hst).
  unfold step. unfold turnCompleted. cbn [handle_event].
  unfold sessionDoes. rewrite Hr. cbn [Session.fromEnvironment].
  cbn [Session.step Session.exec Session.handleMessage Session.interrupted
       Session.turnComplete Session.call foldl].
  unfold forward, noteEffect, record, contextCallback.
  cbn [callbacksRegistered set_outputs set_realtimeRef]. rewrite N5.
  unfold handleTurnComplete.
  cbn [stateRef slidesRef currentSlideIndexRef set_outputs set_realtimeRef].
  rewrite N2, N7, N8, Nat.add_1_r, Hle.
  match goal with |- context [commit ?x] => set (t1 := x) end.
  destruct (commit_finished t1) as (A & B & C & D); [reflexivity|exact N13|].
  rewrite A, B, C, D. subst t1.
  cbn [timers inFlight outputs set_tutorState set_outputs set_realtimeRef].
  rewrite prompts_app. cbn [prompts]. rewrite app_nil_r.
  repeat split; assumption.
Qed.

Lemma lecture_reaches (slides : list SlideData) (stream : nat -> list (Event T))
    (j : nat) :
  (forall k, Forall (fun e => isNarration e = true) (stream k)) ->
  (j < length slides)%nat ->
  let t := run ([StartAutoExplain slides; Resolves 0 VoiceStarted; TimerFires 1]
                ++ flat_map (fun k => stream k ++ [turnCompleted; TimerFires (S (S k))])
                            (seq 0 j))
               initial in
  narratingAt slides j t
  /\ prompts (outputs t)
     = imap (fun i s => SlideContent i (length slides) s) (take (S j) slides).
Proof.
  intros Hstream. cbn zeta. induction j as [|j IH]; intros Hj.
  - destruct slides as [|slide rest]; [cbn in Hj; lia|].
    cbn [seq flat_map]. rewrite app_nil_r. apply lecture_opens.
  - destruct IH as (Hn & Hout); [lia|].
    destruct (lookup_lt_is_Some_2 slides (S j) Hj) as [slide Hs].
    rewrite seq_S, flat_map_app, app_assoc, run_app. cbn [flat_map].
    rewrite app_nil_r, Nat.add_0_l, run_app.
    destruct (narration_run slides j (stream j) _ Hn (Hstream j)) as [Hn1 Hp1].
    destruct (lecture_advances slides j slide _ Hn1 Hs) as [Hn2 Hp2].
    cbn zeta in Hn2, Hp2. split; [exact Hn2|].
    rewrite Hp2, Hp1, Hout.
    rewrite (take_S_r slides (S j) slide Hs), imap_app. cbn [imap].
    rewrite length_take_le by lia. now rewrite Nat.add_0_r.
Qed.

(** X17: a lecture that nobody interrupts narrates every slide once, in
    order, and finishes.  Whatever text and audio the model streams while it
    narrates, the prompts sent are the contents of the slides in their order,
    the turn on the last slide leaves the state [finished], and no timer and
    no async call is left pending. *)
Theorem uninterrupted_lecture_narrates_every_slide
    (slides : list SlideData) (stream : nat -> list (Event T)) :
  slides <> [] ->
  (forall k, Forall (fun e => isNarration e = true) (stream k)) ->
  let t := run (uninterrupted slides stream) initial in
  tutorState t = finished
  /\ prompts (outputs t)
     = imap (fun i slide => SlideContent i (length slides) slide) slides
  /\ timers t = [] /\ inFlight t = [].
Proof.
  intros Hne Hstream. cbn zeta.
  assert (Hlen : (length slides - 1 < length slides)%nat)
    by (destruct slides; [congruence|cbn; lia]).
  destruct (lecture_reaches slides stream _ Hstream Hlen) as (Hn & Hout).
  cbn zeta in Hn, Hout.
  unfold uninterrupted. rewrite app_assoc, run_app, run_app.
  destruct (narration_run slides _ (stream (length slides - 1)%nat) _ Hn
              (Hstream _)) as [Hn1 Hp1].
  destruct (lecture_ends slides (length slides - 1) _ Hn1) as (A & B & C & D); [lia|].
  cbn zeta in *.
  change (run [turnCompleted]) with (step (T := T) turnCompleted).
  repeat split; try assumption.
  rewrite D, Hp1, Hout.
  replace (S (length slides - 1)) with (length slides) by lia.
  now rewrite firstn_all.
Qed.

End WithTimeLine.

Lemma uninterrupted_lecture_narrates_every_slide_witness :
  let t := run (uninterrupted twoSlides spoken) (initial (T := Q)) in
  tutorState t = finished
  /\ prompts (outputs t) = [SlideContent 0 2 slideOne; SlideContent 1 2 slideTwo]
  /\ timers t = [] /\ inFlight t = [].
Proof.
  refine (uninterrupted_lecture_narrates_every_slide (T := Q) twoSlides spoken _ _).
  - discriminate.
  - intros k. repeat constructor.
Defined.

End LectureLaws.

Module AutoTutorLaws.
Import AutoTutor Rest AutoTutorFacts.

Section WithTimeLine.
Context {T : Type} `{TimeLine T}.

Abbreviation Tutor := (AutoTutor.Tutor T).
Abbreviation Effect := (Session.Effect T Prompt).

Ltac lecture_split :=
  repeat match goal with
         | H : sameLecture _ _ |- _ =>
             destruct H as (? & ? & ? & ? & ? & ? & ? & ? & ? & ? & ? & ? & ?)
         end.

Lemma noteEffect_registration (e : Effect) (t : Tutor) :
  callbacksRegistered (noteEffect e t) = callbacksRegistered t.
Proof.
  destruct e as [| |cb seen| | | | | | | |]; try reflexivity.
  destruct cb; reflexivity.
Qed.

(** With no lecture callbacks registered a session event is only noted. *)
Lemma sessionDoes_unregistered (op : Session.Op T Prompt) (t : Tutor) :
  callbacksRegistered t = false ->
  sameLecture t (sessionDoes op t)
  /\ callbacksRegistered (sessionDoes op t) = false.
Proof.
  intros Hreg. unfold sessionDoes.
  destruct (realtimeRef t) as [session|]; [|split; [apply sameLecture_refl|exact Hreg]].
  destruct (Session.fromEnvironment op); [|split; [apply sameLecture_refl|exact Hreg]].
  destruct (Session.exec (Session.step op) session) as [session' log].
  assert (Hstart : sameLecture t (set_realtimeRef (Some session') t)
                   /\ callbacksRegistered (set_realtimeRef (Some session') t) = false).
  { split; [|exact Hreg]. unfold sameLecture. cbn. repeat split. }
  revert Hstart. generalize (set_realtimeRef (Some session') t) as t1.
  induction log as [|e log IH]; intros t1 [Hs Hr]; cbn [foldl]; [now split|].
  apply IH.
  assert (Hn : sameLecture t (noteEffect e t1)
               /\ callbacksRegistered (noteEffect e t1) = false).
  { split.
    - eapply sameLecture_trans; [exact Hs|apply sameLecture_noteEffect].
    - now rewrite noteEffect_registration. }
  destruct e as [| |cb seen| | | | | | | |]; try exact Hn.
  unfold forward. destruct Hn as [Hn1 Hn2]. rewrite Hn2. now split.
Qed.

Lemma commit_idle (t : Tutor) :
  atRest t -> isAutoMode t = false -> tutorState t = idle ->
  sameLecture t (commit t) /\ atRest (commit t)
  /\ realtimeRef (commit t) = realtimeRef t /\ outputs (commit t) = outputs t.
Proof.
  intros (R1 & R2 & R3 & R4) Hauto Hidle.
  destruct t as [tutorState0 isAutoMode0 currentSlideIndex0 isUserSpeaking0
    researchPanelData0 showResearchPanel0 visualOverlay0 showVisualOverlay0
    slidesRef0 stateRef0 currentSlideIndexRef0 isAutoModeRef0
    pendingSlideExplainRef0 advanceTimerRef0 researchTimerRef0
    isVisualGeneratingRef0 callbacksRegistered0 realtimeRef0 isVoiceConnected0
    isRecording0 isConnecting0 subtitlesText0 isTutorSpeaking0 isMicMuted0
    timers0 timersCreated0 inFlight0 renderedSubtitlesText0
    renderedVoiceConnected0 outputs0].
  cbn [stateRef tutorState currentSlideIndexRef currentSlideIndex isAutoModeRef
       isAutoMode callbacksRegistered] in *.
  subst.
  unfold commit.
  cbn [subtitlesText renderedSubtitlesText isVoiceConnected renderedVoiceConnected].
  destruct (String.eqb subtitlesText0 renderedSubtitlesText0);
    destruct isVoiceConnected0, renderedVoiceConnected0, pendingSlideExplainRef0;
    vm_compute; repeat split.
Qed.

(** X15: while no lecture is on (state [idle], auto mode off, the refs in
    step with the state) nothing the voice session reports -- text, audio,
    the end of a turn, an interruption, speech detected by the VAD -- moves
    the lecture or sets a timer. *)
Theorem idle_lecture_ignores_session
    (ops : list (Session.Op T Prompt)) (t : Tutor) :
  atRest t -> isAutoMode t = false -> tutorState t = idle ->
  let t' := run (map SessionDoes ops) t in
  sameLecture t t' /\ atRest t'.
Proof.
  revert t. induction ops as [|op ops IH]; intros t Hrest Hauto Hidle; cbn zeta.
  { split; [apply sameLecture_refl|exact Hrest]. }
  cbn [map]. unfold run. cbn [foldl]. fold (run (map SessionDoes ops)).
  unfold step at 1. cbn [handle_event].
  assert (Hreg : callbacksRegistered t = false).
  { destruct Hrest as (_ & _ & _ & R4). congruence. }
  destruct (sessionDoes_unregistered op t Hreg) as [S1 Hreg1].
  set (t1 := sessionDoes op t) in *.
  assert (Hrest1 : atRest t1).
  { destruct Hrest as (R1 & R2 & R3 & R4). unfold atRest. lecture_split.
    repeat split; congruence. }
  assert (Hauto1 : isAutoMode t1 = false) by (lecture_split; congruence).
  assert (Hidle1 : tutorState t1 = idle) by (lecture_split; congruence).
  destruct (commit_idle t1 Hrest1 Hauto1 Hidle1) as (S2 & Hrest2 & _ & _).
  set (t2 := commit t1) in *.
  assert (Hauto2 : isAutoMode t2 = false) by (lecture_split; congruence).
  assert (Hidle2 : tutorState t2 = idle) by (lecture_split; congruence).
  destruct (IH t2 Hrest2 Hauto2 Hidle2) as [S3 Hrest3]. cbn zeta in *.
  split; [|exact Hrest3].
  eapply sameLecture_trans; [exact S1|].
  eapply sameLecture_trans; [exact S2|exact S3].
Qed.

End WithTimeLine.

Lemma idle_lecture_ignores_session_witness :
  let t := run [StartVoiceTutor; Resolves 0 VoiceStarted] (initial (T := Q)) in
  let t' :=
    run (map SessionDoes
           [Session.OpAudioProcess Session.loudFrame 1000;
            Session.OpMessage (subtitleMessage "please continue")]) t in
  sameLecture t t' /\ atRest t'.
Proof.
  intros t.
  refine (idle_lecture_ignores_session (T := Q)
            [Session.OpAudioProcess Session.loudFrame 1000;
             Session.OpMessage (subtitleMessage "please continue")] t _ _ _);
    vm_compute; repeat split.
Defined.

End AutoTutorLaws.

Module TimerLaws.
Import AutoTutor Pending AutoTutorFacts.

Section WithTimeLine.
Context {T : Type} `{TimeLine T}.

Abbreviation Tutor := (AutoTutor.Tutor T).
Abbreviation Effect := (Session.Effect T Prompt).

Lemma keepsTimers_tracks (f : Tutor -> Tutor) : keepsTimers f -> tracksTimers f.
Proof.
  intros Hf t (A & B & C). destruct (Hf t) as (E1 & E2 & E3).
  unfold timersTracked. rewrite E1, E2, E3. auto.
Qed.

Lemma keepsTimers_id : keepsTimers (fun t : Tutor => t).
Proof. intros t. auto. Qed.

Lemma keepsTimers_compose (f g : Tutor -> Tutor) :
  keepsTimers f -> keepsTimers g -> keepsTimers (fun t => g (f t)).
Proof.
  intros Hf Hg t. destruct (Hf t) as (A & B & C).
  destruct (Hg (f t)) as (A' & B' & C'). repeat split; congruence.
Qed.

Lemma keepsTimers_block (l : list (Tutor -> Tutor)) :
  Forall keepsTimers l -> keepsTimers (block l).
Proof.
  unfold block. induction 1 as [|f l Hf _ IH]; intros t; cbn [foldl]; [auto|].
  destruct (Hf t) as (A & B & C). destruct (IH (f t)) as (A' & B' & C').
  repeat split; congruence.
Qed.

Lemma tracksTimers_block (l : list (Tutor -> Tutor)) :
  Forall tracksTimers l -> tracksTimers (block l).
Proof.
  unfold block. induction 1 as [|f l Hf _ IH]; intros t Ht; cbn [foldl]; [auto|].
  apply IH, Hf, Ht.
Qed.

Lemma keepsTimers_sameLecture (f : Tutor -> Tutor) :
  (forall t, sameLecture t (f t)) -> keepsTimers f.
Proof.
  intros Hf t. destruct (Hf t) as (? & ? & ? & ? & ? & ? & ? & ? & ? & ? & ? & ? & ?).
  auto.
Qed.

Ltac plain := intros ?; repeat split.

Lemma keepsTimers_contextCallback (cb : Session.Callback) :
  keepsTimers (contextCallback (T := T) cb).
Proof. destruct cb; plain. Qed.

Lemma keepsTimers_onHandle (m : Session.M T Prompt unit) : keepsTimers (onHandle m).
Proof. apply keepsTimers_sameLecture, sameLecture_onHandle. Qed.

Lemma keepsTimers_noteEffect (e : Effect) : keepsTimers (noteEffect e).
Proof. apply keepsTimers_sameLecture. intros t. apply sameLecture_noteEffect. Qed.

Lemma keepsTimers_stopAudioPlayback : keepsTimers (stopAudioPlayback (T := T)).
Proof. apply keepsTimers_sameLecture, sameLecture_stopAudioPlayback. Qed.

Lemma keepsTimers_sendTextToTutor (p : Prompt) : keepsTimers (sendTextToTutor (T := T) p).
Proof. apply keepsTimers_sameLecture, sameLecture_sendTextToTutor. Qed.

Lemma keepsTimers_stopVoiceTutor : keepsTimers (stopVoiceTutor (T := T)).
Proof.
  apply keepsTimers_block.
  repeat (constructor; [first [apply keepsTimers_onHandle|plain]|]). constructor.
Qed.

Lemma keepsTimers_muteMic : keepsTimers (muteMic (T := T)).
Proof.
  apply keepsTimers_block.
  repeat (constructor; [first [apply keepsTimers_onHandle|plain]|]). constructor.
Qed.

Lemma keepsTimers_unmuteMic : keepsTimers (unmuteMic (T := T)).
Proof.
  apply keepsTimers_block.
  repeat (constructor; [first [apply keepsTimers_onHandle|plain]|]). constructor.
Qed.

Lemma keepsTimers_explainCurrentSlide : keepsTimers (explainCurrentSlide (T := T)).
Proof.
  intros t. unfold explainCurrentSlide.
  destruct (slidesRef t !! currentSlideIndexRef t) as [slide|]; [|repeat split].
  apply (keepsTimers_block
           [set_tutorState auto_explaining; clearSubtitles;
            sendTextToTutor (SlideContent (currentSlideIndexRef t)
                               (length (slidesRef t)) slide)]).
  repeat (constructor; [first [apply keepsTimers_sendTextToTutor|plain]|]).
  constructor.
Qed.

Lemma keepsTimers_resume (p : Pending) (o : Outcome) : keepsTimers (resume (T := T) p o).
Proof.
  assert (Hif : forall b : bool,
            keepsTimers (if b then set_pendingSlideExplainRef true
                         else fun t : Tutor => t))
    by (intros []; plain).
  destruct p as [fromLecture|recentText currentSlide|recentText
                 |isVideo recentText currentSlide];
    destruct o as [| |questionType|teacherScript|u];
    try apply keepsTimers_id;
    try destruct questionType; try apply keepsTimers_id;
    try (destruct u as [[|c u]|]);
    unfold resume;
    apply keepsTimers_block;
    repeat (constructor;
            [first [ apply keepsTimers_contextCallback
                   | apply keepsTimers_stopVoiceTutor
                   | apply keepsTimers_muteMic
                   | apply keepsTimers_unmuteMic
                   | apply keepsTimers_sendTextToTutor
                   | apply Hif
                   | plain ]|]);
    constructor.
Qed.

(** *** Setting and clearing timers *)

Lemma Forall_filtered {A} (P Q : A -> Prop) `{forall x, Decision (P x)}
    (l : list A) :
  Forall Q l -> Forall Q (filter P l).
Proof.
  rewrite !Forall_forall. intros HQ x Hx.
  apply list_elem_of_filter in Hx. destruct Hx as [_ Hx]. auto.
Qed.

Lemma tracksTimers_set_timers_filter (P : Timer -> Prop)
    `{forall tm, Decision (P tm)} (t : Tutor) :
  timersTracked t -> timersTracked (set_timers (filter P (timers t)) t).
Proof.
  intros (A & B & C). unfold timersTracked. cbn [timers timersCreated advanceTimerRef set_timers].
  split; [|split].
  - apply (sublist_NoDup _ (handle <$> timers t));
      first [exact A|apply fmap_sublist, sublist_filter].
  - now apply Forall_filtered.
  - now apply Forall_filtered.
Qed.

Lemma tracksTimers_clearTimeout (h : nat) : tracksTimers (clearTimeout (T := T) h).
Proof. intros t. apply tracksTimers_set_timers_filter. Qed.

Lemma tracksTimers_clearTimeoutOf (ref : Tutor -> option nat) :
  tracksTimers (clearTimeoutOf ref).
Proof.
  intros t Ht. unfold clearTimeoutOf.
  destruct (ref t); [now apply tracksTimers_clearTimeout|exact Ht].
Qed.

Lemma fresh_handle (t : Tutor) :
  Forall (fun tm => (handle tm <= timersCreated t)%nat) (timers t) ->
  S (timersCreated t) ∉ handle <$> timers t.
Proof.
  intros B Hin. apply list_elem_of_fmap in Hin. destruct Hin as (tm & Heq & Hin).
  rewrite Forall_forall in B. specialize (B tm Hin). lia.
Qed.

Lemma tracksTimers_setTimeout (cb : TimerCallback) (ms : Z) :
  match cb with AdvanceSlide _ => False | _ => True end ->
  tracksTimers (fun t : Tutor => snd (setTimeout cb ms t)).
Proof.
  intros Hcb t (A & B & C). unfold setTimeout, timersTracked.
  cbn [snd timers timersCreated advanceTimerRef set_timers set_timersCreated].
  split; [|split].
  - rewrite fmap_app. apply NoDup_app. split; [exact A|]. split.
    + intros h Hh Hnew. cbn in Hnew. apply list_elem_of_singleton in Hnew. subst h.
      now apply (fresh_handle t B).
    + cbn. apply NoDup_singleton.
  - apply Forall_app. split.
    + eapply Forall_impl; [exact B|]. cbn. intros; lia.
    + repeat constructor.
  - apply Forall_app. split; [exact C|].
    repeat constructor. unfold isAdvance. cbn. destruct cb; try discriminate.
    contradiction.
Qed.

(** After [advanceTimerRef]'s timer is cleared no auto-advance is pending. *)
Lemma cancel_advance (t : Tutor) :
  timersTracked t ->
  timersTracked (clearTimeoutOf advanceTimerRef t)
  /\ Forall (fun tm => isAdvance tm = false)
            (timers (clearTimeoutOf advanceTimerRef t))
  /\ timersCreated (clearTimeoutOf advanceTimerRef t) = timersCreated t.
Proof.
  intros Ht. split; [now apply tracksTimers_clearTimeoutOf|].
  destruct Ht as (A & B & C). unfold clearTimeoutOf, clearTimeout.
  rewrite Forall_forall in C.
  destruct (advanceTimerRef t) as [h|] eqn:Href;
    cbn [timers timersCreated set_timers]; (split; [|reflexivity]);
    apply Forall_forall; intros tm Hin.
  - apply list_elem_of_filter in Hin. destruct Hin as [Hne Hin].
    destruct (isAdvance tm) eqn:E; [|reflexivity].
    specialize (C tm Hin E). congruence.
  - destruct (isAdvance tm) eqn:E; [|reflexivity].
    specialize (C tm Hin E). congruence.
Qed.

Lemma tracked_without_advance (t : Tutor) (ref : option nat) :
  timersTracked t -> Forall (fun tm => isAdvance tm = false) (timers t) ->
  timersTracked (set_advanceTimerRef ref t).
Proof.
  intros (A & B & _) Hno. unfold timersTracked.
  cbn [timers timersCreated advanceTimerRef set_advanceTimerRef].
  repeat split; try assumption.
  eapply Forall_impl; [exact Hno|]. cbn. congruence.
Qed.

Lemma tracksTimers_handleTurnComplete : tracksTimers (handleTurnComplete (T := T)).
Proof.
  intros t Ht. unfold handleTurnComplete.
  destruct (stateRef t); try exact Ht;
    try solve [revert t Ht; apply keepsTimers_tracks; intros ?; repeat split].
  - destruct (_ <=? _)%nat.
    { revert t Ht. apply keepsTimers_tracks. intros ?; repeat split. }
    destruct (cancel_advance t Ht) as ((A & B & _) & Hno & Hcount).
    set (t1 := clearTimeoutOf advanceTimerRef t) in *.
    unfold setTimeout, timersTracked.
    cbn [timers timersCreated advanceTimerRef set_timers set_timersCreated
         set_advanceTimerRef].
    split; [|split].
    + rewrite fmap_app. apply NoDup_app. split; [exact A|]. split.
      * intros h Hh Hnew. cbn in Hnew. apply list_elem_of_singleton in Hnew. subst h.
        now apply (fresh_handle t1 B).
      * cbn. apply NoDup_singleton.
    + apply Forall_app. split.
      * eapply Forall_impl; [exact B|]. cbn. intros; lia.
      * repeat constructor.
    + apply Forall_app. split.
      * eapply Forall_impl; [exact Hno|]. cbn. congruence.
      * repeat constructor.
  - destruct (isVisualGeneratingRef t); [exact Ht|].
    now apply (tracksTimers_setTimeout CloseVisual 1000).
Qed.

Lemma tracksTimers_handleUserSpeechDetected :
  tracksTimers (handleUserSpeechDetected (T := T)).
Proof.
  intros t Ht. unfold handleUserSpeechDetected.
  destruct (stateRef t); try exact Ht.
  revert t Ht. apply tracksTimers_block.
  constructor.
  { intros t Ht. destruct (cancel_advance t Ht) as (A & Hno & _).
    unfold clearTimeoutOf in *. destruct (advanceTimerRef t); [|exact Ht].
    now apply tracked_without_advance. }
  repeat (constructor;
          [first [ apply (tracksTimers_setTimeout SettleIntoAnswering 2000); exact I
                 | apply keepsTimers_tracks;
                   first [apply keepsTimers_stopAudioPlayback|intros ?; repeat split] ]|]).
  constructor.
Qed.

Lemma tracksTimers_forward (cb : Session.Callback) : tracksTimers (forward (T := T) cb).
Proof.
  intros t Ht. unfold forward. destruct (callbacksRegistered t); [|exact Ht].
  destruct cb; try exact Ht;
    first [now apply tracksTimers_handleTurnComplete
          |now apply tracksTimers_handleUserSpeechDetected].
Qed.

Lemma tracksTimers_sessionDoes (op : Session.Op T Prompt) :
  tracksTimers (sessionDoes op).
Proof.
  intros t Ht. unfold sessionDoes.
  destruct (realtimeRef t) as [session|]; [|exact Ht].
  destruct (Session.fromEnvironment op); [|exact Ht].
  destruct (Session.exec (Session.step op) session) as [session' log].
  assert (Hstart : timersTracked (set_realtimeRef (Some session') t)) by exact Ht.
  revert Hstart. generalize (set_realtimeRef (Some session') t) as t1.
  induction log as [|e log IH]; intros t1 Ht1; cbn [foldl]; [exact Ht1|].
  apply IH.
  pose proof (keepsTimers_tracks _ (keepsTimers_noteEffect e) t1 Ht1) as Hn.
  destruct e as [| |cb seen| | | | | | | |]; try exact Hn.
  now apply tracksTimers_forward.
Qed.

Lemma tracksTimers_timerFires (h : nat) : tracksTimers (timerFires (T := T) h).
Proof.
  intros t Ht. unfold timerFires.
  destruct (List.find _ (timers t)) as [tm|] eqn:Hfind; [|exact Ht].
  apply find_some in Hfind. destruct Hfind as [Hin Hh].
  apply bool_decide_eq_true in Hh. apply list_elem_of_In in Hin.
  pose proof (tracksTimers_clearTimeout h t Ht) as Ht1.
  destruct (callback tm) as [nextIndex| | | |subtitles|] eqn:Hcb; unfold timerBody.
  - assert (Href : advanceTimerRef t = Some h).
    { destruct Ht as (_ & _ & C). rewrite Forall_forall in C.
      rewrite <- Hh. apply C; [exact Hin|]. unfold isAdvance. now rewrite Hcb. }
    assert (Ht2 : timersTracked (set_advanceTimerRef None (clearTimeout h t))).
    { destruct (cancel_advance t Ht) as (_ & Hno & _).
      unfold clearTimeoutOf in Hno. rewrite Href in Hno.
      now apply tracked_without_advance. }
    destruct (_ && _); [|exact Ht2].
    revert Ht2. generalize (set_advanceTimerRef None (clearTimeout h t)).
    apply keepsTimers_tracks, keepsTimers_block.
    repeat (constructor;
            [first [apply keepsTimers_explainCurrentSlide|intros ?; repeat split]|]).
    constructor.
  - revert Ht1. generalize (clearTimeout h t).
    apply keepsTimers_tracks, keepsTimers_block.
    repeat (constructor;
            [first [apply keepsTimers_unmuteMic|intros ?; repeat split]|]).
    constructor.
  - destruct (bool_decide _); [|exact Ht1].
    revert Ht1. generalize (clearTimeout h t).
    apply keepsTimers_tracks, keepsTimers_block.
    repeat (constructor; [intros ?; repeat split|]). constructor.
  - destruct (bool_decide _); [|exact Ht1].
    cbv zeta.
    assert (Ht2 : timersTracked
                    (if (currentSlideIndexRef (clearTimeout h t) + 1
                         <? length (slidesRef (clearTimeout h t)))%nat
                     then set_currentSlideIndexRef
                            (currentSlideIndexRef (clearTimeout h t) + 1)
                            (set_currentSlideIndex
                               (currentSlideIndexRef (clearTimeout h t) + 1)
                               (clearTimeout h t))
                     else clearTimeout h t)).
    { destruct (_ <? _)%nat; exact Ht1. }
    revert Ht2. generalize (if (currentSlideIndexRef (clearTimeout h t) + 1
                         <? length (slidesRef (clearTimeout h t)))%nat
                     then set_currentSlideIndexRef
                            (currentSlideIndexRef (clearTimeout h t) + 1)
                            (set_currentSlideIndex
                               (currentSlideIndexRef (clearTimeout h t) + 1)
                               (clearTimeout h t))
                     else clearTimeout h t).
    apply keepsTimers_tracks, keepsTimers_block.
    repeat (constructor;
            [first [apply keepsTimers_explainCurrentSlide|intros ?; repeat split]|]).
    constructor.
  - cbv zeta.
    assert (Ht2 : timersTracked (set_researchTimerRef None (clearTimeout h t)))
      by exact Ht1.
    destruct (negb _); [exact Ht2|].
    destruct (_ !! _); [|exact Ht2].
    destruct (negb _); exact Ht2.
  - revert Ht1. generalize (clearTimeout h t).
    apply keepsTimers_tracks, keepsTimers_explainCurrentSlide.
Qed.

Lemma tracksTimers_resolves (n : nat) (o : Outcome) :
  tracksTimers (resolves (T := T) n o).
Proof.
  intros t Ht. unfold resolves. destruct (inFlight t !! n) as [p|]; [|exact Ht].
  apply (keepsTimers_tracks _ (keepsTimers_resume p o)). exact Ht.
Qed.

Lemma keepsTimers_startVoiceTutor (fromLecture : bool) :
  keepsTimers (fun t : Tutor => snd (startVoiceTutor fromLecture t)).
Proof.
  intros t. unfold startVoiceTutor. destruct (_ || _); repeat split.
Qed.

Lemma tracksTimers_handle_event (e : Event T) : tracksTimers (handle_event e).
Proof.
  intros t Ht.
  destruct e as [slides| | | |index| | | | |op|h|n outcome]; cbn [handle_event].
  - unfold startAutoExplain. cbv zeta.
    set (t1 := block _ t).
    assert (Ht1 : timersTracked t1) by exact Ht.
    clearbody t1. destruct (negb _).
    + pose proof (keepsTimers_tracks _ (keepsTimers_startVoiceTutor true) t1 Ht1) as Hv.
      cbn beta in Hv. destruct (startVoiceTutor true t1) as [[|] t2]; exact Hv.
    + now apply (tracksTimers_setTimeout ExplainSlide 500).
  - revert t Ht. apply tracksTimers_block.
    repeat (constructor;
            [first [ apply tracksTimers_clearTimeoutOf
                   | apply keepsTimers_tracks;
                     first [ apply keepsTimers_stopAudioPlayback
                           | apply keepsTimers_stopVoiceTutor
                           | intros ?; repeat split ] ]|]).
    constructor.
  - revert t Ht. apply tracksTimers_block.
    repeat (constructor;
            [first [ apply tracksTimers_clearTimeoutOf
                   | apply keepsTimers_tracks;
                     first [ apply keepsTimers_stopAudioPlayback
                           | intros ?; repeat split ] ]|]).
    constructor.
  - unfold resumeAutoExplain. cbv zeta.
    apply (keepsTimers_tracks _ keepsTimers_explainCurrentSlide).
    destruct (stateRef (clearSubtitles t)); try exact Ht;
      destruct (_ <? _)%nat; exact Ht.
  - unfold goToSlide. destruct (_ || _); [exact Ht|]. cbv zeta.
    assert (Ht1 : timersTracked
                    (block [clearTimeoutOf advanceTimerRef;
                            set_currentSlideIndex (Z.to_nat index);
                            set_currentSlideIndexRef (Z.to_nat index)] t)).
    { apply tracksTimers_block; [|exact Ht].
      constructor; [apply tracksTimers_clearTimeoutOf|].
      repeat (constructor; [apply keepsTimers_tracks; intros ?; repeat split|]).
      constructor. }
    destruct (_ && _); [|exact Ht1].
    revert Ht1. generalize (block [clearTimeoutOf advanceTimerRef;
                            set_currentSlideIndex (Z.to_nat index);
                            set_currentSlideIndexRef (Z.to_nat index)] t).
    apply keepsTimers_tracks, keepsTimers_block.
    repeat (constructor;
            [first [ apply keepsTimers_stopAudioPlayback
                   | apply keepsTimers_explainCurrentSlide
                   | intros ?; repeat split ]|]).
    constructor.
  - exact Ht.
  - exact Ht.
  - now apply (keepsTimers_tracks _ (keepsTimers_startVoiceTutor false)).
  - now apply (keepsTimers_tracks _ keepsTimers_stopVoiceTutor).
  - now apply tracksTimers_sessionDoes.
  - now apply tracksTimers_timerFires.
  - now apply tracksTimers_resolves.
Qed.

Lemma tracksTimers_commit : tracksTimers (commit (T := T)).
Proof.
  intros t Ht. unfold commit. cbv zeta. revert Ht.
  generalize (negb (bool_decide (tutorState t = stateRef t))) as stateChanged.
  generalize (negb (String.eqb (subtitlesText t) (renderedSubtitlesText t)))
    as subtitlesChanged.
  generalize (negb (Bool.eqb (isVoiceConnected t) (renderedVoiceConnected t)))
    as connectedChanged.
  intros connectedChanged subtitlesChanged stateChanged. revert t.
  apply tracksTimers_block.
  do 4 (constructor; [apply keepsTimers_tracks; intros ?; repeat split|]).
  constructor.
  { intros t Ht. destruct (_ && _); [|exact Ht].
    now apply (tracksTimers_setTimeout ResumeLecture 1000). }
  constructor.
  { intros t Ht. destruct (_ && _); [|exact Ht]. cbv zeta.
    pose proof (tracksTimers_clearTimeoutOf researchTimerRef t Ht) as Ht1.
    set (t1 := clearTimeoutOf researchTimerRef t) in *.
    pose proof (tracksTimers_setTimeout (ClassifyQuestion (subtitlesText t1)) 3000
                  I t1 Ht1) as Ht2.
    exact Ht2. }
  constructor.
  { intros t Ht. destruct (_ && _); [|exact Ht].
    apply (tracksTimers_setTimeout ExplainSlide 1000 I
             (set_pendingSlideExplainRef false t)).
    exact Ht. }
  do 2 (constructor; [apply keepsTimers_tracks; intros ?; repeat split|]).
  constructor.
Qed.

Lemma tracksTimers_run (events : list (Event T)) : tracksTimers (run events).
Proof.
  unfold run. induction events as [|e events IH]; intros t Ht; cbn [foldl].
  - exact Ht.
  - apply IH. unfold step. now apply tracksTimers_commit, tracksTimers_handle_event.
Qed.

Lemma one_advance (l : list Timer) (h : nat) :
  NoDup (handle <$> l) ->
  Forall (fun tm => isAdvance tm = true -> handle tm = h) l ->
  (length (List.filter isAdvance l) <= 1)%nat.
Proof.
  intros Hnd Hall.
  induction l as [|tm l IH]; [cbn; lia|].
  rewrite fmap_cons in Hnd. apply NoDup_cons in Hnd. destruct Hnd as [Hnot Hnd].
  inversion Hall as [|tm' l' Htm Hrest]; subst.
  cbn [List.filter]. destruct (isAdvance tm) eqn:E; [|now apply IH].
  specialize (Htm eq_refl).
  assert (Hnone : List.filter isAdvance l = []).
  { destruct (List.filter isAdvance l) as [|tm2 rest] eqn:F; [reflexivity|].
    assert (Hin2 : In tm2 (List.filter isAdvance l)) by (rewrite F; now left).
    apply filter_In in Hin2. destruct Hin2 as [Hin2 E2].
    rewrite Forall_forall in Hrest.
    apply list_elem_of_In in Hin2.
    pose proof (Hrest tm2 Hin2 E2) as Hh2.
    exfalso. apply Hnot. rewrite Htm, <- Hh2.
    now apply list_elem_of_fmap_2. }
  rewrite Hnone. cbn. lia.
Qed.

(** X16: in every reachable state the pending timers have distinct
    handles, none ahead of the counter, and a pending auto-advance is the one
    [advanceTimerRef] holds; so at most one auto-advance is ever pending. *)
Theorem at_most_one_advance_timer (t : Tutor) :
  reachable t ->
  timersTracked t /\ (length (List.filter isAdvance (timers t)) <= 1)%nat.
Proof.
  intros [events <-].
  assert (Ht : timersTracked (run events (initial (T := T)))).
  { apply tracksTimers_run. unfold timersTracked. cbn.
    repeat split; constructor. }
  split; [exact Ht|].
  destruct Ht as (A & _ & C).
  destruct (advanceTimerRef (run events initial)) as [h|] eqn:Href.
  - apply (one_advance _ h A).
    eapply Forall_impl; [exact C|]. cbn. intros tm Htm E.
    specialize (Htm E). congruence.
  - apply (one_advance _ 0%nat A).
    eapply Forall_impl; [exact C|]. cbn. intros tm Htm E.
    specialize (Htm E). congruence.
Qed.

End WithTimeLine.

Lemma at_most_one_advance_timer_witness :
  let t := run (lectureStarting
                ++ [TimerFires 1; SessionDoes (Session.OpMessage turnCompleteMessage)])
               (initial (T := Q)) in
  timersTracked t /\ (length (List.filter isAdvance (timers t)) <= 1)%nat.
Proof.
  intros t.
  refine (at_most_one_advance_timer (T := Q) t _).
  eexists. reflexivity.
Defined.

End TimerLaws.

Module WorkspaceLaws.
Import Workspace.

Lemma aligned_addSource (file : File) (key : string) (ws : State) :
  aligned ws -> aligned (addSource file key ws).
Proof.
  intros Hws. unfold addSource. destruct (arrayBuffer file); [|exact Hws].
  unfold aligned. cbn [sources documents].
  apply Forall2_app; [exact Hws|]. repeat constructor.
Qed.

Lemma aligned_removeSource (key : string) (ws : State) :
  aligned ws -> aligned (removeSource key ws).
Proof.
  unfold aligned, removeSource. cbn [sources documents].
  induction 1 as [|s d ss ds [Hid Hname] _ IH]; [constructor|].
  cbn [List.filter]. rewrite Hid.
  destruct (negb (id s =? key)%string); [|exact IH].
  constructor; [split; assumption|exact IH].
Qed.

Lemma aligned_run (actions : list Action) (ws : State) :
  aligned ws -> aligned (run actions ws).
Proof.
  revert ws. unfold run. induction actions as [|a actions IH]; intros ws Hws;
    cbn [foldl]; [exact Hws|].
  apply IH. destruct a; [now apply aligned_addSource|now apply aligned_removeSource].
Qed.

(** X21: whatever sources are added (read or not) and removed, each source
    has its document at the same place, with its id and its name; so
    [hasSources] is false exactly when there is no document, and then
    [getSourceContent] is the "No sources uploaded" text. *)
Theorem sources_and_documents_stay_aligned (actions : list Action) :
  let ws := run actions initial in
  map sourceId (documents ws) = map Workspace.id (sources ws)
  /\ map documentName (documents ws) = map name (sources ws)
  /\ (hasSources ws = false <-> documents ws = [])
  /\ (hasSources ws = false ->
      getSourceContent ws
      = "No sources uploaded. Please provide some context or upload documents."%string).
Proof.
  cbn zeta.
  assert (Hal : aligned (run actions initial))
    by (apply aligned_run; constructor).
  set (ws := run actions initial) in *. clearbody ws.
  assert (Hmaps : map sourceId (documents ws) = map Workspace.id (sources ws)
                  /\ map documentName (documents ws) = map name (sources ws)).
  { unfold aligned in Hal.
    induction Hal as [|s d ss ds [Hid Hname] _ [IH1 IH2]]; [split; reflexivity|].
    cbn [map]. now rewrite Hid, Hname, IH1, IH2. }
  destruct Hmaps as [H1 H2]. split; [exact H1|]. split; [exact H2|].
  unfold hasSources, getSourceContent, aligned in *.
  destruct Hal as [|s d ss ds [Hid Hname] Hrest].
  - repeat split.
  - repeat split; discriminate.
Qed.

Lemma sources_and_documents_stay_aligned_witness :
  let notes := mkFile "notes.txt" "text/plain" 1536 (Some [Byte.x68; Byte.x69]) in
  let broken := mkFile "lost.bin" EmptyString 7 None in
  let ws := run [AddSource notes "k3x9q2m1a"; AddSource broken "zz0000000";
                 RemoveSource "k3x9q2m1a"] initial in
  hasSources ws = false
  /\ getSourceContent ws
     = "No sources uploaded. Please provide some context or upload documents."%string.
Proof.
  intros notes broken ws.
  destruct (sources_and_documents_stay_aligned
              [AddSource notes "k3x9q2m1a"; AddSource broken "zz0000000";
               RemoveSource "k3x9q2m1a"]) as (_ & _ & _ & Hc).
  split; [reflexivity|]. apply Hc. reflexivity.
Defined.

(** X22: removing a source just added gives the workspace back, provided
    its id is not the id of a source already there (the ids are random: a
    source with the same id would be removed with it). *)
Theorem removeSource_undoes_addSource
    (actions : list Action) (file : File) (key : string) :
  let ws := run actions initial in
  Forall (fun s => id s <> key) (sources ws) ->
  removeSource key (addSource file key ws) = ws.
Proof.
  cbn zeta. intros Hfresh.
  assert (Hal : aligned (run actions initial))
    by (apply aligned_run; constructor).
  set (ws := run actions initial) in *. clearbody ws.
  assert (Hs : List.filter (fun s => negb (id s =? key)%string) (sources ws)
               = sources ws).
  { induction Hfresh as [|s ss Hs _ IH]; [reflexivity|].
    cbn [List.filter]. apply String.eqb_neq in Hs. rewrite Hs. cbn. now rewrite IH. }
  assert (Hd : List.filter (fun d => negb (sourceId d =? key)%string) (documents ws)
               = documents ws).
  { unfold aligned in Hal. revert Hfresh. clear Hs.
    induction Hal as [|s d ss ds [Hid Hname] _ IH]; intros Hfresh; [reflexivity|].
    inversion Hfresh as [|s' ss' Hs Hrest]; subst.
    cbn [List.filter]. rewrite Hid. apply String.eqb_neq in Hs. rewrite Hs. cbn.
    now rewrite IH. }
  unfold addSource, removeSource. destruct (arrayBuffer file) as [buffer|];
    cbn [sources documents].
  - rewrite !List.filter_app, Hs, Hd. cbn [List.filter id sourceId].
    rewrite String.eqb_refl. cbn. rewrite !app_nil_r. now destruct ws.
  - rewrite Hs, Hd. now destruct ws.
Qed.

Lemma removeSource_undoes_addSource_witness :
  let notes := mkFile "notes.txt" "text/plain" 1536 (Some [Byte.x68; Byte.x69]) in
  let slides := mkFile "deck.pdf" "application/pdf" 20480 (Some [Byte.x25]) in
  let ws := run [AddSource notes "k3x9q2m1a"] initial in
  removeSource "p0o9i8u7y" (addSource slides "p0o9i8u7y" ws) = ws.
Proof.
  intros notes slides.
  refine (removeSource_undoes_addSource [AddSource notes "k3x9q2m1a"] slides
            "p0o9i8u7y" _).
  repeat constructor. cbn. discriminate.
Defined.

End WorkspaceLaws.

Module PptGeneratorLaws.
Import PptGenerator.

Lemma trimStart_head (s : JsString) :
  match trimStart s with
  | c :: _ => isWhiteSpace c = false
  | [] => True
  end.
Proof.
  induction s as [|c s IH]; [exact I|]. cbn [trimStart].
  destruct (isWhiteSpace c) eqn:E; [exact IH|exact E].
Qed.

Lemma trimStart_fixed (c : N) (s : JsString) :
  isWhiteSpace c = false -> trimStart (c :: s) = c :: s.
Proof. intros E. cbn. now rewrite E. Qed.

Lemma trimEnd_head (c : N) (s : JsString) :
  isWhiteSpace c = false -> exists rest, trimEnd (c :: s) = c :: rest.
Proof.
  intros E. cbn [trimEnd]. destruct (trimEnd s); [rewrite E|]; eauto.
Qed.

Lemma trimEnd_idempotent (s : JsString) : trimEnd (trimEnd s) = trimEnd s.
Proof.
  induction s as [|c s IH]; [reflexivity|]. cbn [trimEnd].
  destruct (trimEnd s) as [|k kept] eqn:E.
  - destruct (isWhiteSpace c) eqn:W; [reflexivity|]. cbn. now rewrite W.
  - cbn [trimEnd] in *. now rewrite IH.
Qed.

Lemma trim_idempotent (s : JsString) : trim (trim s) = trim s.
Proof.
  unfold trim. pose proof (trimStart_head s) as Hh.
  destruct (trimStart s) as [|c rest]; [reflexivity|].
  destruct (trimEnd_head c rest Hh) as [kept Hk]. rewrite Hk.
  rewrite (trimStart_fixed c kept Hh), <- Hk. apply trimEnd_idempotent.
Qed.

Lemma trimmed_trim (s : option JsString) : trim (trimmed s) = trimmed s.
Proof. destruct s; [apply trim_idempotent|reflexivity]. Qed.

Lemma cleaned_tidy (l : option (list (option JsString))) :
  Forall tidy (cleaned l).
Proof.
  unfold cleaned. apply Forall_forall. intros s Hs.
  apply list_elem_of_In, filter_In in Hs. destruct Hs as [Hin Hne].
  apply in_map_iff in Hin. destruct Hin as (o & <- & _).
  split; [now destruct (trimmed o)|apply trimmed_trim].
Qed.

Lemma cleaned_fixed (l : list JsString) :
  Forall tidy l -> cleaned (Some (map Some l)) = l.
Proof.
  unfold cleaned. cbn [default from_option]. unfold id.
  induction 1 as [|s l [Hne Ht] _ IH]; [reflexivity|].
  cbn [map]. cbn [map trimmed List.filter]. rewrite Ht.
  destruct s; [congruence|]. cbn [nonEmpty]. now rewrite IH.
Qed.

(** X23: [normalizeSlide] is idempotent: a slide it returned is returned
    as it is. *)
Theorem normalizeSlide_idempotent (slide : RawSlide) :
  normalizeSlide (asRaw (normalizeSlide slide)) = normalizeSlide slide.
Proof.
  unfold normalizeSlide.
  destruct (layout slide); cbn [asRaw layout title subtitle bullets left right text trimmed];
    rewrite ?trimmed_trim, ?trim_idempotent, ?cleaned_fixed by apply cleaned_tidy;
    try reflexivity.
Qed.

Lemma tidy_trimEnd (s : JsString) : tidy s -> trimEnd s = s.
Proof.
  intros [_ Ht]. rewrite <- Ht at 1. unfold trim.
  rewrite trimEnd_idempotent. exact Ht.
Qed.

Lemma trimEnd_cons_fixed (c : N) (s : JsString) :
  s <> [] -> trimEnd s = s -> trimEnd (c :: s) = c :: s.
Proof. intros Hne Hs. cbn [trimEnd]. rewrite Hs. now destruct s. Qed.

Lemma trim_marked (b : JsString) : tidy b -> trim (bulletMark ++ b) = bulletMark ++ b.
Proof.
  intros Hb. pose proof (tidy_trimEnd b Hb) as He. destruct Hb as [Hne _].
  unfold trim, bulletMark. cbn [app].
  rewrite trimStart_fixed by reflexivity.
  rewrite !trimEnd_cons_fixed; try reflexivity; try discriminate; try assumption.
  now apply trimEnd_cons_fixed.
Qed.

Lemma toBulletText_tidy (items : list JsString) :
  Forall tidy items ->
  toBulletText items = join lineFeed (map (app bulletMark) items).
Proof.
  intros Hall. unfold toBulletText. f_equal.
  induction Hall as [|b items Hb _ IH]; [reflexivity|].
  cbn [map]. now rewrite IH, (trim_marked b Hb).
Qed.

(** X24: the bullet text of a normalized slide has one line per bullet
    shown, the mark and the bullet; at most six bullets are shown, none of
    them empty or with white space at an end (so that the [trim] of
    [toBulletText] has nothing to strip). *)
Theorem bullet_texts_are_marked_bullets (slide : RawSlide) :
  let shown items := take 6 (cleaned items) in
  let marked items := join lineFeed (map (app bulletMark) (shown items)) in
  bulletTexts (normalizeSlide slide)
  = match layout slide with
    | content => [marked (bullets slide)]
    | two_column => [marked (left slide); marked (right slide)]
    | _ => []
    end
  /\ (forall items, Forall tidy (shown items) /\ (length (shown items) <= 6)%nat).
Proof.
  cbn zeta.
  assert (Hshown : forall items, Forall tidy (take 6 (cleaned items))).
  { intros items. apply Forall_take, cleaned_tidy. }
  split.
  - unfold normalizeSlide. destruct (layout slide); cbn [bulletTexts];
      rewrite ?toBulletText_tidy by apply Hshown; reflexivity.
  - intros items. split; [apply Hshown|]. rewrite length_take. lia.
Qed.

End PptGeneratorLaws.

Module LivePlaybackLaws.
Import AudioCodec LivePlayback.

Section WithTimeLine.
Context {T : Type} `{TimeLine T}.

Lemma handleInterruption_clears (message : Message T) (c : Client T) :
  interrupted message = true ->
  let '(c', log) := handleInterruption message c in
  activeSources c' = [] /\ nextStartTime c' = tzero
  /\ (forall s, s ∈ activeSources c -> SourceStop s ∈ log).
Proof.
  intros Hint. unfold handleInterruption. rewrite Hint.
  repeat split. intros s Hs. apply elem_of_app. left.
  apply list_elem_of_In, in_map, list_elem_of_In, Hs.
Qed.

Lemma decode_outcome (audioBytes : list Byte.byte) :
  match decodeAudioData audioBytes 24000 1 with
  | inl e => (length audioBytes mod 2 <> 0)%nat /\ e = RangeError
             \/ audioBytes = [] /\ e = NotSupportedError
  | inr _ => (length audioBytes mod 2 = 0)%nat /\ audioBytes <> []
  end.
Proof.
  destruct audioBytes as [|b bs]; [right; now split|].
  destruct (Nat.eq_dec (length (b :: bs) mod 2)%nat 0%nat) as [Heven|Hodd].
  - rewrite AudioCodecFacts.decodeAudioData_mono;
      [now split|exact Heven|cbn; lia|reflexivity].
  - unfold decodeAudioData. rewrite AudioCodecFacts.newInt16Array_odd by exact Hodd.
    left. now split.
Qed.

Lemma base64ToUint8Array_throws (data : string) (e : DOMException) :
  base64ToUint8Array data = inl e -> e = InvalidCharacterError.
Proof.
  unfold base64ToUint8Array, atob.
  destruct (_ =? 1)%nat; [congruence|].
  destruct (sextets _); [discriminate|congruence].
Qed.

(** X25: [LiveClient.handleMessage].  It fails exactly on audible audio
    that does not decode, with what the decoding throws: the
    InvalidCharacterError of [atob] for a text that is not base64, the
    RangeError of [new Int16Array] for an odd number of bytes, the
    NotSupportedError of [createBuffer] for no bytes at all (a text of white
    space).  Then nothing was started or stopped, the interruption the
    message may carry was not handled, and [nextStartTime] was already raised
    to the clock.  When it returns, an interrupted message leaves nothing
    queued: every source that was active, and the one this message started,
    is stopped and [nextStartTime] is 0.  A message without audible audio and
    without interruption changes nothing. *)
Theorem LiveClient_handleMessage_outcome (message : Message T) (c : Client T) :
  let '(result, c', log) := handleMessage message c in
  (forall e, result = inl e ->
     audible message c = true
     /\ (exists data, audioData message = Some data
           /\ (base64ToUint8Array data = inl e /\ e = InvalidCharacterError
               \/ exists audioBytes,
                    base64ToUint8Array data = inr audioBytes
                    /\ ((length audioBytes mod 2 <> 0)%nat /\ e = RangeError
                        \/ audioBytes = [] /\ e = NotSupportedError)))
     /\ log = [] /\ activeSources c' = activeSources c
     /\ nextStartTime c' = tmax (nextStartTime c) (currentTime message))
  /\ (result = inr tt
      <-> audible message c = false
          \/ exists data audioBytes,
               audioData message = Some data
               /\ base64ToUint8Array data = inr audioBytes
               /\ (length audioBytes mod 2 = 0)%nat /\ audioBytes <> [])
  /\ (result = inr tt -> interrupted message = true ->
      activeSources c' = [] /\ nextStartTime c' = tzero
      /\ (forall s, s ∈ activeSources c -> SourceStop s ∈ log)
      /\ (forall s w b, SourceStart s w b ∈ log -> SourceStop s ∈ log))
  /\ (result = inr tt -> interrupted message = false ->
      audible message c = false -> c' = c /\ log = []).
Proof.
  assert (Hplain :
            let '(c', log) := handleInterruption message c in
            (interrupted message = true ->
             activeSources c' = [] /\ nextStartTime c' = tzero
             /\ (forall s, s ∈ activeSources c -> SourceStop s ∈ log)
             /\ (forall s w b, SourceStart s w b ∈ log -> SourceStop s ∈ log))
            /\ (interrupted message = false -> c' = c /\ log = [])).
  { pose proof (handleInterruption_clears message c) as Hc.
    unfold handleInterruption in *. destruct (interrupted message).
    - split; [|discriminate]. intros _. destruct (Hc eq_refl) as (A & B & C).
      repeat split; try assumption.
      intros s w b Hin. apply elem_of_app in Hin. destruct Hin as [Hin|Hin].
      + apply list_elem_of_In, in_map_iff in Hin. destruct Hin as (s' & Heq & _).
        discriminate.
      + rewrite !elem_of_cons in Hin. destruct Hin as [Hin|[Hin|Hin]];
          try discriminate. now apply elem_of_nil in Hin.
    - split; [discriminate|]. intros _. split; reflexivity. }
  assert (Hinaudible :
            audible message c = false ->
            let '(result, c', log) :=
              (let '(c', stopped) := handleInterruption message c in
               (@inr DOMException unit tt, c', stopped)) in
            (forall e, result = inl e -> False)
            /\ result = inr tt
            /\ (interrupted message = true ->
                activeSources c' = [] /\ nextStartTime c' = tzero
                /\ (forall s, s ∈ activeSources c -> SourceStop s ∈ log)
                /\ (forall s w b, SourceStart s w b ∈ log -> SourceStop s ∈ log))
            /\ (interrupted message = false -> c' = c /\ log = [])).
  { intros _. destruct (handleInterruption message c) as [c' log].
    destruct Hplain as [Hyes Hno]. repeat split; try discriminate; auto;
      try (now apply Hyes); now apply Hno. }
  unfold handleMessage, audible in *.
  destruct (audioData message) as [data|] eqn:Hdata.
  2: { specialize (Hinaudible eq_refl).
       destruct (handleInterruption message c) as [c' log].
       destruct Hinaudible as (A & B & C & D).
       split; [intros e He; destruct (A e He)|].
       split; [split; [now left|reflexivity]|].
       split; [intros _; exact C|intros _ Hi _; exact (D Hi)]. }
  destruct (nonEmpty data && audioContext c) eqn:Haud.
  2: { specialize (Hinaudible eq_refl).
       destruct (handleInterruption message c) as [c' log].
       destruct Hinaudible as (A & B & C & D).
       split; [intros e He; destruct (A e He)|].
       split; [split; [now left|reflexivity]|].
       split; [intros _; exact C|intros _ Hi _; exact (D Hi)]. }
  clear Hinaudible Hplain. cbv zeta.
  destruct (base64ToUint8Array data) as [e0|audioBytes] eqn:Hbytes.
  { pose proof (base64ToUint8Array_throws data e0 Hbytes) as ->.
    split.
    - intros e He. injection He as <-. split; [reflexivity|].
      split; [|repeat split]. exists data. split; [reflexivity|]. left. now split.
    - split; [|split; discriminate].
      split; [discriminate|]. intros [Hf|(d & bs & Hd & Hb & _)]; [discriminate|].
      injection Hd as <-. congruence. }
  pose proof (decode_outcome audioBytes) as Hdec.
  destruct (decodeAudioData audioBytes 24000 1) as [e0|audioBuffer].
  - split.
    + intros e He. injection He as <-. split; [reflexivity|].
      split; [|repeat split]. exists data. split; [reflexivity|]. right.
      exists audioBytes. split; [exact Hbytes|exact Hdec].
    + split; [|split; discriminate].
      split; [discriminate|].
      intros [Hf|(d & bs & Hd & Hb & Heven & Hne)]; [discriminate|].
      injection Hd as <-. rewrite Hbytes in Hb. injection Hb as <-.
      destruct Hdec as [[Hodd _]|[Hnil _]]; contradiction.
  - set (c1 := mkClient _ _ _ _).
    pose proof (handleInterruption_clears message c1) as Hc.
    unfold handleInterruption in *.
    assert (Hok : @inr DOMException unit tt = inr tt
                  <-> true = false
                      \/ (exists (d : string) (bs : list Byte.byte),
                            Some data = Some d /\ base64ToUint8Array d = inr bs
                            /\ (length bs mod 2 = 0)%nat /\ bs <> [])).
    { split; [intros _|reflexivity]. right. exists data, audioBytes.
      destruct Hdec as [Heven Hne]. repeat split; assumption. }
    destruct (interrupted message); cbn [fst snd].
    + destruct (Hc eq_refl) as (A & B & C).
      split; [discriminate|]. split; [exact Hok|]. split; [|discriminate]. intros _ _.
      split; [reflexivity|]. split; [reflexivity|]. split.
      * intros s Hs. right. apply C. subst c1. cbn [activeSources].
        destruct (decide (_ ∈ _)); [exact Hs|]. apply elem_of_app. now left.
      * intros s w b' Hin. right. apply elem_of_cons in Hin. destruct Hin as [Hin|Hin].
        -- injection Hin as -> _ _. apply C. subst c1. cbn [activeSources sourcesCreated].
           destruct (decide (_ ∈ _)) as [Hd|Hd]; [exact Hd|].
           apply elem_of_app. right. now left.
        -- apply elem_of_app in Hin. destruct Hin as [Hin|Hin].
           ++ apply list_elem_of_In, in_map_iff in Hin. destruct Hin as (s' & Heq & _).
              discriminate.
           ++ rewrite !elem_of_cons in Hin. destruct Hin as [Hin|[Hin|Hin]];
                try discriminate. now apply elem_of_nil in Hin.
    + split; [discriminate|]. split; [exact Hok|].
      split; [discriminate|]. intros _ _ Hf. discriminate.
Qed.

End WithTimeLine.

Lemma LiveClient_handleMessage_outcome_witness :
  let message := mkMessage (Some " "%string) true (1 # 2)%Q in
  let c := mkClient true 0%Q [4%nat] 5 in
  fst (fst (handleMessage message c)) = inl NotSupportedError
  /\ snd (handleMessage message c) = []
  /\ activeSources (snd (fst (handleMessage message c))) = [4%nat].
Proof.
  intros message c.
  pose proof (LiveClient_handleMessage_outcome (T := Q) message c) as Hall.
  assert (E : fst (fst (handleMessage message c)) = inl NotSupportedError)
    by (vm_compute; reflexivity).
  destruct (handleMessage message c) as [[result c'] log].
  cbn [fst snd] in *. destruct Hall as [Herr _].
  destruct (Herr NotSupportedError E) as (_ & _ & Hlog & Hactive & _).
  split; [exact E|]. split; [exact Hlog|exact Hactive].
Defined.

End LivePlaybackLaws.

Module HandlerLaws.
Import AutoTutor Rest AutoTutorFacts.

Section WithTimeLine.
Context {T : Type} `{TimeLine T}.

Abbreviation Tutor := (AutoTutor.Tutor T).
Abbreviation Effect := (Session.Effect T Prompt).

Ltac lecture_split :=
  repeat match goal with
         | H : sameLecture _ _ |- _ =>
             destruct H as (? & ? & ? & ? & ? & ? & ? & ? & ? & ? & ? & ? & ?)
         end.

Lemma onHandle_isUserSpeaking (method : Session.M T Prompt unit) (t : Tutor) :
  isUserSpeaking (onHandle method t) = isUserSpeaking t.
Proof.
  unfold onHandle. destruct (realtimeRef t) as [session|]; [|reflexivity].
  destruct (Session.exec method session) as [session' log].
  change (isUserSpeaking t)
    with (isUserSpeaking (set_realtimeRef (Some session') t)).
  generalize (set_realtimeRef (Some session') t) as t0.
  induction log as [|e log IH]; intros t0; cbn [foldl]; [reflexivity|].
  rewrite IH. destruct e as [| |cb seen| | | | | | | |]; try reflexivity.
  destruct cb; reflexivity.
Qed.

(** [handleUserSpeechDetected] while a slide is narrated. *)
Lemma handleUserSpeechDetected_narrating (t : Tutor) (session : Session.State T) :
  stateRef t = auto_explaining -> realtimeRef t = Some session ->
  let t' := handleUserSpeechDetected t in
  tutorState t' = paused_for_question /\
  isUserSpeaking t' = true /\
  advanceTimerRef t' = None /\
  timers t' = cancelled (advanceTimerRef t) (timers t)
                ++ [mkTimer (S (timersCreated t)) 2000 SettleIntoAnswering] /\
  currentSlideIndex t' = currentSlideIndex t /\
  realtimeRef t' = Some (Session.cleared session) /\
  outputs t' = outputs t ++ snd (Session.exec Session.clearAudio session).
Proof.
  intros Hstate Hr. cbn zeta. unfold handleUserSpeechDetected. rewrite Hstate.
  unfold block. cbn [foldl].
  set (t1 := match advanceTimerRef t with
             | Some h => set_advanceTimerRef None (clearTimeout h t)
             | None => t
             end).
  assert (F1 : advanceTimerRef t1 = None
               /\ timers t1 = cancelled (advanceTimerRef t) (timers t)
               /\ timersCreated t1 = timersCreated t
               /\ currentSlideIndex t1 = currentSlideIndex t
               /\ realtimeRef t1 = realtimeRef t /\ outputs t1 = outputs t).
  { subst t1. destruct (advanceTimerRef t) eqn:E; repeat split; assumption. }
  destruct F1 as (F11 & F12 & F13 & F14 & F15 & F16).
  set (t2 := set_isUserSpeaking true t1).
  assert (R2 : realtimeRef t2 = Some session) by (rewrite <- Hr, <- F15; reflexivity).
  destruct (stopAudioPlayback_session t2 session R2) as (S3 & R3 & O3).
  set (t3 := stopAudioPlayback t2) in *.
  assert (F3 : isUserSpeaking t3 = true).
  { unfold t3, stopAudioPlayback, block. cbn [foldl].
    cbn [isUserSpeaking set_isTutorSpeaking]. now rewrite onHandle_isUserSpeaking. }
  assert (F2 : advanceTimerRef t2 = advanceTimerRef t1
               /\ timers t2 = timers t1 /\ timersCreated t2 = timersCreated t1
               /\ currentSlideIndex t2 = currentSlideIndex t1
               /\ outputs t2 = outputs t1) by (repeat split).
  destruct F2 as (F21 & F22 & F23 & F24 & F25).
  clearbody t3 t2 t1.
  unfold setTimeout. cbn. lecture_split.
  repeat split; congruence.
Qed.

(** X18: speech detected by the VAD while a slide is narrated pauses the
    lecture.  A frame above the threshold, more than 500 ms after the last
    activity, on an open microphone: the state becomes
    [paused_for_question], the pending auto-advance is cancelled and
    forgotten, the playback is cleared, the 2000 ms timer towards [answering]
    is set, the slide stays, and the frame is sent all the same. *)
Theorem speech_during_narration_pauses
    (t : Tutor) (session : Session.State T) (inputData : list float) (now : Z) :
  callbacksRegistered t = true -> stateRef t = auto_explaining ->
  realtimeRef t = Some session ->
  Session.stopped session = false -> Session.muted session = false ->
  Session.rmsExceedsThreshold inputData = true ->
  500 < now - Session.lastActivityTime session ->
  let t' := handle_event (SessionDoes (Session.OpAudioProcess inputData now)) t in
  let heard := Session.set_lastActivityTime now session in
  tutorState t' = paused_for_question /\
  advanceTimerRef t' = None /\
  timers t' = cancelled (advanceTimerRef t) (timers t)
                ++ [mkTimer (S (timersCreated t)) 2000 SettleIntoAnswering] /\
  currentSlideIndex t' = currentSlideIndex t /\
  realtimeRef t' = Some (Session.cleared heard) /\
  outputs t'
  = outputs t
      ++ [Session.Call Session.onUserActivity heard]
      ++ snd (Session.exec Session.clearAudio heard)
      ++ [Session.SendRealtimeInput (AudioCodec.createPcmBlob inputData)].
Proof.
  intros Hreg Hstate Hr Hs Hm Hloud Hlate. cbn zeta.
  cbn [handle_event]. unfold sessionDoes. rewrite Hr.
  cbn [Session.fromEnvironment Session.step].
  rewrite (SessionFacts.onaudioprocess_open _ _ _ Hs Hm), Hloud.
  replace (500 <? now - Session.lastActivityTime session) with true
    by (symmetry; now apply Z.ltb_lt).
  cbn [andb foldl].
  set (heard := Session.set_lastActivityTime now session).
  set (e := Session.Call Session.onUserActivity heard).
  set (t0 := noteEffect e (set_realtimeRef (Some heard) t)).
  assert (F0 : callbacksRegistered t0 = true /\ stateRef t0 = auto_explaining
               /\ realtimeRef t0 = Some heard
               /\ advanceTimerRef t0 = advanceTimerRef t /\ timers t0 = timers t
               /\ timersCreated t0 = timersCreated t
               /\ currentSlideIndex t0 = currentSlideIndex t
               /\ outputs t0 = outputs t ++ [e])
    by (repeat split; assumption).
  destruct F0 as (F01 & F02 & F03 & F04 & F05 & F06 & F07 & F08).
  unfold forward. rewrite F01.
  destruct (handleUserSpeechDetected_narrating t0 heard F02 F03)
    as (A & B & C & D & E & F & G).
  cbn zeta in *.
  set (t1 := handleUserSpeechDetected t0) in *.
  set (e2 := Session.SendRealtimeInput _).
  assert (F1 : tutorState (noteEffect e2 t1) = tutorState t1
               /\ advanceTimerRef (noteEffect e2 t1) = advanceTimerRef t1
               /\ timers (noteEffect e2 t1) = timers t1
               /\ currentSlideIndex (noteEffect e2 t1) = currentSlideIndex t1
               /\ realtimeRef (noteEffect e2 t1) = realtimeRef t1
               /\ outputs (noteEffect e2 t1) = outputs t1 ++ [e2])
    by (repeat split).
  destruct F1 as (F11 & F12 & F13 & F14 & F15 & F16).
  clearbody t1 t0.
  repeat split; try congruence.
  rewrite F16, G, F08, <- !app_assoc. reflexivity.
Qed.

(** *** Resuming *)

Lemma resume_target (t : Tutor) (current : SlideData) :
  slidesRef t !! currentSlideIndexRef t = Some current ->
  let target :=
    if (currentSlideIndexRef t + 1 <? length (slidesRef t))%nat
    then (currentSlideIndexRef t + 1)%nat else currentSlideIndexRef t in
  exists slide, slidesRef t !! target = Some slide.
Proof.
  intros Hcur. cbn zeta. destruct (_ <? _)%nat eqn:E.
  - apply Nat.ltb_lt in E. now apply lookup_lt_is_Some_2.
  - now exists current.
Qed.

Lemma explain_after_resume (t0 t : Tutor) (target : nat) (slide : SlideData) :
  slidesRef t = slidesRef t0 -> currentSlideIndexRef t = target ->
  currentSlideIndex t = target ->
  realtimeRef t = realtimeRef t0 -> outputs t = outputs t0 ->
  slidesRef t0 !! target = Some slide ->
  let t' := explainCurrentSlide t in
  tutorState t' = auto_explaining /\
  currentSlideIndex t' = target /\ currentSlideIndexRef t' = target /\
  (forall session, realtimeRef t0 = Some session ->
     Session.stopped session = false ->
     outputs t'
     = outputs t0
         ++ [Session.SendClientContent
               (SlideContent target (length (slidesRef t0)) slide)]).
Proof.
  intros Hs Hi Hi' Hr Ho Hslide. cbn zeta.
  assert (Hl : slidesRef t !! currentSlideIndexRef t = Some slide)
    by (now rewrite Hs, Hi).
  destruct (explainCurrentSlide_slide t slide Hl) as (A & _ & B & C & D).
  cbn zeta in *. repeat split; try congruence.
  intros session Hsession Hstop. rewrite <- Hr in Hsession.
  destruct (D session Hsession Hstop) as [_ O]. now rewrite O, Ho, Hs, Hi.
Qed.

(** X19: resuming never ends the lecture.  From [waiting_to_resume] both
    [resumeAutoExplain] and the timer of the resume command go on to the next
    slide; on the last slide they narrate the last slide again.  The state
    is [auto_explaining] and the prompt of that slide is sent. *)
Theorem resuming_never_ends_the_lecture (t : Tutor) (current : SlideData) :
  slidesRef t !! currentSlideIndexRef t = Some current ->
  currentSlideIndex t = currentSlideIndexRef t ->
  stateRef t = waiting_to_resume ->
  let target :=
    if (currentSlideIndexRef t + 1 <? length (slidesRef t))%nat
    then (currentSlideIndexRef t + 1)%nat else currentSlideIndexRef t in
  exists slide,
    slidesRef t !! target = Some slide /\
    forall t', t' = resumeAutoExplain t \/ t' = timerBody ResumeLecture t ->
      tutorState t' = auto_explaining /\
      currentSlideIndex t' = target /\ currentSlideIndexRef t' = target /\
      (forall session, realtimeRef t = Some session ->
         Session.stopped session = false ->
         outputs t'
         = outputs t
             ++ [Session.SendClientContent
                   (SlideContent target (length (slidesRef t)) slide)]).
Proof.
  intros Hcur Hsync Hstate. cbn zeta.
  destruct (resume_target t current Hcur) as [slide Hslide]. cbn zeta in Hslide.
  exists slide. split; [exact Hslide|].
  intros t' [-> | ->].
  - unfold resumeAutoExplain. cbv zeta.
    change (stateRef (clearSubtitles t)) with (stateRef t). rewrite Hstate.
    change (currentSlideIndexRef (clearSubtitles t)) with (currentSlideIndexRef t).
    change (slidesRef (clearSubtitles t)) with (slidesRef t).
    destruct (_ <? _)%nat;
      apply (explain_after_resume t); try reflexivity; assumption.
  - unfold timerBody. rewrite Hstate.
    rewrite bool_decide_eq_true_2 by reflexivity. cbv zeta.
    unfold block. cbn [foldl].
    destruct (_ <? _)%nat;
      apply (explain_after_resume t); try reflexivity; assumption.
Qed.

(** *** The visual that could not be generated *)

(** Calling the handle leaves the overlay and the mute flag of the
    provider alone. *)
Lemma onHandle_overlay (method : Session.M T Prompt unit) (t : Tutor) :
  showVisualOverlay (onHandle method t) = showVisualOverlay t
  /\ visualOverlay (onHandle method t) = visualOverlay t
  /\ isMicMuted (onHandle method t) = isMicMuted t.
Proof.
  unfold onHandle. destruct (realtimeRef t) as [session|]; [|repeat split].
  destruct (Session.exec method session) as [session' log].
  change (showVisualOverlay t)
    with (showVisualOverlay (set_realtimeRef (Some session') t)).
  change (visualOverlay t) with (visualOverlay (set_realtimeRef (Some session') t)).
  change (isMicMuted t) with (isMicMuted (set_realtimeRef (Some session') t)).
  generalize (set_realtimeRef (Some session') t) as t0.
  induction log as [|e log IH]; intros t0; cbn [foldl]; [repeat split|].
  destruct (IH (noteEffect e t0)) as (A & B & C). rewrite A, B, C.
  destruct e as [| |cb seen| | | | | | | |]; try (repeat split; fail).
  destruct cb; repeat split.
Qed.

(** X20: when the visual cannot be generated (the call is rejected, or
    gives no URL, or an empty one) the lecture falls back to speech: the
    state is [answering], the overlay is gone, the microphone is unmuted in
    the provider and in the session, and the tutor is told of the trouble. *)
Theorem failed_visual_falls_back_to_speech
    (t : Tutor) (isVideo : bool) (recentText : string) (currentSlide : SlideData)
    (outcome : Outcome) :
  outcome = Rejected \/ outcome = VisualGenerated None
  \/ outcome = VisualGenerated (Some EmptyString) ->
  let t' := resume (AwaitVisual isVideo recentText currentSlide) outcome t in
  tutorState t' = answering /\
  isVisualGeneratingRef t' = false /\
  showVisualOverlay t' = false /\ visualOverlay t' = None /\
  isMicMuted t' = false /\
  (forall session, realtimeRef t = Some session ->
     Session.stopped session = false ->
     realtimeRef t' = Some (Session.set_muted false session)
     /\ outputs t' = outputs t ++ [Session.SendClientContent VisualTrouble]).
Proof.
  intros Hout. cbn zeta.
  assert (E : resume (AwaitVisual isVideo recentText currentSlide) outcome t
              = block [set_isVisualGeneratingRef false;
                       set_showVisualOverlay false;
                       set_visualOverlay None;
                       unmuteMic;
                       sendTextToTutor VisualTrouble;
                       set_tutorState answering] t)
    by (destruct Hout as [-> | [-> | ->]]; reflexivity).
  rewrite E. clear E Hout. unfold block. cbn [foldl].
  unfold unmuteMic, block. cbn [foldl].
  set (t1 := set_visualOverlay None _).
  assert (F1 : isVisualGeneratingRef t1 = false /\ showVisualOverlay t1 = false
               /\ visualOverlay t1 = None /\ realtimeRef t1 = realtimeRef t
               /\ outputs t1 = outputs t) by (repeat split).
  destruct F1 as (F11 & F12 & F13 & F14 & F15).
  pose proof (sameLecture_onHandle Session.unmuteMic t1) as S2.
  destruct (onHandle_overlay Session.unmuteMic t1) as (V21 & V22 & _).
  pose proof (onHandle_session Session.unmuteMic t1) as P2.
  set (t2 := onHandle Session.unmuteMic t1) in *.
  set (t3 := set_isMicMuted false t2).
  assert (F3 : isVisualGeneratingRef t3 = isVisualGeneratingRef t2
               /\ showVisualOverlay t3 = showVisualOverlay t2
               /\ visualOverlay t3 = visualOverlay t2 /\ isMicMuted t3 = false
               /\ realtimeRef t3 = realtimeRef t2 /\ outputs t3 = outputs t2)
    by (repeat split).
  destruct F3 as (F31 & F32 & F33 & F34 & F35 & F36).
  pose proof (sameLecture_sendTextToTutor VisualTrouble t3) as S4.
  pose proof (sendTextToTutor_session VisualTrouble t3) as P4.
  assert (V4 : showVisualOverlay (sendTextToTutor VisualTrouble t3)
               = showVisualOverlay t3
               /\ visualOverlay (sendTextToTutor VisualTrouble t3) = visualOverlay t3
               /\ isMicMuted (sendTextToTutor VisualTrouble t3) = isMicMuted t3).
  { unfold sendTextToTutor, block. destruct (realtimeRef t3); [|repeat split].
    cbn [foldl].
    destruct (onHandle_overlay (Session.sendText VisualTrouble)
                (set_subtitlesText EmptyString t3)) as (A & B & C).
    rewrite A, B, C. repeat split. }
  destruct V4 as (V41 & V42 & V43).
  set (t4 := sendTextToTutor VisualTrouble t3) in *.
  clearbody t4 t3 t2 t1.
  cbn [tutorState isVisualGeneratingRef showVisualOverlay visualOverlay isMicMuted
       realtimeRef outputs set_tutorState].
  destruct S2 as (? & ? & ? & ? & ? & ? & ? & ? & ? & ? & ? & ? & ?).
  destruct S4 as (? & ? & ? & ? & ? & ? & ? & ? & ? & ? & ? & ? & ?).
  do 5 (split; [congruence|]).
  intros session Hr Hs. rewrite <- F14 in Hr.
  destruct (P2 session Hr) as (_ & R2 & O2).
  cbn [Session.exec Session.unmuteMic Session.modify fst snd] in R2, O2.
  rewrite <- F35 in R2.
  destruct (P4 _ R2 Hs) as (_ & R4 & O4).
  split; [exact R4|].
  rewrite O4, F36, O2, app_nil_r. congruence.
Qed.

End WithTimeLine.

Lemma speech_during_narration_pauses_witness :
  let t := run (lectureStarting ++ [TimerFires 1]) (initial (T := Q)) in
  tutorState
    (handle_event
       (SessionDoes (Session.OpAudioProcess Session.loudFrame 1000)) t)
  = paused_for_question.
Proof.
  intros t.
  refine (proj1 (speech_during_narration_pauses (T := Q) t Session.initial
                   Session.loudFrame 1000 _ _ _ _ _ _ _));
    vm_compute; reflexivity.
Defined.

Lemma resuming_never_ends_the_lecture_witness :
  let t := run (lectureStarting
                ++ [TimerFires 1;
                    SessionDoes (Session.OpMessage turnCompleteMessage);
                    TimerFires 2;
                    SessionDoes (Session.OpAudioProcess Session.loudFrame 1000);
                    SessionDoes (Session.OpMessage turnCompleteMessage)])
               (initial (T := Q)) in
  exists slide,
    twoSlides !! 1%nat = Some slide /\
    forall t', t' = resumeAutoExplain t \/ t' = timerBody ResumeLecture t ->
      tutorState t' = auto_explaining /\
      currentSlideIndex t' = 1%nat /\ currentSlideIndexRef t' = 1%nat /\
      (forall session, realtimeRef t = Some session ->
         Session.stopped session = false ->
         outputs t'
         = outputs t
             ++ [Session.SendClientContent (SlideContent 1 2 slide)]).
Proof.
  intros t.
  refine (resuming_never_ends_the_lecture (T := Q) t slideTwo _ _ _);
    vm_compute; reflexivity.
Defined.

Lemma failed_visual_falls_back_to_speech_witness :
  let t := run (lectureStarting
                ++ [TimerFires 1;
                    SessionDoes (Session.OpAudioProcess Session.loudFrame 1000);
                    SessionDoes (Session.OpMessage (subtitleMessage "show me a video"));
                    TimerFires 2; TimerFires 4;
                    Resolves 0 (QuestionTypeIs visual_request)])
               (initial (T := Q)) in
  tutorState (resume (AwaitVisual true "show me a video" slideOne) Rejected t)
  = answering.
Proof.
  intros t.
  refine (proj1 (failed_visual_falls_back_to_speech (T := Q) t true
                   "show me a video" slideOne Rejected _)).
  left. reflexivity.
Defined.

End HandlerLaws.
